(** * Reconstrutor-Query: the WHERE-clause parser and reconstructor of
    [sql_parser.py], embedded in Rocq.

    Python [str] values are modelled as lists of 8-bit characters.  The
    program's regular expressions are kept as syntax trees and run by a
    backtracking matcher that follows the priority order of Python's [re]
    module; exceptions are values of an error monad, so that every
    [try]/[except] of the source is visible in the model.  The [sqlparse]
    library is not part of the repository: its two entry points are
    parameters of the sections that use them. *)

From Stdlib Require Import Ascii String ZArith Lia Bool Arith PeanoNat.
From Stdlib Require Import Floats.
From Stdlib Require DecimalString.
From Stdlib Require Import List.
Import ListNotations.

Set Implicit Arguments.

Open Scope string_scope.
Open Scope list_scope.
Open Scope nat_scope.

(** ** Python strings *)

Definition str := list ascii.

Definition str_of (s : string) : str := list_ascii_of_string s.
Coercion str_of : string >-> str.

Definition dquote : ascii := ascii_of_nat 34.
Definition squote : ascii := "'"%char.
Definition newline : ascii := ascii_of_nat 10.

Definition str_eqb (a b : str) : bool :=
  if list_eq_dec ascii_dec a b then true else false.

Module Py.

(** [str.isspace] on one character, for code points below 256; the class
    [\s] of a [str] pattern is the same set. *)
Definition isspace (c : ascii) : bool :=
  let n := nat_of_ascii c in
  ((9 <=? n) && (n <=? 13)) || ((28 <=? n) && (n <=? 32))
  || (n =? 133) || (n =? 160).

Definition isdigit (c : ascii) : bool :=
  let n := nat_of_ascii c in (48 <=? n) && (n <=? 57).

Definition isoctal (c : ascii) : bool :=
  let n := nat_of_ascii c in (48 <=? n) && (n <=? 55).

Definition upper_char (c : ascii) : ascii :=
  let n := nat_of_ascii c in
  if (97 <=? n) && (n <=? 122) then ascii_of_nat (n - 32) else c.

Definition lower_char (c : ascii) : ascii :=
  let n := nat_of_ascii c in
  if (65 <=? n) && (n <=? 90) then ascii_of_nat (n + 32) else c.

(** [s.upper()] and [s.lower()] on the ASCII letters.  The program only
    looks for ASCII keywords in the result, and Python's mapping of the other
    characters below 256 neither makes nor removes a letter of those
    keywords. *)
Definition upper (s : str) : str := map upper_char s.
Definition lower (s : str) : str := map lower_char s.

Definition mem (c : ascii) (cs : str) : bool := existsb (Ascii.eqb c) cs.

Fixpoint lstrip_by (p : ascii -> bool) (s : str) : str :=
  match s with
  | c :: t => if p c then lstrip_by p t else s
  | [] => []
  end.

Definition rstrip_by (p : ascii -> bool) (s : str) : str :=
  rev (lstrip_by p (rev s)).

Definition strip_by (p : ascii -> bool) (s : str) : str :=
  rstrip_by p (lstrip_by p s).

(** [s.strip()] *)
Definition strip (s : str) : str := strip_by isspace s.

(** [s.strip(chars)] *)
Definition strip_chars (chars s : str) : str :=
  strip_by (fun c => mem c chars) s.

(** [s.startswith(p)] *)
Fixpoint startswith (s p : str) {struct p} : bool :=
  match p, s with
  | [], _ => true
  | a :: p', b :: s' => Ascii.eqb a b && startswith s' p'
  | _ :: _, [] => false
  end.

(** [sub in s] *)
Fixpoint contains (sub s : str) : bool :=
  startswith s sub ||
  match s with
  | [] => false
  | _ :: t => contains sub t
  end.

(** [s.split(sep)] for a non-empty separator: the pieces between the
    non-overlapping occurrences of [sep], scanned from the left. *)
Fixpoint split_fuel (fuel : nat) (sep s cur : str) : list str :=
  match fuel with
  | 0 => [rev cur ++ s]
  | S n =>
      match s with
      | [] => [rev cur]
      | c :: t =>
          if startswith s sep
          then rev cur :: split_fuel n sep (skipn (length sep) s) []
          else split_fuel n sep t (c :: cur)
      end
  end.

Definition split (sep s : str) : list str :=
  split_fuel (S (length s)) sep s [].

(** [s.replace(old, new)]: every non-overlapping occurrence, from the
    left.  With an empty [old] Python puts [new] before every character
    and at the end. *)
Fixpoint replace_fuel (fuel : nat) (old new s : str) : str :=
  match fuel with
  | 0 => s
  | S n =>
      match s with
      | [] => []
      | c :: t =>
          if startswith s old
          then new ++ replace_fuel n old new (skipn (length old) s)
          else c :: replace_fuel n old new t
      end
  end.

Definition replace (old new s : str) : str :=
  match old with
  | [] => new ++ flat_map (fun c => c :: new) s
  | _ :: _ => replace_fuel (length s) old new s
  end.

(** [sep.join(parts)] *)
Fixpoint join (sep : str) (parts : list str) : str :=
  match parts with
  | [] => []
  | [p] => p
  | p :: ps => p ++ sep ++ join sep ps
  end.

End Py.

(** ** Exceptions *)

Inductive exn : Type :=
| ValueError
| TypeError
| AttributeError
| OverflowError
| RecursionError
| ReError          (* re.error, IndexError of a replacement template *)
| LibraryError     (* anything raised inside sqlparse *)
| HTTPException.   (* raised by Flask while it reads a request *)

Inductive res (A : Type) : Type :=
| Ok (a : A)
| Raise (e : exn).

Arguments Ok {A} a.
Arguments Raise {A} e.

Definition bind {A B : Type} (m : res A) (f : A -> res B) : res B :=
  match m with
  | Ok a => f a
  | Raise e => Raise e
  end.

Notation "x <- m ;; k" := (bind m (fun x => k))
  (at level 61, m at next level, right associativity).

(** [try: body except (e1, e2, ...): handler]; [except Exception] catches
    every exception of this model. *)
Definition try_except {A : Type} (body : res A) (caught : exn -> bool)
    (handler : res A) : res A :=
  match body with
  | Ok a => Ok a
  | Raise e => if caught e then handler else Raise e
  end.

Definition Exception (e : exn) : bool := true.

Definition only (l : list exn) (e : exn) : bool :=
  existsb (fun x => match x, e with
                    | ValueError, ValueError | TypeError, TypeError
                    | AttributeError, AttributeError | OverflowError, OverflowError
                    | RecursionError, RecursionError
                    | ReError, ReError | LibraryError, LibraryError => true
                    | _, _ => false
                    end) l.

Fixpoint mapM {A B : Type} (f : A -> res B) (l : list A) : res (list B) :=
  match l with
  | [] => Ok []
  | a :: t => b <- f a ;; bs <- mapM f t ;; Ok (b :: bs)
  end.

(** ** Regular expressions

    The patterns of the source are written as syntax trees.  [exec] is a
    backtracking matcher in continuation-passing style: alternatives are
    tried from left to right, a greedy repetition tries one more iteration
    before it tries to stop, a lazy one the other way round, which is the
    order in which Python's [re] explores a pattern.  Every repetition in
    the program's patterns is over a single character class, so an iteration
    always consumes one character and the length of what is left of the
    subject bounds the number of iterations. *)

Module Re.

Inductive regex : Type :=
| Eps
| Chr (p : ascii -> bool)
| Seq (a b : regex)
| Alt (a b : regex)
| Star (greedy : bool) (a : regex)
| Grp (n : nat) (a : regex)
| Bol
| Eol.

(** The matcher's state: how many characters are behind it, what is left
    of the subject, the text collected so far for each group that is open
    (innermost first, each text backwards), and the groups closed so far
    (latest first). *)
Record mstate : Type := MState {
  pos : nat;
  rest : str;
  opened : list str;
  caps : list (nat * str)
}.

Definition cont := mstate -> option mstate.

Definition or_else (a : option mstate) (b : unit -> option mstate) : option mstate :=
  match a with
  | Some x => Some x
  | None => b tt
  end.

Fixpoint star_loop (greedy : bool) (body : mstate -> cont -> option mstate)
    (fuel : nat) (st : mstate) (k : cont) : option mstate :=
  match fuel with
  | 0 => k st
  | S n =>
      let again (_ : unit) :=
        body st (fun st' => star_loop greedy body n st' k) in
      if greedy then or_else (again tt) (fun _ => k st)
      else or_else (k st) again
  end.

Definition consume (c : ascii) (t : str) (st : mstate) : mstate :=
  MState (S (pos st)) t (map (cons c) (opened st)) (caps st).

Definition open_group (st : mstate) : mstate :=
  MState (pos st) (rest st) ([] :: opened st) (caps st).

Definition close_group (n : nat) (k : cont) : cont :=
  fun st =>
    match opened st with
    | text :: outer => k (MState (pos st) (rest st) outer ((n, rev text) :: caps st))
    | [] => None
    end.

Fixpoint exec (r : regex) (st : mstate) (k : cont) : option mstate :=
  match r with
  | Eps => k st
  | Chr p =>
      match rest st with
      | c :: t => if p c then k (consume c t st) else None
      | [] => None
      end
  | Seq a b => exec a st (fun st' => exec b st' k)
  | Alt a b => or_else (exec a st k) (fun _ => exec b st k)
  | Star g a => star_loop g (exec a) (length (rest st)) st k
  | Grp n a => exec a (open_group st) (close_group n k)
  | Bol => if pos st =? 0 then k st else None
  | Eol =>
      match rest st with
      | [] => k st
      | [c] => if Ascii.eqb c newline then k st else None
      | _ => None
      end
  end.

(** *** Pattern syntax *)

Definition Plus (g : bool) (a : regex) : regex := Seq a (Star g a).
Definition Opt (a : regex) : regex := Alt a Eps.

Fixpoint seqs (l : list regex) : regex :=
  match l with
  | [] => Eps
  | [a] => a
  | a :: t => Seq a (seqs t)
  end.

Fixpoint alts (l : list regex) : regex :=
  match l with
  | [] => Eps
  | [a] => a
  | a :: t => Alt a (alts t)
  end.

Definition chr (c : ascii) : regex := Chr (Ascii.eqb c).
Definition chr_ci (c : ascii) : regex :=
  Chr (fun x => Ascii.eqb (Py.lower_char x) (Py.lower_char c)).

(** a literal, and a literal under [re.IGNORECASE] *)
Definition lit (s : string) : regex := seqs (map chr (str_of s)).
Definition lit_ci (s : string) : regex := seqs (map chr_ci (str_of s)).

Definition space : regex := Chr Py.isspace.                       (* \s *)
Definition not_space : regex := Chr (fun c => negb (Py.isspace c)). (* [^\s] *)
Definition digit : regex := Chr Py.isdigit.                       (* \d *)
Definition dot : regex := Chr (fun c => negb (Ascii.eqb c newline)). (* . *)
Definition dot_all : regex := Chr (fun _ => true).                (* . with DOTALL *)
Definition none_of (cs : string) : regex :=                       (* [^...] *)
  Chr (fun c => negb (Py.mem c (str_of cs))).
Definition range (lo hi : ascii) : regex :=                       (* [lo-hi] *)
  Chr (fun c => (nat_of_ascii lo <=? nat_of_ascii c)
                && (nat_of_ascii c <=? nat_of_ascii hi)).

(** *** Match objects and the entry points of [re] *)

Record match_obj : Type := Match {
  m_start : nat;
  m_end : nat;
  m_text : str;                   (* group(0) *)
  m_caps : list (nat * str)
}.

(** [m.group(n)] for [n >= 1]; a group that took no part in the match
    reads as the empty string (the template expansion of [re.sub] reads it
    so; every group the parser reads is in the mandatory part of its
    pattern). *)
Fixpoint lookup (n : nat) (l : list (nat * str)) : str :=
  match l with
  | [] => []
  | (i, s) :: t => if i =? n then s else lookup n t
  end.

Definition group (m : match_obj) (n : nat) : str := lookup n (m_caps m).

(** One attempt at position [i]; with [must_advance] an empty match is
    refused and the matcher backtracks. *)
Definition match_at (r : regex) (s : str) (i : nat) (must_advance : bool)
    : option match_obj :=
  match exec r (MState i (skipn i s) [] [])
             (fun st => if must_advance && (pos st =? i) then None else Some st) with
  | Some st => Some (Match i (pos st) (firstn (pos st - i) (skipn i s)) (caps st))
  | None => None
  end.

(** [re.match] *)
Definition re_match (r : regex) (s : str) : option match_obj :=
  match_at r s 0 false.

(** The scan of [re.search]: positions [i], [i+1], ... up to the end of the
    subject; [must_advance] only constrains the first attempt. *)
Fixpoint search_loop (r : regex) (s : str) (n i : nat) (must_advance : bool)
    : option match_obj :=
  match match_at r s i must_advance with
  | Some m => Some m
  | None =>
      match n with
      | 0 => None
      | S n' => search_loop r s n' (S i) false
      end
  end.

Definition search_from (r : regex) (s : str) (i : nat) (must_advance : bool)
    : option match_obj :=
  if i <=? length s then search_loop r s (length s - i) i must_advance else None.

(** [re.search] *)
Definition re_search (r : regex) (s : str) : option match_obj :=
  search_from r s 0 false.

(** The successive matches that [re.split], [re.sub] and [re.finditer]
    visit: each search starts where the last match ended and, after an
    empty match, must advance. *)
Fixpoint matches_loop (r : regex) (s : str) (fuel i : nat) (must_advance : bool)
    : list match_obj :=
  match fuel with
  | 0 => []
  | S n =>
      match search_from r s i must_advance with
      | None => []
      | Some m => m :: matches_loop r s n (m_end m) (m_end m =? m_start m)
      end
  end.

Definition matches (r : regex) (s : str) : list match_obj :=
  matches_loop r s (S (S (2 * length s))) 0 false.

(** [re.split] for a pattern without groups *)
Fixpoint split_at (s : str) (last : nat) (ms : list match_obj) : list str :=
  match ms with
  | [] => [skipn last s]
  | m :: t => firstn (m_start m - last) (skipn last s) :: split_at s (m_end m) t
  end.

Definition re_split (r : regex) (s : str) : list str :=
  split_at s 0 (matches r s).

(** [re.sub] with the replacement computed from each match *)
Fixpoint sub_at (repl : match_obj -> str) (s : str) (last : nat)
    (ms : list match_obj) : str :=
  match ms with
  | [] => skipn last s
  | m :: t => firstn (m_start m - last) (skipn last s) ++ repl m
                ++ sub_at repl s (m_end m) t
  end.

Definition re_sub (r : regex) (repl : match_obj -> str) (s : str) : str :=
  sub_at repl s 0 (matches r s).

End Re.

(** ** Python values

    The condition dictionaries hold what the parser puts there and, on the
    way back, whatever the JSON body of the request held. *)

#[warnings="-register-all"]
Inductive pyval : Type :=
| PNone
| PBool (b : bool)
| PInt (z : Z)
| PFloat (f : float)
| PStr (s : str)
| PList (l : list pyval)
| PDict (d : list (str * pyval)).

Definition dict := list (str * pyval).

Module Dict.

(** [d.get(k)] *)
Fixpoint get (d : dict) (k : str) : option pyval :=
  match d with
  | [] => None
  | (k', v) :: t => if str_eqb k' k then Some v else get t k
  end.

(** [d.get(k, default)] *)
Definition get_default (d : dict) (k : str) (default : pyval) : pyval :=
  match get d k with
  | Some v => v
  | None => default
  end.

(** [d[k] = v] *)
Fixpoint set (d : dict) (k : str) (v : pyval) : dict :=
  match d with
  | [] => [(k, v)]
  | (k', v') :: t => if str_eqb k' k then (k, v) :: t else (k', v') :: set t k v
  end.

End Dict.

Definition Z_to_str (z : Z) : str :=
  str_of (DecimalString.NilZero.string_of_int (Z.to_int z)).

Definition pystr_eqb (v : pyval) (s : string) : bool :=   (* v == 's' *)
  match v with
  | PStr x => str_eqb x (str_of s)
  | _ => false
  end.

Definition truthy (v : pyval) : bool :=
  match v with
  | PNone => false
  | PBool b => b
  | PInt z => negb (Z.eqb z 0)
  | PFloat f => negb (PrimFloat.is_zero f)
  | PStr s => negb (str_eqb s [])
  | PList l => match l with [] => false | _ => true end
  | PDict d => match d with [] => false | _ => true end
  end.

(** ** [float(...)] *)

Module Float.

Import Re.

(** The grammar [_Py_dg_strtod] and [_Py_parse_inf_or_nan] accept. *)
Definition sign : regex := Opt (alts [chr "+"; chr "-"]).

Definition decimal : regex :=
  seqs [ sign;
         alts [ Seq (Plus true digit) (Opt (Seq (chr ".") (Star true digit)));
                Seq (chr ".") (Plus true digit) ];
         Opt (seqs [alts [chr "e"; chr "E"]; sign; Plus true digit]) ].

Definition inf_or_nan : regex :=
  Seq sign (alts [ Seq (lit_ci "inf") (Opt (lit_ci "inity")); lit_ci "nan" ]).

Definition accepts (r : regex) (s : str) : bool :=
  match exec r (MState 0 s [] [])
             (fun st => match rest st with [] => Some st | _ => None end) with
  | Some _ => true
  | None => false
  end.

(** Underscores may only stand between two digits; they are removed
    before the number is read. *)
Fixpoint underscores_ok (prev : ascii) (s : str) : bool :=
  match s with
  | [] => negb (Ascii.eqb prev "_")
  | c :: t =>
      (if Ascii.eqb c "_" then Py.isdigit prev
       else negb (Ascii.eqb prev "_") || Py.isdigit c)
      && underscores_ok c t
  end.

Definition drop_underscores (s : str) : str :=
  filter (fun c => negb (Ascii.eqb c "_")) s.

(** White space around the number is skipped: the ASCII white space of C
    and, of the characters above 127, those Python counts as space (the
    separators 28 to 31 are not skipped). *)
Definition isspace (c : ascii) : bool :=
  let n := nat_of_ascii c in
  Py.isspace c && negb ((28 <=? n) && (n <=? 31)).

(** [float(s)] returns for the string [s] *)
Definition literal (s : str) : bool :=
  let t := Py.strip_by isspace s in
  let u := if Py.mem "_" t
           then (if underscores_ok Ascii.zero t then Some (drop_underscores t) else None)
           else Some t in
  match u with
  | Some u => accepts decimal u || accepts inf_or_nan u
  | None => false
  end.

(** An [int] is converted unless it rounds beyond the largest double. *)
Definition int_fits (z : Z) : bool :=
  (Z.abs z <? 2 ^ 1024 - 2 ^ 970)%Z.

(** [float(v)], as far as raising goes *)
Definition call (v : pyval) : res unit :=
  match v with
  | PStr s => if literal s then Ok tt else Raise ValueError
  | PInt z => if int_fits z then Ok tt else Raise OverflowError
  | PBool _ | PFloat _ => Ok tt
  | PNone | PList _ | PDict _ => Raise TypeError
  end.

End Float.

(** ** [datetime.strptime]

    [_strptime] turns the format into a regular expression, one named group
    per directive, matches it at the start of the data, refuses unconverted
    data, and builds the [datetime], which checks the calendar. *)

Module Strptime.

Import Re.

(** the directives the program's formats use *)
Definition directive (c : ascii) : regex :=
  if Ascii.eqb c "d" then
    alts [ Seq (chr "3") (range "0" "1"); Seq (range "1" "2") digit;
           Seq (chr "0") (range "1" "9"); range "1" "9";
           Seq (chr " ") (range "1" "9") ]
  else if Ascii.eqb c "H" then
    alts [ Seq (chr "2") (range "0" "3"); Seq (range "0" "1") digit; digit ]
  else if Ascii.eqb c "m" then
    alts [ Seq (chr "1") (range "0" "2"); Seq (chr "0") (range "1" "9");
           range "1" "9" ]
  else if Ascii.eqb c "M" then
    alts [ Seq (range "0" "5") digit; digit ]
  else if Ascii.eqb c "S" then
    alts [ Seq (chr "6") (range "0" "1"); Seq (range "0" "5") digit; digit ]
  else if Ascii.eqb c "Y" then
    seqs [ digit; digit; digit; digit ]
  else Chr (fun _ => false).

(** [TimeRE.pattern]: a run of white space in the format stands for [\s+],
    [%x] for the group of directive [x], anything else for itself. *)
Fixpoint pattern (fmt : str) : regex :=
  match fmt with
  | [] => Eps
  | c :: t =>
      if Ascii.eqb c "%" then
        match t with
        | d :: t' => Seq (Grp (nat_of_ascii d) (directive d)) (pattern t')
        | [] => Eps
        end
      else if Py.isspace c then
        match t with
        | c' :: _ => if Py.isspace c' then pattern t
                     else Seq (Plus true space) (pattern t)
        | [] => Plus true space
        end
      else Seq (chr_ci c) (pattern t)
  end.

(** [int(s)] for the digits of a group (white space is skipped) *)
Definition to_nat (s : str) : nat :=
  fold_left (fun acc c => if Py.isdigit c then 10 * acc + (nat_of_ascii c - 48) else acc)
            s 0.

Definition is_leap (y : nat) : bool :=
  (y mod 4 =? 0) && (negb (y mod 100 =? 0) || (y mod 400 =? 0)).

Definition days_in_month (y m : nat) : nat :=
  match m with
  | 2 => if is_leap y then 29 else 28
  | 4 | 6 | 9 | 11 => 30
  | _ => 31
  end.

Definition field (m : match_obj) (c : ascii) : nat :=
  to_nat (group m (nat_of_ascii c)).

(** the checks of [datetime_date(year, month, day)] and of the [datetime]
    constructor *)
Definition valid (m : match_obj) : bool :=
  let y := field m "Y" in
  let mo := field m "m" in
  let d := field m "d" in
  (1 <=? y) && (1 <=? mo) && (mo <=? 12) && (1 <=? d) && (d <=? days_in_month y mo)
  && (field m "H" <=? 23) && (field m "M" <=? 59) && (field m "S" <=? 59).

Definition parses (s : str) (fmt : string) : bool :=
  match re_match (pattern (str_of fmt)) s with
  | Some m => (m_end m =? length s) && valid m
  | None => false
  end.

(** [datetime.strptime(v, fmt)], as far as raising goes *)
Definition call (v : pyval) (fmt : string) : res unit :=
  match v with
  | PStr s => if parses s fmt then Ok tt else Raise ValueError
  | _ => Raise TypeError
  end.

End Strptime.

(** ** Value Typer: [detect_value_type] *)

Definition date_patterns : list string :=
  [ "%Y-%m-%d"; "%d/%m/%Y"; "%Y/%m/%d"; "%d-%m-%Y";
    "%Y-%m-%d %H:%M:%S"; "%d/%m/%Y %H:%M:%S" ].

(** the [for pattern in date_patterns] loop with its [try]/[except] *)
Fixpoint try_date_patterns (value : pyval) (patterns : list string) : res str :=
  match patterns with
  | [] => Ok (str_of "text")
  | pattern :: more =>
      try_except (_ <- Strptime.call value pattern ;; Ok (str_of "date"))
                 (only [ValueError])
                 (try_date_patterns value more)
  end.

Definition detect_value_type (value : pyval) : res str :=
  match value with
  | PNone => Ok (str_of "null")
  | _ =>
      try_except (_ <- Float.call value ;; Ok (str_of "number"))
                 (only [ValueError])
                 (try_date_patterns value date_patterns)
  end.

(** ** [str(...)]

    [str(v)], and [{v}] inside an f-string, as far as raising goes.  The
    conversion of an [int] of more than 4300 digits to text is refused with
    a [ValueError] (the limit [sys.int_max_str_digits] of the interpreter),
    also when the [int] sits in a list or in a dict, whose [repr] prints
    the members.  The program's [logging.debug] calls format their
    arguments in an f-string before anything is logged, so this is where a
    value the program only passes on can make it raise. *)

Definition int_max_str_digits : Z := 4300.

Definition int_prints (z : Z) : bool :=
  (Z.abs z <? 10 ^ int_max_str_digits)%Z.

Fixpoint str_call (v : pyval) : res unit :=
  match v with
  | PInt z => if int_prints z then Ok tt else Raise ValueError
  | PList l => fold_right (fun x r => _ <- str_call x ;; r) (Ok tt) l
  | PDict d => fold_right (fun kv r => _ <- str_call (snd kv) ;; r) (Ok tt) d
  | PNone | PBool _ | PFloat _ | PStr _ => Ok tt
  end.

(** ** Value Formatter and Reconstructor *)

Section Reconstructor.

(** [repr] of a float, a list or a dict, which is what [str()] and an
    f-string print for them. *)
Variable py_repr : pyval -> str.

(** the text of [str(v)], and of [{v}] inside an f-string; the program
    comes here only with values that the [logging.debug] line in front has
    printed already, see [str_call] *)
Definition py_str (v : pyval) : str :=
  match v with
  | PStr s => s
  | PNone => str_of "None"
  | PBool true => str_of "True"
  | PBool false => str_of "False"
  | PInt z => Z_to_str z
  | PFloat _ | PList _ | PDict _ => py_repr v
  end.

(** ["'" in value] *)
Definition quote_in (value : pyval) : res bool :=
  match value with
  | PStr s => Ok (Py.contains [squote] s)
  | PList l => Ok (existsb (fun x => pystr_eqb x "'") l)
  | PDict d => Ok (existsb (fun kv => str_eqb (fst kv) [squote]) d)
  | PNone | PBool _ | PInt _ | PFloat _ => Raise TypeError
  end.

Definition quoted (s : str) : str := squote :: s ++ [squote].

Definition has_to_date (value : pyval) : bool :=
  match value with
  | PStr s => Py.contains (str_of "to_date(") (Py.lower s)
  | _ => false
  end.

Definition format_value (value value_type : pyval) : res pyval :=
  match value with
  | PNone => Ok (PStr (str_of "NULL"))
  | _ =>
      (* logging.debug(f"Formatando valor: {value} (tipo: {value_type})") *)
      _ <- str_call value ;;
      _ <- str_call value_type ;;
      if has_to_date value then Ok value
      else if pystr_eqb value_type "number" then
        if pystr_eqb value "" then Ok (PStr (str_of "NULL"))
        else try_except (_ <- Float.call value ;; Ok (PStr (py_str value)))
                        (only [ValueError; TypeError])
                        (Ok (PStr (quoted (py_str value))))
      else if pystr_eqb value_type "date" then
        if pystr_eqb value "" then Ok (PStr (str_of "NULL"))
        else
          q <- quote_in value ;;
          if negb q then Ok (PStr (quoted (py_str value))) else Ok value
      else
        let value := match value with
                     | PStr s => PStr (Py.replace [squote] [squote; squote] s)
                     | _ => value
                     end in
        Ok (PStr (quoted (py_str value)))
  end.

(** [operator.upper()] *)
Definition upper_of (v : pyval) : res str :=
  match v with
  | PStr s => Ok (Py.upper s)
  | _ => Raise AttributeError
  end.

(** [', '.join(values)] *)
Definition join_values (sep : str) (values : list pyval) : res str :=
  parts <- mapM (fun v => match v with
                          | PStr s => Ok s
                          | _ => Raise TypeError
                          end) values ;;
  Ok (Py.join sep parts).

Definition one_of (s : str) (l : list string) : bool :=
  existsb (fun x => str_eqb s (str_of x)) l.

(** the body of the loop of [construct_where_clause]: the text one
    condition contributes *)
Definition where_part (condition : pyval) : res str :=
  match condition with
  | PDict d =>
      let field := Dict.get_default d (str_of "field") (PStr []) in
      let operator := Dict.get_default d (str_of "operator") (PStr []) in
      let value := Dict.get_default d (str_of "value") PNone in
      let value_type := Dict.get_default d (str_of "type") (PStr (str_of "text")) in
      let is_function := Dict.get_default d (str_of "is_function") (PBool false) in
      let head := py_str field ++ str_of " " ++ py_str operator in
      (* logging.debug(f"... campo={field}, operador={operator},
         valor={value}, tipo={value_type}") *)
      _ <- str_call field ;;
      _ <- str_call operator ;;
      _ <- str_call value ;;
      _ <- str_call value_type ;;
      op <- upper_of operator ;;
      if one_of op ["IS NULL"; "IS NOT NULL"] then Ok head
      else
        match one_of op ["BETWEEN"; "NOT BETWEEN"], value with
        | true, PList [v0; v1] =>
            if truthy is_function then
              Ok (head ++ str_of " " ++ py_str v0 ++ str_of " AND " ++ py_str v1)
            else
              f0 <- format_value v0 value_type ;;
              f1 <- format_value v1 value_type ;;
              Ok (head ++ str_of " " ++ py_str f0 ++ str_of " AND " ++ py_str f1)
        | _, _ =>
            match one_of op ["IN"; "NOT IN"], value with
            | true, PList vs =>
                formatted <- mapM (fun v => format_value v value_type) vs ;;
                joined <- join_values (str_of ", ") formatted ;;
                Ok (head ++ str_of " (" ++ joined ++ str_of ")")
            | _, _ =>
                formatted <- format_value value value_type ;;
                Ok (head ++ str_of " " ++ py_str formatted)
            end
        end
  | _ => Raise AttributeError
  end.

Definition construct_where_clause (conditions : list pyval) : res str :=
  where_parts <- mapM where_part conditions ;;
  Ok (Py.join (str_of " AND ") where_parts).

End Reconstructor.

(** ** Condition Matcher: [parse_condition] *)

Module Patterns.

Import Re.

Definition ws : regex := Plus true space.     (* \s+ *)
Definition ows : regex := Star true space.    (* \s* *)

(** one call "to_date\s*\(\s*([^,\)]+)\s*,\s*\'([^\']+)\'\s*\)" of the idiom, with
    groups [g] and [g + 1] *)
Definition to_date_call (g : nat) : regex :=
  seqs [ lit_ci "to_date"; ows; chr "("; ows;
         Grp g (Plus true (none_of ",)")); ows; chr ","; ows;
         chr "'"; Grp (S g) (Plus true (none_of "'")); chr "'"; ows; chr ")" ].

(** "([^\s]+)\s+(?:NOT\s+)?BETWEEN\s+" call "\s+AND\s+" call, compiled with
    [re.IGNORECASE] *)
Definition to_date_pattern : regex :=
  seqs [ Grp 1 (Plus true not_space); ws;
         Opt (Seq (lit_ci "NOT") ws);
         lit_ci "BETWEEN"; ws; to_date_call 2;
         ws; lit_ci "AND"; ws; to_date_call 4 ].

(** "([^\s]+)\s+(?:NOT\s+)?BETWEEN\s+(.*?)\s+AND\s+(.*)" *)
Definition between_pattern : regex :=
  seqs [ Grp 1 (Plus true not_space); ws;
         Opt (Seq (lit "NOT") ws);
         lit "BETWEEN"; ws; Grp 2 (Star false dot);
         ws; lit "AND"; ws; Grp 3 (Star true dot) ].

(** "([^\s]+)\s+(?:NOT\s+)?IN\s*\((.*)\)" *)
Definition in_pattern : regex :=
  seqs [ Grp 1 (Plus true not_space); ws;
         Opt (Seq (lit "NOT") ws);
         lit "IN"; ows; chr "("; Grp 2 (Star true dot); chr ")" ].

(** "([^\s]+)\s+IS\s+(?:NOT\s+)?NULL" *)
Definition null_pattern : regex :=
  seqs [ Grp 1 (Plus true not_space); ws; lit "IS"; ws;
         Opt (Seq (lit "NOT") ws); lit "NULL" ].

(** "([^\s]+)\s+(=|!=|<>|>|<|>=|<=|LIKE|NOT\s+LIKE)\s+(.*)", compiled with
    [re.IGNORECASE] *)
Definition operator_pattern : regex :=
  seqs [ Grp 1 (Plus true not_space); ws;
         Grp 2 (alts [ lit_ci "="; lit_ci "!="; lit_ci "<>"; lit_ci ">";
                       lit_ci "<"; lit_ci ">="; lit_ci "<="; lit_ci "LIKE";
                       seqs [lit_ci "NOT"; ws; lit_ci "LIKE"] ]);
         ws; Grp 3 (Star true dot) ].

(** "\sAND\s" and "\sOR\s", compiled with [re.IGNORECASE] *)
Definition and_pattern : regex := seqs [space; lit_ci "AND"; space].
Definition or_pattern : regex := seqs [space; lit_ci "OR"; space].

(** "^\s*WHERE\s+", compiled with [re.IGNORECASE] *)
Definition leading_where : regex := seqs [Bol; ows; lit_ci "WHERE"; ws].

(** "(?i)(.*)\s+WHERE\s+(.*)" with [re.DOTALL] *)
Definition where_pattern : regex :=
  seqs [ Grp 1 (Star true dot_all); ws; lit_ci "WHERE"; ws;
         Grp 2 (Star true dot_all) ].

(** "(?i)(.*\s+WHERE\s+).*?(\s+GROUP BY.*|\s+ORDER BY.*|\s+HAVING.*|\s+LIMIT.*|;|$)" *)
Definition fallback_pattern : regex :=
  seqs [ Grp 1 (seqs [Star true dot; ws; lit_ci "WHERE"; ws]);
         Star false dot;
         Grp 2 (alts [ seqs [ws; lit_ci "GROUP BY"; Star true dot];
                       seqs [ws; lit_ci "ORDER BY"; Star true dot];
                       seqs [ws; lit_ci "HAVING"; Star true dot];
                       seqs [ws; lit_ci "LIMIT"; Star true dot];
                       chr ";"; Eol ]) ].

(** "(?i)(.*\s+WHERE\s+).*?($)" *)
Definition fallback_pattern_end : regex :=
  seqs [ Grp 1 (seqs [Star true dot; ws; lit_ci "WHERE"; ws]);
         Star false dot; Grp 2 Eol ].

End Patterns.

Definition a_tilde : ascii := ascii_of_nat 227.   (* a with tilde *)
Definition e_acute : ascii := ascii_of_nat 233.   (* e with acute accent *)

Definition nao : str := str_of "n" ++ [a_tilde] ++ str_of "o".

(** the table [operators] of [parse_condition] *)
Definition operators : list (str * str) :=
  [ (str_of "=", str_of "igual");
    (str_of "!=", str_of "diferente");
    (str_of "<>", str_of "diferente");
    (str_of ">", str_of "maior");
    (str_of "<", str_of "menor");
    (str_of ">=", str_of "maior ou igual");
    (str_of "<=", str_of "menor ou igual");
    (str_of "LIKE", str_of "cont" ++ [e_acute] ++ str_of "m");
    (str_of "NOT LIKE", nao ++ str_of " cont" ++ [e_acute] ++ str_of "m");
    (str_of "IN", str_of "em");
    (str_of "NOT IN", nao ++ str_of " em");
    (str_of "BETWEEN", str_of "entre");
    (str_of "NOT BETWEEN", nao ++ str_of " entre");
    (str_of "IS NULL", [e_acute] ++ str_of " nulo");
    (str_of "IS NOT NULL", nao ++ str_of " " ++ [e_acute] ++ str_of " nulo") ].

Fixpoint operators_get (table : list (str * str)) (k default : str) : str :=
  match table with
  | [] => default
  | (k', v) :: t => if str_eqb k' k then v else operators_get t k default
  end.

(** [s.strip()] and then [strip] of both kinds of quote *)
Definition unquote (s : str) : str :=
  Py.strip_chars [squote; dquote] (Py.strip s).

Definition has_not (s : str) : bool := Py.contains (str_of "NOT") (Py.upper s).

(** ['NOT' in text.upper().split('BETWEEN')[0]] *)
Definition not_before_between (text : str) : bool :=
  Py.contains (str_of "NOT") (hd [] (Py.split (str_of "BETWEEN") (Py.upper text))).

Definition id_of (n : nat) : pyval := PInt (Z.of_nat n).

(** the dictionary both [extract_conditions] and [parse_condition] build for
    the [to_date] idiom *)
Definition to_date_condition (text : str) (m : Re.match_obj) (condition_id : nat)
    : dict :=
  let field := Py.strip (Re.group m 1) in
  let start_param := Py.strip (Re.group m 2) in
  let start_format := Py.strip (Re.group m 3) in
  let end_param := Py.strip (Re.group m 4) in
  let end_format := Py.strip (Re.group m 5) in
  let is_not_between := not_before_between text in
  let call p f := str_of "to_date(" ++ p ++ str_of ", '" ++ f ++ str_of "')" in
  [ (str_of "id", id_of condition_id);
    (str_of "field", PStr field);
    (str_of "operator",
       PStr (str_of (if is_not_between then "NOT BETWEEN" else "BETWEEN")));
    (str_of "operator_desc",
       PStr (if is_not_between then nao ++ str_of " entre" else str_of "entre"));
    (str_of "value",
       PList [PStr (call start_param start_format); PStr (call end_param end_format)]);
    (str_of "original_value", PList [PStr start_param; PStr end_param]);
    (str_of "type", PStr (str_of "date"));
    (str_of "is_function", PBool true);
    (str_of "function_name", PStr (str_of "to_date"));
    (str_of "format", PStr start_format) ].

(** the handlers of the four generic patterns *)
Definition between_handler (condition_id : nat) (m : Re.match_obj) : res dict :=
  ty <- detect_value_type (PStr (unquote (Re.group m 2))) ;;
  Ok [ (str_of "id", id_of condition_id);
       (str_of "field", PStr (Py.strip (Re.group m 1)));
       (str_of "operator",
          PStr (str_of (if has_not (Re.m_text m) then "NOT BETWEEN" else "BETWEEN")));
       (str_of "value",
          PList [PStr (unquote (Re.group m 2)); PStr (unquote (Re.group m 3))]);
       (str_of "type", PStr ty) ].

Definition in_handler (condition_id : nat) (m : Re.match_obj) : res dict :=
  let members := Py.split (str_of ",") (Re.group m 2) in
  ty <- detect_value_type (PStr (unquote (hd [] members))) ;;
  Ok [ (str_of "id", id_of condition_id);
       (str_of "field", PStr (Py.strip (Re.group m 1)));
       (str_of "operator",
          PStr (str_of (if has_not (Re.m_text m) then "NOT IN" else "IN")));
       (str_of "value", PList (map (fun v => PStr (unquote v)) members));
       (str_of "type", PStr ty) ].

Definition null_handler (condition_id : nat) (m : Re.match_obj) : res dict :=
  Ok [ (str_of "id", id_of condition_id);
       (str_of "field", PStr (Py.strip (Re.group m 1)));
       (str_of "operator",
          PStr (str_of (if has_not (Re.m_text m) then "IS NOT NULL" else "IS NULL")));
       (str_of "value", PNone);
       (str_of "type", PStr (str_of "null")) ].

Definition operator_handler (condition_id : nat) (m : Re.match_obj) : res dict :=
  ty <- detect_value_type (PStr (unquote (Re.group m 3))) ;;
  Ok [ (str_of "id", id_of condition_id);
       (str_of "field", PStr (Py.strip (Re.group m 1)));
       (str_of "operator", PStr (Py.upper (Py.strip (Re.group m 2))));
       (str_of "value", PStr (unquote (Re.group m 3)));
       (str_of "type", PStr ty) ].

(** the list [patterns] of [parse_condition], in its order *)
Definition patterns (condition_id : nat)
    : list (Re.regex * (Re.match_obj -> res dict)) :=
  [ (Patterns.between_pattern, between_handler condition_id);
    (Patterns.in_pattern, in_handler condition_id);
    (Patterns.null_pattern, null_handler condition_id);
    (Patterns.operator_pattern, operator_handler condition_id) ].

(** [result['operator_desc'] = operators.get(result['operator'].upper(),
    result['operator'])] *)
Definition add_operator_desc (result : dict) : res dict :=
  let operator := Dict.get_default result (str_of "operator") PNone in
  match operator with
  | PStr op => Ok (Dict.set result (str_of "operator_desc")
                            (PStr (operators_get operators (Py.upper op) op)))
  | _ => Raise AttributeError
  end.

Fixpoint first_pattern (l : list (Re.regex * (Re.match_obj -> res dict)))
    (condition : str) : res (option dict) :=
  match l with
  | [] => Ok None
  | (pattern, handler) :: more =>
      match Re.re_match pattern condition with
      | Some m =>
          result <- handler m ;;
          result <- add_operator_desc result ;;
          Ok (Some result)
      | None => first_pattern more condition
      end
  end.

Definition parse_condition (condition : str) (condition_id : nat)
    : res (option dict) :=
  match Re.re_match Patterns.to_date_pattern condition with
  | Some m => Ok (Some (to_date_condition condition m condition_id))
  | None => first_pattern (patterns condition_id) condition
  end.

(** ** Clause Splitter: [extract_conditions] *)

Definition nonempty (s : str) : bool :=
  match s with
  | [] => false
  | _ :: _ => true
  end.

(** the two nested loops of the generic path, over the fragments in order;
    [condition_id] only moves on when a fragment was parsed *)
Fixpoint parse_fragments (fragments : list str) (condition_id : nat)
    : res (list dict) :=
  match fragments with
  | [] => Ok []
  | or_part :: more =>
      let condition := Py.strip or_part in
      if nonempty condition then
        parsed_condition <- parse_condition condition condition_id ;;
        match parsed_condition with
        | Some c =>
            conditions <- parse_fragments more (S condition_id) ;;
            Ok (c :: conditions)
        | None => parse_fragments more condition_id
        end
      else parse_fragments more condition_id
  end.

(** [for i, cond in enumerate(more_conditions): cond['id'] = i + 1], with
    [i] counted from [start] *)
Fixpoint renumber (start : nat) (more_conditions : list dict) : list dict :=
  match more_conditions with
  | [] => []
  | cond :: t => Dict.set cond (str_of "id") (id_of (start + 1)) :: renumber (S start) t
  end.

(** the connector that is cut from the front of what is left of the clause *)
Definition strip_connector (remaining_clause : str) : str :=
  let stripped := Py.strip remaining_clause in
  if Py.startswith stripped (str_of "AND ") then skipn 4 stripped
  else if Py.startswith stripped (str_of "OR ") then skipn 3 stripped
  else remaining_clause.

(** the fragments of the generic path: split on AND, each part on OR *)
Definition fragments_of (where_clause : str) : list str :=
  flat_map (Re.re_split Patterns.or_pattern)
           (Re.re_split Patterns.and_pattern where_clause).

(** [extract_conditions] calls itself on what is left of the clause; [fuel]
    bounds the depth of these calls, and running out of it is Python's
    [RecursionError].  [extract_conditions_terminates] shows that the fuel
    given below is never used up. *)
Fixpoint extract_conditions_fuel (fuel : nat) (where_clause full_query : str)
    : res (list dict) :=
  match fuel with
  | 0 => Raise RecursionError
  | S fuel' =>
      let where_clause := Re.re_sub Patterns.leading_where (fun _ => []) where_clause in
      match Re.re_search Patterns.to_date_pattern where_clause with
      | Some to_date_match =>
          let condition_text := Re.m_text to_date_match in
          let condition := to_date_condition condition_text to_date_match 0 in
          let remaining_clause := Py.replace condition_text [] where_clause in
          if nonempty (Py.strip remaining_clause) then
            more_conditions <-
              extract_conditions_fuel fuel' (strip_connector remaining_clause) full_query ;;
            Ok (condition :: renumber 0 more_conditions)
          else Ok [condition]
      | None => parse_fragments (fragments_of where_clause) 0
      end
  end.

Definition extract_conditions (where_clause full_query : str) : res (list dict) :=
  extract_conditions_fuel (S (length where_clause)) where_clause full_query.

(** ** Clause Locator and the two entry points *)

(** What [sqlparse] hands back: leaves carrying their text, and groups of
    tokens, of which some are [Where] groups. *)
#[warnings="-register-all"]
Inductive token : Type :=
| Leaf (value : str)
| Group (is_where : bool) (tokens : list token).

(** [str(token)] *)
Fixpoint token_str (t : token) : str :=
  match t with
  | Leaf value => value
  | Group _ tokens => concat (map token_str tokens)
  end.

Fixpoint find_where (t : token) : list token :=
  match t with
  | Leaf _ => []
  | Group is_where tokens =>
      (if is_where then [t] else []) ++ flat_map find_where tokens
  end.

Definition find_where_tokens (token_list : list token) : list token :=
  flat_map find_where token_list.

Definition tokens_of (t : token) : list token :=
  match t with
  | Leaf _ => []
  | Group _ tokens => tokens
  end.

(** a piece of a parsed replacement template of [re.sub] *)
Inductive template_part : Type :=
| TLit (s : str)
| TGroup (n : nat).

Section EntryPoints.

(** [sqlparse.format(query, strip_comments=..., ...)] and [sqlparse.parse];
    a statement is given by its list of tokens. *)
Variable sqlparse_format : bool -> str -> res str.
Variable sqlparse_parse : str -> res (list (list token)).

(** the parser of replacement templates of [re]: escapes and group
    references, for a pattern with the given number of groups *)
Variable parse_template : str -> nat -> res (list template_part).

Variable py_repr : pyval -> str.

Definition parse_sql_query (query : str) : res (list dict) :=
  try_except
    (formatted_query <- sqlparse_format false query ;;
     parsed <- sqlparse_parse formatted_query ;;
     match parsed with
     | [] => Ok []
     | stmt :: _ =>
         match find_where_tokens stmt with
         | [] => Ok []
         | where_token :: _ =>
             let where_clause := concat (map token_str (tl (tokens_of where_token))) in
             extract_conditions where_clause formatted_query
         end
     end)
    Exception
    (Ok []).

Definition expand (parts : list template_part) (m : Re.match_obj) : str :=
  concat (map (fun p => match p with
                        | TLit s => s
                        | TGroup n => Re.group m n
                        end) parts).

(** [re.sub(pattern, fr'\1{new_where_clause}\2', original_query)] *)
Definition sub_where (pattern : Re.regex) (new_where_clause original_query : str)
    : res str :=
  parts <- parse_template ([ascii_of_nat 92; "1"%char] ++ new_where_clause
                           ++ [ascii_of_nat 92; "2"%char]) 2 ;;
  Ok (Re.re_sub pattern (expand parts) original_query).

Definition primary_path (original_query : str) (modified_conditions : list pyval)
    : res str :=
  formatted_query <- sqlparse_format true original_query ;;
  match Re.re_search Patterns.where_pattern formatted_query with
  | None => Ok original_query
  | Some m =>
      new_where_clause <- construct_where_clause py_repr modified_conditions ;;
      let before_where := Re.group m 1 in
      Ok (before_where ++ str_of " WHERE " ++ new_where_clause)
  end.

Definition fallback_path (original_query : str) (modified_conditions : list pyval)
    : res str :=
  new_where_clause <- construct_where_clause py_repr modified_conditions ;;
  match Re.re_search Patterns.fallback_pattern original_query with
  | Some _ => sub_where Patterns.fallback_pattern new_where_clause original_query
  | None => sub_where Patterns.fallback_pattern_end new_where_clause original_query
  end.

Definition reconstruct_sql_query (original_query : str)
    (modified_conditions : list pyval) : res str :=
  try_except (primary_path original_query modified_conditions)
    Exception
    (try_except (fallback_path original_query modified_conditions)
       Exception
       (Ok original_query)).

End EntryPoints.

(** * Properties *)

(** ** Strings *)

Lemma str_eqb_eq (a b : str) : str_eqb a b = true <-> a = b.
Proof.
  unfold str_eqb. destruct (list_eq_dec ascii_dec a b); split; congruence.
Qed.

Lemma str_eqb_refl (a : str) : str_eqb a a = true.
Proof. now apply str_eqb_eq. Qed.

Lemma str_eqb_neq (a b : str) : a <> b -> str_eqb a b = false.
Proof.
  intros H. destruct (str_eqb a b) eqn:E; [|reflexivity].
  apply str_eqb_eq in E. contradiction.
Qed.

Lemma startswith_app (p s : str) : Py.startswith (p ++ s) p = true.
Proof.
  induction p as [|a p IH]; simpl; [reflexivity|].
  now rewrite Ascii.eqb_refl, IH.
Qed.

Lemma startswith_prefix (p s : str) :
  Py.startswith s p = true -> exists t, s = p ++ t.
Proof.
  revert s. induction p as [|a p IH]; intros s H.
  - now exists s.
  - destruct s as [|b s]; simpl in H; [discriminate|].
    apply andb_true_iff in H. destruct H as [Hab Hs].
    apply Ascii.eqb_eq in Hab. subst b.
    destruct (IH _ Hs) as [t ->]. now exists t.
Qed.

Lemma contains_startswith (sub s : str) :
  Py.startswith s sub = true -> Py.contains sub s = true.
Proof. intros H. destruct s; simpl; now rewrite H. Qed.

Lemma contains_app (sub a b : str) : Py.contains sub (a ++ sub ++ b) = true.
Proof.
  induction a as [|c a IH]; simpl.
  - apply contains_startswith, startswith_app.
  - rewrite IH. apply orb_true_r.
Qed.

Lemma lstrip_by_length (p : ascii -> bool) (s : str) :
  length (Py.lstrip_by p s) <= length s.
Proof.
  induction s as [|c s IH]; simpl; [lia|].
  destruct (p c); simpl; lia.
Qed.

Lemma strip_by_length (p : ascii -> bool) (s : str) :
  length (Py.strip_by p s) <= length s.
Proof.
  unfold Py.strip_by, Py.rstrip_by. rewrite length_rev.
  etransitivity; [apply lstrip_by_length|]. rewrite length_rev.
  apply lstrip_by_length.
Qed.

Lemma replace_fuel_length (n : nat) (old s : str) :
  length (Py.replace_fuel n old [] s) <= length s.
Proof.
  revert s. induction n as [|n IH]; intros s; simpl; [lia|].
  destruct s as [|c t]; [simpl; lia|].
  destruct (Py.startswith (c :: t) old).
  - simpl app. etransitivity; [apply IH|]. rewrite length_skipn. lia.
  - simpl. specialize (IH t). lia.
Qed.

(** Removing a non-empty text that occurs makes the string shorter. *)
Lemma replace_shrinks (old s : str) :
  old <> [] -> Py.contains old s = true ->
  length (Py.replace old [] s) < length s.
Proof.
  intros Hne Hin. unfold Py.replace.
  destruct old as [|o old']; [congruence|]. clear Hne.
  remember (o :: old') as old eqn:Eold.
  assert (Hlen : 0 < length old) by (subst; simpl; lia).
  assert (G : forall n t, length t <= n -> Py.contains old t = true ->
                          length (Py.replace_fuel n old [] t) < length t).
  { induction n as [|n IH]; intros t Hn Hc.
    - destruct t; simpl in Hn; [|lia]. subst old. simpl in Hc. discriminate.
    - destruct t as [|c t].
      + subst old. simpl in Hc. discriminate.
      + cbn [Py.replace_fuel]. destruct (Py.startswith (c :: t) old) eqn:E.
        * simpl app.
          apply Nat.le_lt_trans with (length (skipn (length old) (c :: t))).
          { apply replace_fuel_length. }
          rewrite length_skipn. change (length (c :: t)) with (S (length t)). lia.
        * simpl. apply -> Nat.succ_lt_mono. apply IH; [simpl in Hn; lia|].
          cbn [Py.contains] in Hc. rewrite E in Hc. exact Hc. }
  apply G; [lia|exact Hin].
Qed.

(** ** The matcher

    Whatever the continuation receives lies ahead of where the matcher
    started: the subject is only ever consumed from the left, and a pattern
    consumes at least [min_len] characters. *)

Module ReFacts.

Import Re.

Fixpoint min_len (r : regex) : nat :=
  match r with
  | Eps | Bol | Eol | Star _ _ => 0
  | Chr _ => 1
  | Seq a b => min_len a + min_len b
  | Alt a b => Nat.min (min_len a) (min_len b)
  | Grp _ a => min_len a
  end.

(** [st1] is [st] after the text [w] was consumed *)
Definition reaches (st : mstate) (w : str) (st1 : mstate) : Prop :=
  rest st = w ++ rest st1 /\ pos st1 = pos st + length w.

Definition consumes (body : mstate -> cont -> option mstate) (n : nat) : Prop :=
  forall st k x, body st k = Some x ->
    exists st1 w, reaches st w st1 /\ n <= length w /\ k st1 = Some x.

Lemma reaches_refl (st : mstate) : reaches st [] st.
Proof. split; simpl; [reflexivity|lia]. Qed.

Lemma reaches_trans (st st1 st2 : mstate) (w1 w2 : str) :
  reaches st w1 st1 -> reaches st1 w2 st2 -> reaches st (w1 ++ w2) st2.
Proof.
  intros [H1 P1] [H2 P2]. split.
  - now rewrite H1, H2, app_assoc.
  - rewrite length_app. lia.
Qed.

Lemma or_else_some (a : option mstate) (b : unit -> option mstate) (x : mstate) :
  or_else a b = Some x -> a = Some x \/ (a = None /\ b tt = Some x).
Proof. destruct a; simpl; intros H; [left; exact H | right; split; [reflexivity|exact H]]. Qed.

Lemma star_loop_consumes (g : bool) (body : mstate -> cont -> option mstate)
    (fuel : nat) :
  consumes body 0 -> consumes (star_loop g body fuel) 0.
Proof.
  intros Hbody. induction fuel as [|n IH]; intros st k x H.
  - exists st, []. split; [apply reaches_refl|]. split; [simpl; lia|exact H].
  - cbn [star_loop] in H.
    assert (Hagain :
      body st (fun st' => star_loop g body n st' k) = Some x ->
      exists st1 w, reaches st w st1 /\ 0 <= length w /\ k st1 = Some x).
    { intros Hb. destruct (Hbody _ _ _ Hb) as (st1 & w1 & R1 & _ & K1).
      destruct (IH _ _ _ K1) as (st2 & w2 & R2 & _ & K2).
      exists st2, (w1 ++ w2). split; [eapply reaches_trans; eassumption|].
      split; [lia|exact K2]. }
    assert (Hstop : k st = Some x ->
      exists st1 w, reaches st w st1 /\ 0 <= length w /\ k st1 = Some x).
    { intros Hk. exists st, []. split; [apply reaches_refl|].
      split; [simpl; lia|exact Hk]. }
    destruct g; apply or_else_some in H; destruct H as [H|[_ H]]; auto.
Qed.

Lemma exec_consumes (r : regex) : consumes (exec r) (min_len r).
Proof.
  induction r as [|p|a IHa b IHb|a IHa b IHb|g a IHa|n a IHa| |];
    intros st k x H; cbn [exec min_len] in *.
  - exists st, []. split; [apply reaches_refl|]. split; [simpl; lia|exact H].
  - destruct (rest st) as [|c t] eqn:E; [discriminate|].
    destruct (p c); [|discriminate].
    exists (consume c t st), [c]. split.
    + split; simpl; [exact E|lia].
    + split; [simpl; lia|exact H].
  - destruct (IHa _ _ _ H) as (st1 & w1 & R1 & L1 & K1).
    destruct (IHb _ _ _ K1) as (st2 & w2 & R2 & L2 & K2).
    exists st2, (w1 ++ w2). split; [eapply reaches_trans; eassumption|].
    split; [rewrite length_app; lia|exact K2].
  - apply or_else_some in H. destruct H as [H|[_ H]].
    + destruct (IHa _ _ _ H) as (st1 & w1 & R1 & L1 & K1).
      exists st1, w1. repeat split; try apply R1; [lia|exact K1].
    + destruct (IHb _ _ _ H) as (st1 & w1 & R1 & L1 & K1).
      exists st1, w1. repeat split; try apply R1; [lia|exact K1].
  - apply (star_loop_consumes g (length (rest st))) in H.
    + exact H.
    + intros st' k' x' H'. destruct (IHa _ _ _ H') as (st1 & w1 & R1 & _ & K1).
      exists st1, w1. split; [exact R1|]. split; [lia|exact K1].
  - destruct (IHa _ _ _ H) as (st1 & w1 & R1 & L1 & K1).
    unfold close_group in K1. destruct (opened st1) as [|text outer]; [discriminate|].
    eexists _, w1. split; [|split; [exact L1|exact K1]]. exact R1.
  - destruct (pos st =? 0); [|discriminate].
    exists st, []. split; [apply reaches_refl|]. split; [simpl; lia|exact H].
  - exists st, []. split; [apply reaches_refl|]. split; [simpl; lia|].
    destruct (rest st) as [|c [|c' t]]; try discriminate; [exact H|].
    destruct (Ascii.eqb c newline); [exact H|discriminate].
Qed.

(** What a successful attempt at position [i] says about the match. *)
Lemma match_at_inv (r : regex) (s : str) (i : nat) (ma : bool) (m : match_obj) :
  match_at r s i ma = Some m ->
  m_start m = i /\ m_end m = i + length (m_text m)
  /\ min_len r <= length (m_text m)
  /\ exists tail, skipn i s = m_text m ++ tail.
Proof.
  unfold match_at. intros H.
  destruct (exec r _ _) as [st|] eqn:E; [|discriminate].
  injection H as <-. cbn [m_start m_end m_text].
  destruct (exec_consumes _ _ _ E) as (st1 & w & [R P] & L & K).
  cbn [rest pos] in R, P.
  assert (st1 = st).
  { destruct (ma && (pos st1 =? i)); [discriminate|congruence]. }
  subst st1. rewrite P, R.
  replace (i + length w - i) with (length w) by lia.
  rewrite firstn_app, Nat.sub_diag, firstn_all. simpl. rewrite app_nil_r.
  repeat split; try lia. now exists (rest st).
Qed.

Lemma search_loop_inv (r : regex) (s : str) (n i : nat) (ma : bool) (m : match_obj) :
  search_loop r s n i ma = Some m ->
  exists j ma', i <= j <= i + n /\ match_at r s j ma' = Some m.
Proof.
  revert i ma. induction n as [|n IH]; intros i ma H; cbn [search_loop] in H.
  - destruct (match_at r s i ma) eqn:E; [|discriminate].
    injection H as ->. exists i, ma. split; [lia|exact E].
  - destruct (match_at r s i ma) eqn:E.
    + injection H as ->. exists i, ma. split; [lia|exact E].
    + destruct (IH _ _ H) as (j & ma' & Hj & Hm). exists j, ma'. split; [lia|exact Hm].
Qed.

Lemma search_from_inv (r : regex) (s : str) (i : nat) (ma : bool) (m : match_obj) :
  search_from r s i ma = Some m ->
  i <= m_start m /\ m_start m <= m_end m /\ m_end m <= length s
  /\ min_len r <= length (m_text m)
  /\ m_end m = m_start m + length (m_text m)
  /\ exists tail, skipn (m_start m) s = m_text m ++ tail.
Proof.
  unfold search_from. intros H.
  destruct (i <=? length s) eqn:Hi; [|discriminate].
  apply Nat.leb_le in Hi.
  destruct (search_loop_inv _ _ _ _ _ H) as (j & ma' & Hj & Hm).
  destruct (match_at_inv _ _ _ _ Hm) as (Hs & He & Hl & tail & Ht).
  subst j. repeat split; try lia.
  - assert (length (skipn (m_start m) s) = length (m_text m) + length tail)
      by (rewrite Ht, length_app; reflexivity).
    rewrite length_skipn in H0. lia.
  - now exists tail.
Qed.

(** the text of a match found by [re.search] occurs in the subject *)
Lemma search_text_occurs (r : regex) (s : str) (m : match_obj) :
  re_search r s = Some m -> Py.contains (m_text m) s = true.
Proof.
  intros H. apply search_from_inv in H.
  destruct H as (_ & _ & _ & _ & _ & tail & Ht).
  rewrite <- (firstn_skipn (m_start m) s), Ht. apply contains_app.
Qed.

Lemma search_text_length (r : regex) (s : str) (m : match_obj) :
  re_search r s = Some m -> min_len r <= length (m_text m).
Proof. intros H. apply search_from_inv in H. tauto. Qed.

(** The matches a scan visits lie one after the other inside the subject. *)
Inductive chain (s : str) : nat -> list match_obj -> Prop :=
| chain_nil (i : nat) : i <= length s -> chain s i []
| chain_cons (i : nat) (m : match_obj) (ms : list match_obj) :
    i <= m_start m -> m_start m <= m_end m -> m_end m <= length s ->
    chain s (m_end m) ms -> chain s i (m :: ms).

Lemma matches_loop_chain (r : regex) (s : str) (fuel i : nat) (ma : bool) :
  i <= length s -> chain s i (matches_loop r s fuel i ma).
Proof.
  revert i ma. induction fuel as [|n IH]; intros i ma Hi; cbn [matches_loop].
  - now constructor.
  - destruct (search_from r s i ma) as [m|] eqn:E; [|now constructor].
    destruct (search_from_inv _ _ _ _ E) as (H1 & H2 & H3 & _).
    constructor; try assumption. now apply IH.
Qed.

Lemma sub_at_erase_length (s : str) (i : nat) (ms : list match_obj) :
  chain s i ms -> length (sub_at (fun _ => []) s i ms) <= length s - i.
Proof.
  induction 1 as [i Hi|i m ms H1 H2 H3 Hc IH]; cbn [sub_at].
  - rewrite length_skipn. lia.
  - rewrite !length_app, length_firstn, length_skipn. simpl. lia.
Qed.

(** [re.sub(pattern, '', s)] is never longer than [s] *)
Lemma re_sub_erase_length (r : regex) (s : str) :
  length (re_sub r (fun _ => []) s) <= length s.
Proof.
  unfold re_sub, matches.
  etransitivity; [apply sub_at_erase_length, matches_loop_chain; lia|lia].
Qed.

End ReFacts.

(** ** The Value Typer never raises on a string *)

(** The classification the source computes with its [try]/[except] ladder,
    as one decision. *)
Definition classify (s : str) : string :=
  if Float.literal s then "number"
  else if existsb (Strptime.parses s) date_patterns then "date"
  else "text".

Lemma try_date_patterns_str (s : str) (l : list string) :
  try_date_patterns (PStr s) l
  = Ok (str_of (if existsb (Strptime.parses s) l then "date" else "text")).
Proof.
  induction l as [|p l IH]; cbn [try_date_patterns existsb]; [reflexivity|].
  unfold Strptime.call. destruct (Strptime.parses s p); [reflexivity|].
  cbn [bind try_except orb]. change (only [ValueError] ValueError) with true.
  exact IH.
Qed.

Lemma detect_value_type_str (s : str) :
  detect_value_type (PStr s) = Ok (str_of (classify s)).
Proof.
  unfold detect_value_type, classify, Float.call.
  destruct (Float.literal s); [reflexivity|].
  cbn [bind try_except]. change (only [ValueError] ValueError) with true. cbv iota.
  rewrite try_date_patterns_str. now destruct (existsb _ _).
Qed.

(** ** The Condition Matcher never raises, and keeps the id it was given *)

Definition get_id (d : dict) : option pyval := Dict.get d (str_of "id").

Lemma dict_get_set_other (d : dict) (k k' : str) (v : pyval) :
  k <> k' -> Dict.get (Dict.set d k v) k' = Dict.get d k'.
Proof.
  intros Hk. induction d as [|[k0 v0] d IH]; cbn [Dict.set Dict.get].
  - now rewrite str_eqb_neq.
  - destruct (str_eqb k0 k) eqn:E; cbn [Dict.get].
    + apply str_eqb_eq in E. subst k0. now rewrite !str_eqb_neq.
    + now rewrite IH.
Qed.

Lemma dict_get_set_same (d : dict) (k : str) (v : pyval) :
  Dict.get (Dict.set d k v) k = Some v.
Proof.
  induction d as [|[k0 v0] d IH]; cbn [Dict.set Dict.get].
  - now rewrite str_eqb_refl.
  - destruct (str_eqb k0 k) eqn:E; cbn [Dict.get].
    + now rewrite str_eqb_refl.
    + now rewrite E.
Qed.

Lemma first_pattern_patterns (condition : str) (condition_id : nat) :
  exists r, first_pattern (patterns condition_id) condition = Ok r
    /\ forall d, r = Some d -> get_id d = Some (id_of condition_id).
Proof.
  unfold patterns. cbn [first_pattern].
  assert (Hdesc : forall d op,
            Dict.get d (str_of "operator") = Some (PStr op) ->
            get_id d = Some (id_of condition_id) ->
            exists d', add_operator_desc d = Ok d'
                       /\ get_id d' = Some (id_of condition_id)).
  { intros d op Hop Hid. unfold add_operator_desc, Dict.get_default. rewrite Hop.
    eexists. split; [reflexivity|]. unfold get_id.
    rewrite dict_get_set_other; [exact Hid|]. vm_compute. discriminate. }
  destruct (Re.re_match Patterns.between_pattern condition) as [m|].
  { unfold between_handler. rewrite detect_value_type_str. cbn [bind].
    edestruct Hdesc as (d' & -> & Hd'); [reflexivity|reflexivity|].
    eexists. split; [reflexivity|]. now intros d [= <-]. }
  destruct (Re.re_match Patterns.in_pattern condition) as [m|].
  { unfold in_handler. rewrite detect_value_type_str. cbn [bind].
    edestruct Hdesc as (d' & -> & Hd'); [reflexivity|reflexivity|].
    eexists. split; [reflexivity|]. now intros d [= <-]. }
  destruct (Re.re_match Patterns.null_pattern condition) as [m|].
  { unfold null_handler. cbn [bind].
    edestruct Hdesc as (d' & -> & Hd'); [reflexivity|reflexivity|].
    eexists. split; [reflexivity|]. now intros d [= <-]. }
  destruct (Re.re_match Patterns.operator_pattern condition) as [m|].
  { unfold operator_handler. rewrite detect_value_type_str. cbn [bind].
    edestruct Hdesc as (d' & -> & Hd'); [reflexivity|reflexivity|].
    eexists. split; [reflexivity|]. now intros d [= <-]. }
  eexists. split; [reflexivity|]. discriminate.
Qed.

Lemma parse_condition_ok (condition : str) (condition_id : nat) :
  exists r, parse_condition condition condition_id = Ok r
    /\ forall d, r = Some d -> get_id d = Some (id_of condition_id).
Proof.
  unfold parse_condition.
  destruct (Re.re_match Patterns.to_date_pattern condition) as [m|].
  - eexists. split; [reflexivity|]. now intros d [= <-].
  - apply first_pattern_patterns.
Qed.

(** the ids [start], [start + 1], ... in list order *)
Definition ids_from (start : nat) (l : list dict) : Prop :=
  map get_id l = map (fun i => Some (id_of i)) (seq start (length l)).

Lemma parse_fragments_ok (fragments : list str) (condition_id : nat) :
  exists l, parse_fragments fragments condition_id = Ok l /\ ids_from condition_id l.
Proof.
  revert condition_id.
  induction fragments as [|f fragments IH]; intros condition_id; cbn [parse_fragments].
  - exists []. split; reflexivity.
  - destruct (nonempty (Py.strip f)); [|apply IH].
    destruct (parse_condition_ok (Py.strip f) condition_id) as (r & -> & Hid).
    cbn [bind]. destruct r as [d|]; [|apply IH].
    destruct (IH (S condition_id)) as (l & -> & Hl). cbn [bind].
    exists (d :: l). split; [reflexivity|].
    unfold ids_from in *. cbn [map length seq]. now rewrite (Hid d eq_refl), Hl.
Qed.

Lemma renumber_ids (start : nat) (l : list dict) :
  ids_from (S start) (renumber start l).
Proof.
  revert start. induction l as [|d l IH]; intros start; [reflexivity|].
  unfold ids_from in *. cbn [renumber map length seq]. rewrite IH.
  unfold get_id at 1. rewrite dict_get_set_same. now rewrite Nat.add_1_r.
Qed.

Lemma renumber_length (start : nat) (l : list dict) :
  length (renumber start l) = length l.
Proof. revert start. induction l; intros; simpl; auto. Qed.

(** ** The recursion of the Clause Splitter ends *)

Lemma strip_connector_length (s : str) : length (strip_connector s) <= length s.
Proof.
  unfold strip_connector.
  pose proof (strip_by_length Py.isspace s) as H. fold (Py.strip s) in H.
  destruct (Py.startswith _ _); [rewrite length_skipn; lia|].
  destruct (Py.startswith _ _); [rewrite length_skipn; lia|lia].
Qed.

Lemma to_date_min_len : 0 < ReFacts.min_len Patterns.to_date_pattern.
Proof. vm_compute. lia. Qed.

Lemma remaining_shorter (where_clause : str) (m : Re.match_obj) :
  Re.re_search Patterns.to_date_pattern where_clause = Some m ->
  length (strip_connector (Py.replace (Re.m_text m) [] where_clause))
  < length where_clause.
Proof.
  intros H. eapply Nat.le_lt_trans; [apply strip_connector_length|].
  apply replace_shrinks.
  - pose proof (ReFacts.search_text_length _ _ H) as L.
    pose proof to_date_min_len. destruct (Re.m_text m); [simpl in L; lia|discriminate].
  - eapply ReFacts.search_text_occurs; eassumption.
Qed.

Lemma extract_conditions_fuel_ok (fuel : nat) (where_clause full_query : str) :
  length where_clause < fuel ->
  exists l, extract_conditions_fuel fuel where_clause full_query = Ok l
            /\ ids_from 0 l.
Proof.
  revert where_clause. induction fuel as [|n IH]; intros c Hlen; [lia|].
  cbn [extract_conditions_fuel].
  pose proof (ReFacts.re_sub_erase_length Patterns.leading_where c) as Hsub.
  set (c' := Re.re_sub Patterns.leading_where (fun _ => []) c) in *.
  destruct (Re.re_search Patterns.to_date_pattern c') as [m|] eqn:E.
  - destruct (nonempty _).
    + pose proof (remaining_shorter _ E) as Hrem.
      destruct (IH (strip_connector (Py.replace (Re.m_text m) [] c'))) as (l & -> & Hl);
        [lia|].
      cbn [bind]. eexists. split; [reflexivity|].
      unfold ids_from. cbn [map length seq].
      pose proof (renumber_ids 0 l) as Hr. unfold ids_from in Hr. now rewrite Hr.
    + eexists. split; reflexivity.
  - apply parse_fragments_ok.
Qed.

Lemma extract_conditions_fuel_stable (n n' : nat) (where_clause full_query : str) :
  length where_clause < n -> length where_clause < n' ->
  extract_conditions_fuel n where_clause full_query
  = extract_conditions_fuel n' where_clause full_query.
Proof.
  revert n' where_clause. induction n as [|n IH]; intros n' c Hn Hn'; [lia|].
  destruct n' as [|n']; [lia|]. cbn [extract_conditions_fuel].
  pose proof (ReFacts.re_sub_erase_length Patterns.leading_where c) as Hsub.
  set (c' := Re.re_sub Patterns.leading_where (fun _ => []) c) in *.
  destruct (Re.re_search Patterns.to_date_pattern c') as [m|] eqn:E; [|reflexivity].
  destruct (nonempty _); [|reflexivity].
  pose proof (remaining_shorter _ E) as Hrem.
  rewrite (IH n'); [reflexivity|lia|lia].
Qed.

(** [extract_conditions] returns: the fuel it is given is enough. *)
Lemma extract_conditions_terminates (where_clause full_query : str) :
  exists l, extract_conditions where_clause full_query = Ok l /\ ids_from 0 l.
Proof. apply extract_conditions_fuel_ok. lia. Qed.

(** The body of [extract_conditions], with the recursive call spelled as a
    call of [extract_conditions] itself. *)
Lemma extract_conditions_unfold (where_clause full_query : str) :
  extract_conditions where_clause full_query =
  let where_clause := Re.re_sub Patterns.leading_where (fun _ => []) where_clause in
  match Re.re_search Patterns.to_date_pattern where_clause with
  | Some to_date_match =>
      let condition_text := Re.m_text to_date_match in
      let condition := to_date_condition condition_text to_date_match 0 in
      let remaining_clause := Py.replace condition_text [] where_clause in
      if nonempty (Py.strip remaining_clause) then
        more_conditions <-
          extract_conditions (strip_connector remaining_clause) full_query ;;
        Ok (condition :: renumber 0 more_conditions)
      else Ok [condition]
  | None => parse_fragments (fragments_of where_clause) 0
  end.
Proof.
  unfold extract_conditions at 1. cbn [extract_conditions_fuel]. cbv zeta.
  pose proof (ReFacts.re_sub_erase_length Patterns.leading_where where_clause) as Hsub.
  set (c' := Re.re_sub Patterns.leading_where (fun _ => []) where_clause) in *.
  destruct (Re.re_search Patterns.to_date_pattern c') as [m|] eqn:E; [|reflexivity].
  destruct (nonempty _); [|reflexivity].
  pose proof (remaining_shorter _ E) as Hrem.
  unfold extract_conditions.
  rewrite (extract_conditions_fuel_stable (n := length where_clause)
             (n' := S (length (strip_connector (Py.replace (Re.m_text m) [] c')))));
    [reflexivity|lia|lia].
Qed.

(** ** ParseConditions *)

(** What the Clause Locator of [parse_sql_query] comes back with. *)
Inductive located : Type :=
| Unparseable                         (* sqlparse raised *)
| NoWhere                             (* no statement, or no WHERE group *)
| Clause (where_clause formatted_query : str).

Section ParseConditions.

Variable sqlparse_format : bool -> str -> res str.
Variable sqlparse_parse : str -> res (list (list token)).

Definition locate (query : str) : located :=
  match sqlparse_format false query with
  | Raise _ => Unparseable
  | Ok formatted_query =>
      match sqlparse_parse formatted_query with
      | Raise _ => Unparseable
      | Ok [] => NoWhere
      | Ok (stmt :: _) =>
          match find_where_tokens stmt with
          | [] => NoWhere
          | where_token :: _ =>
              Clause (concat (map token_str (tl (tokens_of where_token))))
                     formatted_query
          end
      end
  end.

Lemma parse_sql_query_locate (query : str) :
  parse_sql_query sqlparse_format sqlparse_parse query =
  match locate query with
  | Clause where_clause formatted_query =>
      extract_conditions where_clause formatted_query
  | Unparseable | NoWhere => Ok []
  end.
Proof.
  unfold parse_sql_query, locate.
  destruct (sqlparse_format false query) as [f|e]; [|reflexivity]. cbn [bind].
  destruct (sqlparse_parse f) as [[|stmt stmts]|e]; try reflexivity. cbn [bind].
  destruct (find_where_tokens stmt) as [|w ws]; [reflexivity|].
  destruct (extract_conditions_terminates
              (concat (map token_str (tl (tokens_of w)))) f) as (l & -> & _).
  reflexivity.
Qed.

(** C2: for every input string [parse_sql_query] returns a list and raises
    nothing; when the statement has no WHERE clause, and when [sqlparse]
    cannot read the statement, the list is empty; otherwise it is what the
    Clause Splitter makes of the located clause. *)
Theorem parse_sql_query_never_raises (query : str) :
  exists conditions,
    parse_sql_query sqlparse_format sqlparse_parse query = Ok conditions
    /\ match locate query with
       | Unparseable | NoWhere => conditions = []
       | Clause where_clause formatted_query =>
           extract_conditions where_clause formatted_query = Ok conditions
       end.
Proof.
  rewrite parse_sql_query_locate. destruct (locate query) as [| |c f].
  - now exists [].
  - now exists [].
  - destruct (extract_conditions_terminates c f) as (l & Hl & _).
    exists l. now split.
Qed.

(** C9: the ids of the conditions [parse_sql_query] returns are 0, 1, 2, ...
    in list order, whichever path of the Clause Splitter produced them. *)
Theorem parse_sql_query_ids_contiguous (query : str) :
  exists conditions,
    parse_sql_query sqlparse_format sqlparse_parse query = Ok conditions
    /\ map get_id conditions
       = map (fun i => Some (PInt (Z.of_nat i))) (seq 0 (length conditions)).
Proof.
  rewrite parse_sql_query_locate. destruct (locate query) as [| |c f].
  - now exists [].
  - now exists [].
  - destruct (extract_conditions_terminates c f) as (l & Hl & Hids).
    exists l. split; [exact Hl|exact Hids].
Qed.

End ParseConditions.

(** ** Reconstruct *)

Section Reconstruct.

Variable sqlparse_format : bool -> str -> res str.
Variable parse_template : str -> nat -> res (list template_part).
Variable py_repr : pyval -> str.

Let primary := primary_path sqlparse_format py_repr.
Let fallback := fallback_path parse_template py_repr.

(** C3: for every statement and every list of conditions
    [reconstruct_sql_query] returns a string and raises nothing: the result
    of the primary path when it returns, else of the fallback path when that
    returns, else the original statement. *)
Theorem reconstruct_sql_query_never_raises
    (original_query : str) (modified_conditions : list pyval) :
  exists result,
    reconstruct_sql_query sqlparse_format parse_template py_repr
      original_query modified_conditions = Ok result
    /\ match primary original_query modified_conditions with
       | Ok s => result = s
       | Raise _ =>
           match fallback original_query modified_conditions with
           | Ok s => result = s
           | Raise _ => result = original_query
           end
       end.
Proof.
  unfold reconstruct_sql_query, primary, fallback.
  destruct (primary_path _ _ _ _) as [s|e]; cbn [try_except Exception].
  - now exists s.
  - destruct (fallback_path _ _ _ _) as [s|e']; cbn [try_except Exception].
    + now exists s.
    + now exists original_query.
Qed.

End Reconstruct.

(** ** Value Typer *)

(** The Value Typer in the words of the specification: absent, else a
    floating-point literal, else the first of six formats that matches,
    else text. *)
Definition spec_date_formats : list string :=
  let dates := ["%Y-%m-%d"; "%d/%m/%Y"; "%Y/%m/%d"; "%d-%m-%Y"] in
  dates ++ map (fun f => (f ++ " %H:%M:%S")%string) (firstn 2 dates).

Fixpoint first_matching (s : str) (formats : list string) : option string :=
  match formats with
  | [] => None
  | f :: more => if Strptime.parses s f then Some f else first_matching s more
  end.

Definition typer_spec (value : option str) : string :=
  match value with
  | None => "null"
  | Some s =>
      if Float.literal s then "number"
      else match first_matching s spec_date_formats with
           | Some _ => "date"
           | None => "text"
           end
  end.

Definition to_pyval (value : option str) : pyval :=
  match value with
  | None => PNone
  | Some s => PStr s
  end.

Lemma first_matching_existsb (s : str) (formats : list string) :
  existsb (Strptime.parses s) formats
  = match first_matching s formats with Some _ => true | None => false end.
Proof.
  induction formats as [|f l IH]; cbn [existsb first_matching]; [reflexivity|].
  now destruct (Strptime.parses s f).
Qed.

(** C6: [detect_value_type] never raises on an absent value or a string and
    decides in the order of the specification: null, number, date by the
    first of the six formats that matches, text; the formats of the source
    are the six the specification lists, in its order; and 20240101 is a
    number. *)
Theorem detect_value_type_order :
  (forall value : option str,
     detect_value_type (to_pyval value) = Ok (str_of (typer_spec value)))
  /\ date_patterns = spec_date_formats
  /\ detect_value_type (PStr (str_of "20240101")) = Ok (str_of "number").
Proof.
  split; [|split; reflexivity].
  intros [s|]; [|reflexivity]. cbn [to_pyval typer_spec].
  rewrite detect_value_type_str. unfold classify.
  destruct (Float.literal s); [reflexivity|].
  change spec_date_formats with date_patterns.
  rewrite first_matching_existsb. now destruct (first_matching s date_patterns).
Qed.

(** ** Value Formatter *)

(** a text value between single quotes, its own single quotes doubled *)
Definition sql_text (s : str) : str :=
  quoted (Py.replace [squote] [squote; squote] s).

(** one pass of the Typer and the Formatter over a value *)
Definition format_pass (py_repr : pyval -> str) (v : pyval) : res pyval :=
  ty <- detect_value_type v ;;
  format_value py_repr v (PStr ty).

Section Formatter.

Variable py_repr : pyval -> str.

(** C10: an empty string is rendered as NULL when the declared type is
    number or date, and only then: under any other type it is rendered as
    the quoted empty literal.  This holds for every declared type that is a
    string; a declared type that is no string is printed by the logging
    line first, and is a type other than number and date when that
    returns. *)
Theorem format_value_empty :
  (forall value_type : str,
     format_value py_repr (PStr []) (PStr value_type)
     = Ok (PStr (str_of (if pystr_eqb (PStr value_type) "number"
                            || pystr_eqb (PStr value_type) "date"
                         then "NULL" else "''"))))
  /\ (forall value_type : pyval,
        format_value py_repr (PStr []) value_type
        = (_ <- str_call value_type ;;
           Ok (PStr (str_of (if pystr_eqb value_type "number"
                                || pystr_eqb value_type "date"
                             then "NULL" else "''"))))).
Proof.
  assert (H : forall value_type : pyval,
            format_value py_repr (PStr []) value_type
            = (_ <- str_call value_type ;;
               Ok (PStr (str_of (if pystr_eqb value_type "number"
                                    || pystr_eqb value_type "date"
                                 then "NULL" else "''"))))).
  { intros value_type. unfold format_value.
    change (str_call (PStr [])) with (Ok tt). cbn [bind].
    destruct (str_call value_type); cbn [bind]; [|reflexivity].
    change (has_to_date (PStr [])) with false. cbv iota.
    destruct (pystr_eqb value_type "number"); [reflexivity|].
    destruct (pystr_eqb value_type "date"); reflexivity. }
  split; [|exact H].
  intros value_type. rewrite H. reflexivity.
Qed.

(** C7, as amended: a None value is rendered as NULL whatever the declared
    type; a text-typed string is rendered between single quotes with its
    single quotes doubled, unless it contains [to_date(] in some letter
    case, and then it is passed through as it is; O'Brien becomes
    'O''Brien', which the Typer classifies as text. *)
Theorem format_value_text :
  (forall value_type, format_value py_repr PNone value_type = Ok (PStr (str_of "NULL")))
  /\ (forall s,
        format_value py_repr (PStr s) (PStr (str_of "text"))
        = Ok (PStr (if has_to_date (PStr s) then s else sql_text s)))
  /\ format_value py_repr (PStr (str_of "O'Brien")) (PStr (str_of "text"))
     = Ok (PStr (str_of "'O''Brien'"))
  /\ detect_value_type (PStr (str_of "'O''Brien'")) = Ok (str_of "text").
Proof.
  split; [reflexivity|]. split; [|split; reflexivity].
  intros s. unfold format_value.
  destruct (has_to_date (PStr s)); [reflexivity|].
  change (pystr_eqb (PStr (str_of "text")) "number") with false.
  change (pystr_eqb (PStr (str_of "text")) "date") with false.
  reflexivity.
Qed.

Lemma literal_not_empty (s : str) : Float.literal s = true -> str_eqb s [] = false.
Proof. destruct s; [discriminate|reflexivity]. Qed.

Lemma format_pass_number (s : str) :
  Float.literal s = true -> format_pass py_repr (PStr s) = Ok (PStr s).
Proof.
  intros H. unfold format_pass. rewrite detect_value_type_str.
  unfold classify. rewrite H. cbn [bind]. unfold format_value.
  destruct (has_to_date (PStr s)); [reflexivity|].
  change (pystr_eqb (PStr (str_of "number")) "number") with true. cbv iota.
  change (pystr_eqb (PStr s) "") with (str_eqb s []).
  rewrite (literal_not_empty _ H). unfold Float.call. rewrite H. reflexivity.
Qed.

Lemma format_pass_to_date (s : str) :
  has_to_date (PStr s) = true -> format_pass py_repr (PStr s) = Ok (PStr s).
Proof.
  intros H. unfold format_pass. rewrite detect_value_type_str. cbn [bind].
  unfold format_value. now rewrite H.
Qed.

(** C8, as amended: for a string that the Typer classifies as a number, and
    for a string that contains [to_date(], one pass of Typer and Formatter
    returns the string itself, so a second pass changes nothing. *)
Theorem format_pass_idempotent (s : str) :
  Float.literal s = true \/ has_to_date (PStr s) = true ->
  format_pass py_repr (PStr s) = Ok (PStr s)
  /\ (v <- format_pass py_repr (PStr s) ;; format_pass py_repr v)
     = format_pass py_repr (PStr s).
Proof.
  intros H.
  assert (E : format_pass py_repr (PStr s) = Ok (PStr s))
    by (destruct H; [now apply format_pass_number|now apply format_pass_to_date]).
  split; [exact E|]. rewrite E. cbn [bind]. exact E.
Qed.

End Formatter.

(** ** Concrete runs *)

(** [sqlparse.format] leaves a one-line statement without comments as it
    is. *)
Definition format_unchanged (strip_comments : bool) (query : str) : res str :=
  Ok query.

Definition no_repr (v : pyval) : str := [].

Definition condition_of (field operator value value_type : string) : pyval :=
  PDict [ (str_of "field", PStr (str_of field));
          (str_of "operator", PStr (str_of operator));
          (str_of "value", PStr (str_of value));
          (str_of "type", PStr (str_of value_type)) ].

(** C4 (the code departs from the claim): with a second WHERE further to
    the right, here inside a subquery, the primary path cuts the statement
    at that last WHERE and not at the first one. *)
Theorem primary_path_cuts_at_last_where :
  primary_path format_unchanged no_repr
    (str_of "SELECT * FROM t WHERE a = 1 AND b IN (SELECT x FROM u WHERE y = 2)")
    [condition_of "a" "=" "5" "number"]
  = Ok (str_of "SELECT * FROM t WHERE a = 1 AND b IN (SELECT x FROM u WHERE a = 5").
Proof. vm_compute. reflexivity. Qed.

(** C7, the claim as it stands fails: a text-typed string that holds a
    [to_date(] call is not quoted. *)
Lemma format_value_text_not_always_quoted :
  ~ (forall (py_repr : pyval -> str) (s : str),
       format_value py_repr (PStr s) (PStr (str_of "text")) = Ok (PStr (sql_text s))).
Proof.
  intros H. specialize (H no_repr (str_of "to_date(x)")).
  vm_compute in H. discriminate H.
Qed.

(** C8, the claim as it stands fails: the text abc comes out of one pass as
    'abc' and out of the second as '''abc'''. *)
Lemma format_pass_not_idempotent :
  format_pass no_repr (PStr (str_of "abc")) = Ok (PStr (str_of "'abc'"))
  /\ (v <- format_pass no_repr (PStr (str_of "abc")) ;; format_pass no_repr v)
     = Ok (PStr (str_of "'''abc'''"))
  /\ (v <- format_pass no_repr (PStr (str_of "abc")) ;; format_pass no_repr v)
     <> format_pass no_repr (PStr (str_of "abc")).
Proof.
  split; [vm_compute; reflexivity|]. split; [vm_compute; reflexivity|].
  vm_compute. discriminate.
Qed.

Lemma format_pass_idempotent_witness :
  (Float.literal (str_of "42") = true \/ has_to_date (PStr (str_of "42")) = true)
  /\ format_pass no_repr (PStr (str_of "42")) = Ok (PStr (str_of "42"))
  /\ (v <- format_pass no_repr (PStr (str_of "42")) ;; format_pass no_repr v)
     = format_pass no_repr (PStr (str_of "42")).
Proof.
  assert (H : Float.literal (str_of "42") = true
              \/ has_to_date (PStr (str_of "42")) = true)
    by (left; vm_compute; reflexivity).
  split; [exact H|]. exact (format_pass_idempotent no_repr (str_of "42") H).
Defined.

(** ** Running the matcher over a subject with unknown parts *)

Module Run.

Import Re.

(** the class [p] stops in front of [tail] *)
Definition stops (p : ascii -> bool) (tail : str) : Prop :=
  match tail with
  | [] => True
  | c :: _ => p c = false
  end.

(** the state after the text [w] was consumed in front of [tail] *)
Definition fed (w : str) (n : nat) (tail : str) (os : list str)
    (cs : list (nat * str)) : mstate :=
  MState (n + length w) tail (map (app (rev w)) os) cs.

Lemma fed_nil (n : nat) (tail : str) (os : list str) (cs : list (nat * str)) :
  fed [] n tail os cs = MState n tail os cs.
Proof.
  unfold fed. cbn [length rev]. rewrite Nat.add_0_r. f_equal.
  rewrite <- (map_id os) at 2. apply map_ext. reflexivity.
Qed.

Lemma fed_cons (c : ascii) (w : str) (n : nat) (tail : str) (os : list str)
    (cs : list (nat * str)) :
  fed w (S n) tail (map (cons c) os) cs = fed (c :: w) n tail os cs.
Proof.
  unfold fed. cbn [length rev]. rewrite Nat.add_succ_comm. f_equal.
  rewrite map_map. apply map_ext. intros a. now rewrite <- app_assoc.
Qed.

Lemma exec_chr_stops (p : ascii -> bool) (n : nat) (tail : str) (os : list str)
    (cs : list (nat * str)) (k : cont) :
  stops p tail -> exec (Chr p) (MState n tail os cs) k = None.
Proof.
  intros H. cbn [exec rest]. destruct tail as [|c t]; [reflexivity|].
  simpl in H. now rewrite H.
Qed.

Lemma exec_chr_cons (p : ascii -> bool) (n : nat) (c : ascii) (t : str)
    (os : list str) (cs : list (nat * str)) (k : cont) :
  exec (Chr p) (MState n (c :: t) os cs) k
  = if p c then k (MState (S n) t (map (cons c) os) cs) else None.
Proof. reflexivity. Qed.

(** a greedy repetition of a class in front of something it cannot take *)
Lemma star_greedy_zero (p : ascii -> bool) (tail : str) (fuel n : nat)
    (os : list str) (cs : list (nat * str)) (k : cont) :
  stops p tail ->
  star_loop true (exec (Chr p)) fuel (MState n tail os cs) k
  = k (MState n tail os cs).
Proof.
  intros H. destruct fuel as [|fuel]; cbn [star_loop]; [reflexivity|].
  rewrite exec_chr_stops by exact H. reflexivity.
Qed.

(** A greedy repetition of a class over [w], which is all it can take:
    the continuation is first tried behind [w]. *)
Lemma star_greedy_first (p : ascii -> bool) (w tail : str) :
  forallb p w = true -> stops p tail ->
  forall fuel n os cs k x,
    length w <= fuel ->
    k (fed w n tail os cs) = Some x ->
    star_loop true (exec (Chr p)) fuel (MState n (w ++ tail) os cs) k = Some x.
Proof.
  intros Hw Hstop. induction w as [|c w IH]; intros fuel n os cs k x Hfuel Hk.
  - rewrite fed_nil in Hk. cbn [app]. now rewrite star_greedy_zero.
  - cbn [forallb] in Hw. apply andb_true_iff in Hw. destruct Hw as [Hc Hw].
    destruct fuel as [|fuel]; [simpl in Hfuel; lia|].
    cbn [star_loop app]. rewrite exec_chr_cons, Hc.
    rewrite (IH Hw fuel (S n) (map (cons c) os) cs k x); [reflexivity|simpl in Hfuel; lia|].
    now rewrite fed_cons.
Qed.

(** The same when the continuation fails wherever the repetition could
    stop early: the only outcome is the one behind [w]. *)
Lemma star_greedy_only (p : ascii -> bool) (w tail : str) :
  forallb p w = true -> stops p tail ->
  forall fuel n os cs k,
    length w <= fuel ->
    (forall i, i < length w ->
       k (fed (firstn i w) n (skipn i w ++ tail) os cs) = None) ->
    star_loop true (exec (Chr p)) fuel (MState n (w ++ tail) os cs) k
    = k (fed w n tail os cs).
Proof.
  intros Hw Hstop. induction w as [|c w IH]; intros fuel n os cs k Hfuel Hk.
  - rewrite fed_nil. cbn [app]. now rewrite star_greedy_zero.
  - cbn [forallb] in Hw. apply andb_true_iff in Hw. destruct Hw as [Hc Hw].
    destruct fuel as [|fuel]; [simpl in Hfuel; lia|].
    cbn [star_loop app]. rewrite exec_chr_cons, Hc.
    rewrite (IH Hw fuel (S n) (map (cons c) os) cs k); [|simpl in Hfuel; lia|].
    + rewrite fed_cons.
      destruct (k (fed (c :: w) n tail os cs)) eqn:E; [reflexivity|].
      simpl. specialize (Hk 0). cbn [firstn skipn app] in Hk. rewrite fed_nil in Hk.
      apply Hk. simpl. lia.
    + intros i Hi. specialize (Hk (S i)). cbn [firstn skipn] in Hk.
      rewrite fed_cons. apply Hk. simpl. lia.
Qed.

Definition no_space (c : ascii) : bool := negb (Py.isspace c).

Lemma stops_space_no_space (c : ascii) (t : str) :
  no_space c = true -> stops Py.isspace (c :: t).
Proof. unfold no_space, stops. now destruct (Py.isspace c). Qed.

(** "\s+" in front of a single blank followed by something else *)
Lemma exec_ws_single (n : nat) (tail : str) (os : list str)
    (cs : list (nat * str)) (k : cont) :
  stops Py.isspace tail ->
  exec Patterns.ws (MState n (" "%char :: tail) os cs) k
  = k (MState (S n) tail (map (cons " "%char) os) cs).
Proof.
  intros H. unfold Patterns.ws, Plus, space.
  change (exec (Seq ?a ?b) ?st ?k) with (exec a st (fun st' => exec b st' k)).
  rewrite exec_chr_cons. change (Py.isspace " "%char) with true. cbv iota.
  change (exec (Star true ?a) ?st ?k)
    with (star_loop true (exec a) (length (rest st)) st k).
  now rewrite star_greedy_zero.
Qed.

(** "\s+" fails in front of anything but white space *)
Lemma exec_ws_stops (n : nat) (tail : str) (os : list str)
    (cs : list (nat * str)) (k : cont) :
  stops Py.isspace tail -> exec Patterns.ws (MState n tail os cs) k = None.
Proof.
  intros H. unfold Patterns.ws, Plus, space.
  change (exec (Seq ?a ?b) ?st ?k) with (exec a st (fun st' => exec b st' k)).
  now apply exec_chr_stops.
Qed.

Lemma skipn_head_in (i : nat) (f : str) :
  i < length f -> exists d t, skipn i f = d :: t /\ In d f.
Proof.
  intros Hi. destruct (skipn i f) as [|d t] eqn:E.
  - apply (f_equal (@length ascii)) in E. rewrite length_skipn in E. simpl in E. lia.
  - exists d, t. split; [reflexivity|].
    rewrite <- (firstn_skipn i f), E. apply in_or_app. right. now left.
Qed.

(** Every pattern of the Condition Matcher opens with "([^\s]+)\s+": over
    a field without white space that a single blank follows, group 1 is the
    field and the rest of the pattern runs behind the blank. *)
Lemma field_prefix (R : regex) (f tail : str) (k : cont) :
  f <> [] -> forallb no_space f = true -> stops Py.isspace tail ->
  exec (Seq (Grp 1 (Plus true not_space)) (Seq Patterns.ws R))
       (MState 0 (f ++ " "%char :: tail) [] []) k
  = exec R (MState (S (length f)) tail [] [(1, f)]) k.
Proof.
  intros Hne Hf Htail. destruct f as [|c f]; [congruence|]. clear Hne.
  cbn [forallb] in Hf. apply andb_true_iff in Hf. destruct Hf as [Hc Hf].
  change (exec (Seq ?a ?b) ?st ?k) with (exec a st (fun st' => exec b st' k)).
  change (exec (Grp ?n ?a) ?st ?k) with (exec a (open_group st) (close_group n k)).
  unfold Plus, not_space, open_group. cbn [pos rest opened caps].
  change (exec (Seq ?a ?b) ?st ?k) with (exec a st (fun st' => exec b st' k)).
  cbn [app]. rewrite exec_chr_cons. fold (no_space c). rewrite Hc.
  change (exec (Star true ?a) ?st ?k)
    with (star_loop true (exec a) (length (rest st)) st k).
  cbn [rest map].
  rewrite (@star_greedy_only no_space f (" "%char :: tail) Hf).
  - unfold fed, close_group. cbn [opened map pos rest caps].
    rewrite rev_app_distr, rev_involutive. cbn [rev app Nat.add].
    change (exec (Seq ?a ?b) ?st ?k) with (exec a st (fun st' => exec b st' k)).
    rewrite exec_ws_single by exact Htail. reflexivity.
  - reflexivity.
  - rewrite length_app. lia.
  - intros i Hi. unfold fed, close_group. cbn [opened map pos rest caps].
    change (exec (Seq ?a ?b) ?st ?k) with (exec a st (fun st' => exec b st' k)).
    apply exec_ws_stops.
    destruct (skipn_head_in f Hi) as (d & t & -> & Hin).
    cbn [app]. apply stops_space_no_space.
    rewrite forallb_forall in Hf. now apply Hf.
Qed.

End Run.

(** ** The Condition Matcher on the supported shapes *)

Module Frag.

Import Re Run.

Definition comparison_ops : list string :=
  ["="; "!="; "<>"; ">"; "<"; ">="; "<="; "LIKE"; "NOT LIKE"].

(** [<field> <op> <value>] and [<field> IS [NOT] NULL], with single blanks *)
Definition cmp_fragment (f : str) (op : string) (v : str) : str :=
  f ++ " "%char :: str_of op ++ " "%char :: v.

Definition null_fragment (f : str) (negated : bool) : str :=
  f ++ " "%char :: str_of (if negated then "IS NOT NULL" else "IS NULL").

Definition field_ok (f : str) : Prop :=
  f <> [] /\ forallb no_space f = true.

Definition not_newline (c : ascii) : bool := negb (Ascii.eqb c newline).

(** a continuation that can only go on over white space *)
Definition wants_space (K : cont) : Prop :=
  forall st, stops Py.isspace (rest st) -> K st = None.

Ltac settle K HK :=
  repeat match goal with
  | |- context [K ?s] =>
      let E := fresh "E" in
      destruct (K s) eqn:E;
      [ try (rewrite HK in E by exact eq_refl; discriminate E) | ]
  end.

Ltac each_op Hop :=
  unfold comparison_ops in Hop; cbn [In] in Hop;
  repeat (destruct Hop as [<-|Hop]); [..|contradiction].

(** the alternation of operators, group 2 of the fifth pattern *)
Definition ops_regex : regex :=
  Grp 2 (alts [ lit_ci "="; lit_ci "!="; lit_ci "<>"; lit_ci ">";
                lit_ci "<"; lit_ci ">="; lit_ci "<="; lit_ci "LIKE";
                seqs [lit_ci "NOT"; Patterns.ws; lit_ci "LIKE"] ]).

Lemma exec_ops (op : string) (n : nat) (v : str)
    (cs : list (nat * str)) (K : cont) :
  In op comparison_ops -> wants_space K ->
  exec ops_regex (MState n (str_of op ++ " "%char :: v) [] cs) K
  = K (MState (length (str_of op) + n) (" "%char :: v) [] ((2, str_of op) :: cs)).
Proof.
  intros Hop HK. each_op Hop; lazy; settle K HK; reflexivity.
Qed.

Lemma wants_space_ws (R : regex) (k : cont) :
  wants_space (fun st => exec (Seq Patterns.ws R) st k).
Proof.
  intros [n tail os cs] H. cbn [rest] in H.
  change (exec (Seq ?a ?b) ?st ?k) with (exec a st (fun st' => exec b st' k)).
  now apply exec_ws_stops.
Qed.

(** "(.*)" at the end of a pattern takes a value without line break whole *)
Lemma exec_value_group (g n : nat) (v : str) (cs : list (nat * str)) (k : cont)
    (x : mstate) :
  forallb not_newline v = true ->
  k (MState (n + length v) [] [] ((g, v) :: cs)) = Some x ->
  exec (Grp g (Star true dot)) (MState n v [] cs) k = Some x.
Proof.
  intros Hv Hk.
  change (exec (Grp ?n ?a) ?st ?k) with (exec a (open_group st) (close_group n k)).
  unfold open_group, dot. cbn [pos rest opened caps].
  change (exec (Star true ?a) ?st ?k)
    with (star_loop true (exec a) (length (rest st)) st k).
  cbn [rest]. rewrite <- (app_nil_r v) at 2.
  apply (@star_greedy_first not_newline v [] Hv I); [lia|].
  unfold fed, close_group. cbn [opened map pos rest caps].
  now rewrite app_nil_r, rev_involutive.
Qed.

Ltac seq_step :=
  change (exec (Seq ?a ?b) ?st ?k) with (exec a st (fun st' => exec b st' k)).

Lemma firstn_whole (n : nat) (s : str) : n = length s -> firstn (n - 0) s = s.
Proof. intros ->. rewrite Nat.sub_0_r. apply firstn_all. Qed.

(** the fifth pattern on [<field> <op> <value>] *)
Lemma operator_match (f : str) (op : string) (v : str) :
  field_ok f -> In op comparison_ops ->
  stops Py.isspace v -> forallb not_newline v = true ->
  re_match Patterns.operator_pattern (cmp_fragment f op v)
  = Some (Match 0 (length (cmp_fragment f op v)) (cmp_fragment f op v)
                [(3, v); (2, str_of op); (1, f)]).
Proof.
  intros [Hne Hf] Hop Hv Hnl.
  unfold re_match, match_at, cmp_fragment. cbn [skipn].
  unfold Patterns.operator_pattern. cbn [seqs].
  rewrite field_prefix; [|exact Hne|exact Hf|each_op Hop; exact eq_refl].
  fold ops_regex. seq_step.
  rewrite exec_ops; [|exact Hop|apply wants_space_ws].
  seq_step. rewrite exec_ws_single by exact Hv. cbn [map].
  erewrite exec_value_group; [|exact Hnl|reflexivity].
  cbn [pos caps]. f_equal. f_equal.
  - rewrite length_app. cbn [length]. rewrite length_app. cbn [length]. lia.
  - apply firstn_whole.
    rewrite length_app. cbn [length]. rewrite length_app. cbn [length]. lia.
Qed.

Ltac run_prefix Hne Hf :=
  unfold re_match, match_at, cmp_fragment, null_fragment; cbn [skipn];
  match goal with |- context [exec ?p _ _] => unfold p end; cbn [seqs];
  rewrite field_prefix; [|exact Hne|exact Hf|try exact eq_refl].

(** the four patterns before it fail on [<field> <op> <value>] *)
Lemma earlier_patterns_fail (f : str) (op : string) (v : str) :
  field_ok f -> In op comparison_ops ->
  re_match Patterns.to_date_pattern (cmp_fragment f op v) = None
  /\ re_match Patterns.between_pattern (cmp_fragment f op v) = None
  /\ re_match Patterns.in_pattern (cmp_fragment f op v) = None
  /\ re_match Patterns.null_pattern (cmp_fragment f op v) = None.
Proof.
  intros [Hne Hf] Hop.
  repeat split; each_op Hop; run_prefix Hne Hf; lazy; reflexivity.
Qed.

(** [<field> IS [NOT] NULL]: the first three patterns fail and the fourth
    matches the whole fragment *)
Lemma null_match (f : str) (negated : bool) :
  field_ok f ->
  re_match Patterns.to_date_pattern (null_fragment f negated) = None
  /\ re_match Patterns.between_pattern (null_fragment f negated) = None
  /\ re_match Patterns.in_pattern (null_fragment f negated) = None
  /\ re_match Patterns.null_pattern (null_fragment f negated)
     = Some (Match 0 (length (null_fragment f negated)) (null_fragment f negated)
                   [(1, f)]).
Proof.
  intros [Hne Hf].
  repeat split; destruct negated; run_prefix Hne Hf; try (lazy; reflexivity).
  - match goal with |- context [exec ?R ?st ?k] =>
      replace (exec R st k) with (Some (MState (11 + S (length f)) [] [] [(1, f)]))
        by (lazy; reflexivity)
    end.
    cbn [pos caps]. f_equal. f_equal.
    + rewrite length_app. cbn [length str_of list_ascii_of_string]. lia.
    + apply firstn_whole. rewrite length_app. cbn [length str_of list_ascii_of_string]. lia.
  - match goal with |- context [exec ?R ?st ?k] =>
      replace (exec R st k) with (Some (MState (7 + S (length f)) [] [] [(1, f)]))
        by (lazy; reflexivity)
    end.
    cbn [pos caps]. f_equal. f_equal.
    + rewrite length_app. cbn [length str_of list_ascii_of_string]. lia.
    + apply firstn_whole. rewrite length_app. cbn [length str_of list_ascii_of_string]. lia.
Qed.

(** *** Stripping *)

Lemma lstrip_by_stops (p : ascii -> bool) (s : str) :
  stops p s -> Py.lstrip_by p s = s.
Proof. destruct s as [|c t]; simpl; [reflexivity|]. now intros ->. Qed.

Lemma strip_by_stops (p : ascii -> bool) (s : str) :
  stops p s -> stops p (rev s) -> Py.strip_by p s = s.
Proof.
  intros H1 H2. unfold Py.strip_by, Py.rstrip_by.
  rewrite (lstrip_by_stops _ _ H1), (lstrip_by_stops _ _ H2). apply rev_involutive.
Qed.

Lemma stops_all (p : ascii -> bool) (s : str) :
  (forall c, In c s -> p c = false) -> stops p s.
Proof. destruct s as [|c t]; simpl; [trivial|]. intros H. apply H. now left. Qed.

Lemma strip_field (f : str) : forallb no_space f = true -> Py.strip f = f.
Proof.
  intros Hf. rewrite forallb_forall in Hf.
  assert (H : forall c, In c f -> Py.isspace c = false).
  { intros c Hc. specialize (Hf c Hc). unfold no_space in Hf.
    now destruct (Py.isspace c). }
  apply strip_by_stops; apply stops_all; [exact H|].
  intros c Hc. apply H. now apply in_rev.
Qed.

(** *** Literals *)

(** an unquoted number: [float()] reads it, and nothing has to be stripped
    from it *)
Definition number_literal (v : str) : Prop :=
  Float.literal v = true /\ has_to_date (PStr v) = false
  /\ unquote v = v /\ stops Py.isspace v /\ forallb not_newline v = true.

Definition plain (c : ascii) : bool :=
  negb (Ascii.eqb c squote) && negb (Ascii.eqb c dquote) && not_newline c.

(** the inside of a quoted text: no quote of either kind, no line break,
    not a number for [float()], no [to_date(] *)
Definition text_inside (w : str) : Prop :=
  forallb plain w = true /\ Float.literal w = false
  /\ has_to_date (PStr w) = false.

Lemma plain_inv (c : ascii) :
  plain c = true ->
  Ascii.eqb c squote = false /\ Ascii.eqb c dquote = false /\ not_newline c = true.
Proof.
  unfold plain. intros H. apply andb_true_iff in H. destruct H as [H H3].
  apply andb_true_iff in H. destruct H as [H1 H2].
  repeat split; [now destruct (Ascii.eqb c squote)|now destruct (Ascii.eqb c dquote)|exact H3].
Qed.

Definition is_quote (c : ascii) : bool := Py.mem c [squote; dquote].

Lemma plain_not_quote (w : str) :
  forallb plain w = true -> forall c, In c w -> is_quote c = false.
Proof.
  intros Hw c Hc. rewrite forallb_forall in Hw.
  destruct (plain_inv _ (Hw c Hc)) as (H1 & H2 & _).
  unfold is_quote, Py.mem. cbn [existsb]. now rewrite H1, H2.
Qed.

Lemma unquote_quoted (w : str) :
  forallb plain w = true -> unquote (quoted w) = w.
Proof.
  intros Hw. unfold unquote.
  assert (Hs : Py.strip (quoted w) = quoted w).
  { apply strip_by_stops; unfold quoted; [exact eq_refl|].
    cbn [rev]. rewrite rev_app_distr. exact eq_refl. }
  rewrite Hs. unfold Py.strip_chars. fold is_quote.
  pose proof (plain_not_quote _ Hw) as Hq.
  unfold Py.strip_by, Py.rstrip_by, quoted. cbn [Py.lstrip_by].
  change (is_quote squote) with true. cbv iota.
  destruct w as [|c w].
  - reflexivity.
  - cbn [app Py.lstrip_by]. rewrite (Hq c) by now left.
    change (c :: w ++ [squote]) with ((c :: w) ++ [squote]).
    rewrite rev_app_distr. cbn [rev app Py.lstrip_by].
    change (is_quote squote) with true. cbv iota.
    rewrite lstrip_by_stops.
    + change (rev w ++ [c]) with (rev (c :: w)). apply rev_involutive.
    + apply stops_all. intros d Hd. apply Hq.
      change (rev w ++ [c]) with (rev (c :: w)) in Hd. now apply in_rev.
Qed.

Lemma contains_single (c : ascii) (s : str) :
  Py.contains [c] s = existsb (Ascii.eqb c) s.
Proof.
  induction s as [|d s IH]; [reflexivity|].
  cbn [Py.contains Py.startswith existsb]. rewrite IH.
  now rewrite andb_true_r.
Qed.

Lemma no_quote_inside (w : str) :
  forallb plain w = true -> Py.contains [squote] w = false.
Proof.
  intros Hw. rewrite contains_single. rewrite forallb_forall in Hw.
  induction w as [|c w IH]; [reflexivity|]. cbn [existsb].
  destruct (plain_inv _ (Hw c (or_introl eq_refl))) as (H1 & _).
  rewrite Ascii.eqb_sym, H1. apply IH. intros d Hd. apply Hw. now right.
Qed.

Lemma replace_fuel_absent (n : nat) (c : ascii) (new s : str) :
  existsb (Ascii.eqb c) s = false -> Py.replace_fuel n [c] new s = s.
Proof.
  revert s. induction n as [|n IH]; intros s H; [reflexivity|].
  destruct s as [|d s]; [reflexivity|]. cbn [existsb] in H.
  apply orb_false_iff in H. destruct H as [Hd Hs].
  cbn [Py.replace_fuel Py.startswith]. rewrite Hd. cbn [andb].
  now rewrite IH.
Qed.

Lemma sql_text_plain (w : str) : forallb plain w = true -> sql_text w = quoted w.
Proof.
  intros Hw. unfold sql_text, Py.replace. f_equal.
  apply replace_fuel_absent. rewrite <- contains_single. now apply no_quote_inside.
Qed.

Section Formatting.

Variable py_repr : pyval -> str.

(** what the Formatter makes of the value the Matcher took from a number *)
Lemma format_number (v : str) :
  number_literal v ->
  format_value py_repr (PStr (unquote v)) (PStr (str_of (classify (unquote v))))
  = Ok (PStr v).
Proof.
  intros (Hl & Ht & Hu & _ & _). rewrite Hu.
  pose proof (format_pass_number py_repr v Hl) as H.
  unfold format_pass in H. rewrite detect_value_type_str in H. exact H.
Qed.

(** and of the value it took from a quoted text *)
Lemma format_text (w : str) :
  text_inside w ->
  format_value py_repr (PStr (unquote (quoted w)))
               (PStr (str_of (classify (unquote (quoted w)))))
  = Ok (PStr (quoted w)).
Proof.
  intros (Hw & Hl & Ht). rewrite (unquote_quoted _ Hw).
  unfold classify. rewrite Hl. unfold format_value. rewrite Ht.
  destruct (existsb (Strptime.parses w) date_patterns) eqn:Hd.
  - change (pystr_eqb (PStr (str_of "date")) "number") with false.
    change (pystr_eqb (PStr (str_of "date")) "date") with true. cbv iota.
    destruct w as [|c w]; [discriminate Hd|].
    change (pystr_eqb (PStr (c :: w)) "") with false. cbv iota.
    unfold quote_in. rewrite (no_quote_inside _ Hw). reflexivity.
  - change (pystr_eqb (PStr (str_of "text")) "number") with false.
    change (pystr_eqb (PStr (str_of "text")) "date") with false. cbv iota.
    cbn [py_str]. fold (sql_text w). now rewrite sql_text_plain.
Qed.

End Formatting.

(** *** One fragment through the Matcher and back *)

Definition cmp_condition (condition_id : nat) (f : str) (op : string) (v : str)
    : dict :=
  [ (str_of "id", id_of condition_id);
    (str_of "field", PStr f);
    (str_of "operator", PStr (str_of op));
    (str_of "value", PStr (unquote v));
    (str_of "type", PStr (str_of (classify (unquote v))));
    (str_of "operator_desc",
       PStr (operators_get operators (str_of op) (str_of op))) ].

Definition null_condition (condition_id : nat) (f : str) (negated : bool) : dict :=
  let op := str_of (if negated then "IS NOT NULL" else "IS NULL") in
  [ (str_of "id", id_of condition_id);
    (str_of "field", PStr f);
    (str_of "operator", PStr op);
    (str_of "value", PNone);
    (str_of "type", PStr (str_of "null"));
    (str_of "operator_desc", PStr (operators_get operators op op)) ].

Lemma parse_cmp (f : str) (op : string) (v : str) (condition_id : nat) :
  field_ok f -> In op comparison_ops ->
  stops Py.isspace v -> forallb not_newline v = true ->
  parse_condition (cmp_fragment f op v) condition_id
  = Ok (Some (cmp_condition condition_id f op v)).
Proof.
  intros Hf Hop Hv Hnl.
  destruct (@earlier_patterns_fail f op v Hf Hop) as (E1 & E2 & E3 & E4).
  unfold parse_condition. rewrite E1. unfold patterns. cbn [first_pattern].
  rewrite E2, E3, E4, (@operator_match f op v Hf Hop Hv Hnl).
  unfold operator_handler, Re.group. cbn [Re.m_caps Re.lookup Nat.eqb].
  rewrite detect_value_type_str. cbn [bind].
  rewrite (strip_field f (proj2 Hf)). unfold cmp_condition.
  set (ty := classify (unquote v)). set (val := unquote v). clearbody ty val.
  each_op Hop; reflexivity.
Qed.

Lemma upper_app (a b : str) : Py.upper (a ++ b) = Py.upper a ++ Py.upper b.
Proof. apply map_app. Qed.

Lemma contains_app_r (sub a b : str) :
  Py.contains sub b = true -> Py.contains sub (a ++ b) = true.
Proof.
  intros H. induction a as [|c a IH]; [exact H|].
  cbn [app Py.contains]. rewrite IH. apply orb_true_r.
Qed.

Lemma startswith_no_straddle (sub a b : str) (d : ascii) :
  hd_error b = Some d -> Py.mem d sub = false ->
  Py.startswith a sub = false -> Py.startswith (a ++ b) sub = false.
Proof.
  intros Hb. revert a. induction sub as [|s sub IH]; intros a Hm Ha.
  - discriminate Ha.
  - cbn [Py.mem existsb] in Hm. apply orb_false_iff in Hm. destruct Hm as [Hds Hm].
    destruct a as [|c a].
    + destruct b as [|d' b]; [discriminate Hb|]. injection Hb as ->.
      cbn [app Py.startswith]. now rewrite Ascii.eqb_sym, Hds.
    + cbn [app Py.startswith] in *.
      destruct (Ascii.eqb s c); [|reflexivity]. cbn [andb] in *.
      now apply IH.
Qed.

Lemma contains_no_straddle (sub a b : str) (d : ascii) :
  hd_error b = Some d -> Py.mem d sub = false ->
  Py.contains sub a = false -> Py.contains sub b = false ->
  Py.contains sub (a ++ b) = false.
Proof.
  intros Hb Hm Ha Hcb. induction a as [|c a IH]; [exact Hcb|].
  cbn [app Py.contains] in *. apply orb_false_iff in Ha. destruct Ha as [H1 H2].
  rewrite (IH H2), orb_false_r.
  change (c :: a ++ b) with ((c :: a) ++ b).
  eapply startswith_no_straddle; eassumption.
Qed.

Lemma has_not_null_fragment (f : str) (negated : bool) :
  has_not f = false -> has_not (null_fragment f negated) = negated.
Proof.
  intros Hf. unfold has_not, null_fragment in *. rewrite upper_app.
  destruct negated.
  - apply contains_app_r. reflexivity.
  - eapply contains_no_straddle; [reflexivity|reflexivity|exact Hf|reflexivity].
Qed.

Lemma has_not_not_null (f : str) : has_not (null_fragment f true) = true.
Proof.
  unfold has_not, null_fragment. rewrite upper_app.
  apply contains_app_r. reflexivity.
Qed.

Lemma parse_null (f : str) (negated : bool) (condition_id : nat) :
  field_ok f -> has_not (null_fragment f negated) = negated ->
  parse_condition (null_fragment f negated) condition_id
  = Ok (Some (null_condition condition_id f negated)).
Proof.
  intros Hf Hn.
  destruct (@null_match f negated Hf) as (E1 & E2 & E3 & E4).
  unfold parse_condition. rewrite E1. unfold patterns. cbn [first_pattern].
  rewrite E2, E3, E4.
  unfold null_handler, Re.group. cbn [Re.m_caps Re.m_text Re.lookup Nat.eqb].
  rewrite Hn, (strip_field f (proj2 Hf)). cbn [bind]. destruct negated; reflexivity.
Qed.

Section Rendering.

Variable py_repr : pyval -> str.

Lemma where_part_cmp (condition_id : nat) (f : str) (op : string) (v : str) :
  In op comparison_ops ->
  where_part py_repr (PDict (cmp_condition condition_id f op v))
  = (formatted <- format_value py_repr (PStr (unquote v))
                    (PStr (str_of (classify (unquote v)))) ;;
     Ok ((f ++ str_of " " ++ str_of op) ++ str_of " " ++ py_str py_repr formatted)).
Proof.
  intros Hop. unfold cmp_condition.
  set (ty := classify (unquote v)). set (val := unquote v). clearbody ty val.
  each_op Hop; reflexivity.
Qed.

Lemma where_part_null (condition_id : nat) (f : str) (negated : bool) :
  where_part py_repr (PDict (null_condition condition_id f negated))
  = Ok (null_fragment f negated).
Proof. destruct negated; reflexivity. Qed.

Lemma cmp_fragment_app (f : str) (op : string) (v : str) :
  (f ++ str_of " " ++ str_of op) ++ str_of " " ++ v = cmp_fragment f op v.
Proof. unfold cmp_fragment. now rewrite <- app_assoc. Qed.

(** the fragments of the supported shapes *)
Inductive fragment : str -> Prop :=
| frag_null (f : str) :
    field_ok f -> has_not f = false -> fragment (null_fragment f false)
| frag_not_null (f : str) :
    field_ok f -> fragment (null_fragment f true)
| frag_number (f : str) (op : string) (v : str) :
    field_ok f -> In op comparison_ops -> number_literal v ->
    fragment (cmp_fragment f op v)
| frag_text (f : str) (op : string) (w : str) :
    field_ok f -> In op comparison_ops -> text_inside w ->
    fragment (cmp_fragment f op (quoted w)).

Lemma text_inside_not_newline (w : str) :
  forallb plain w = true -> forallb not_newline (quoted w) = true.
Proof.
  intros Hw. unfold quoted. cbn [forallb]. rewrite forallb_app. cbn [forallb].
  replace (forallb not_newline w) with true; [reflexivity|].
  symmetry. rewrite forallb_forall in *. intros c Hc.
  now destruct (plain_inv _ (Hw c Hc)) as (_ & _ & H).
Qed.

(** A fragment of a supported shape is parsed into one condition, and that
    condition is rendered as the fragment. *)
Lemma fragment_round_trip (s : str) (condition_id : nat) :
  fragment s ->
  exists d, parse_condition s condition_id = Ok (Some d)
            /\ where_part py_repr (PDict d) = Ok s.
Proof.
  intros [f Hf Hn|f Hf|f op v Hf Hop Hv|f op w Hf Hop Hw].
  - exists (null_condition condition_id f false). split.
    + apply parse_null; [exact Hf|now apply has_not_null_fragment].
    + apply where_part_null.
  - exists (null_condition condition_id f true). split.
    + apply parse_null; [exact Hf|apply has_not_not_null].
    + apply where_part_null.
  - exists (cmp_condition condition_id f op v). split.
    + apply parse_cmp; try assumption; apply Hv.
    + rewrite where_part_cmp by exact Hop. rewrite (@format_number py_repr v Hv).
      cbn [bind py_str]. now rewrite cmp_fragment_app.
  - exists (cmp_condition condition_id f op (quoted w)). split.
    + apply parse_cmp; try assumption; [exact eq_refl|].
      apply text_inside_not_newline, Hw.
    + rewrite where_part_cmp by exact Hop. rewrite (@format_text py_repr w Hw).
      cbn [bind py_str]. now rewrite cmp_fragment_app.
Qed.

End Rendering.

End Frag.

(** ** Splitting on a connective *)

Module Split.

Import Re Run.

(** a pattern that is a fixed row of character classes *)
Definition row (ps : list (ascii -> bool)) : regex :=
  fold_right (fun p r => Seq (Chr p) r) Eps ps.

(** the row matches at the front of [s] *)
Fixpoint window (ps : list (ascii -> bool)) (s : str) : bool :=
  match ps, s with
  | [], _ => true
  | p :: ps', c :: s' => p c && window ps' s'
  | _ :: _, [] => false
  end.

Lemma window_length (ps : list (ascii -> bool)) (s : str) :
  window ps s = true -> length ps <= length s.
Proof.
  revert s. induction ps as [|p ps IH]; intros s H; [simpl; lia|].
  destruct s as [|c s]; [discriminate|]. cbn [window] in H.
  apply andb_true_iff in H. destruct H as [_ H]. specialize (IH _ H). simpl. lia.
Qed.

Lemma window_app (ps : list (ascii -> bool)) (x y : str) :
  length ps <= length x -> window ps (x ++ y) = window ps x.
Proof.
  revert x. induction ps as [|p ps IH]; intros x H; [reflexivity|].
  destruct x as [|c x]; [simpl in H; lia|]. cbn [app window].
  rewrite IH; [reflexivity|simpl in H; lia].
Qed.

Lemma window_app_true (ps : list (ascii -> bool)) (x y : str) :
  window ps x = true -> window ps (x ++ y) = true.
Proof.
  intros H. rewrite window_app; [exact H|]. now apply window_length.
Qed.

Lemma exec_row (ps : list (ascii -> bool)) (n : nat) (s : str) (os : list str)
    (cs : list (nat * str)) (k : cont) :
  exec (row ps) (MState n s os cs) k
  = if window ps s
    then k (fed (firstn (length ps) s) n (skipn (length ps) s) os cs)
    else None.
Proof.
  revert n s os. induction ps as [|p ps IH]; intros n s os.
  - cbn [row fold_right exec window length firstn skipn]. now rewrite fed_nil.
  - cbn [row fold_right]. fold (row ps).
    change (exec (Seq ?a ?b) ?st ?k) with (exec a st (fun st' => exec b st' k)).
    destruct s as [|c s]; [reflexivity|].
    rewrite exec_chr_cons. cbn [window length firstn skipn].
    destruct (p c); [|reflexivity]. cbn [andb]. rewrite IH.
    destruct (window ps s); [|reflexivity]. now rewrite fed_cons.
Qed.

Lemma skipn_app_length (pre x : str) : skipn (length pre) (pre ++ x) = x.
Proof. induction pre; simpl; auto. Qed.

Section Row.

Variable r : regex.
Variable ps : list (ascii -> bool).
Hypothesis r_row : forall st k, exec r st k = exec (row ps) st k.

Lemma match_at_row (s : str) (i : nat) :
  match_at r s i false
  = if window ps (skipn i s)
    then Some (Match i (i + length ps) (firstn (length ps) (skipn i s)) [])
    else None.
Proof.
  unfold match_at. rewrite r_row, exec_row.
  destruct (window ps (skipn i s)) eqn:W; [|reflexivity].
  pose proof (window_length _ _ W) as L.
  unfold fed. cbn [andb pos caps]. rewrite length_firstn, Nat.min_l by exact L.
  now replace (i + length ps - i) with (length ps) by lia.
Qed.

(** nothing of the row starts inside [p], also when [tail] follows it *)
Definition quiet (tail p : str) : Prop :=
  forall i, i <= length p -> window ps (skipn i (p ++ tail)) = false.

Lemma search_loop_none (s : str) (n i : nat) :
  search_loop r s n i false = None ->
  forall j, i <= j <= i + n -> match_at r s j false = None.
Proof.
  revert i. induction n as [|n IH]; intros i H j Hj; cbn [search_loop] in H.
  - destruct (match_at r s i false) eqn:E; [discriminate|].
    now replace j with i by lia.
  - destruct (match_at r s i false) eqn:E; [discriminate|].
    destruct (Nat.eq_dec j i) as [->|Hne]; [exact E|].
    apply (IH (S i) H j). lia.
Qed.

Lemma search_none_quiet (tail p : str) :
  re_search r (p ++ tail) = None -> quiet tail p.
Proof.
  unfold re_search, search_from. cbn [Nat.leb]. rewrite Nat.sub_0_r.
  intros H i Hi.
  pose proof (@search_loop_none (p ++ tail) _ 0 H i) as Hm.
  rewrite match_at_row in Hm.
  destruct (window ps (skipn i (p ++ tail))); [|reflexivity].
  assert (Some (Match i (i + length ps)
                  (firstn (length ps) (skipn i (p ++ tail))) []) = None) as E
    by (apply Hm; rewrite length_app; lia).
  discriminate E.
Qed.

Variable sep last : str.
Hypothesis sep_window : window ps (sep ++ last) = true.
Hypothesis sep_length : length (sep ++ last) = length ps.
Hypothesis last_one : length last = 1.

Lemma quiet_inside (p rest : str) (i : nat) :
  quiet sep p -> i < length p ->
  window ps (skipn i (p ++ (sep ++ last) ++ rest)) = false.
Proof.
  intros Hq Hi.
  replace (p ++ (sep ++ last) ++ rest) with ((p ++ sep) ++ (last ++ rest))
    by (now rewrite <- !app_assoc).
  rewrite skipn_app.
  replace (i - length (p ++ sep)) with 0 by (rewrite length_app; lia).
  cbn [skipn]. rewrite window_app.
  - apply Hq. lia.
  - rewrite length_skipn, length_app. rewrite length_app in sep_length. lia.
Qed.

Lemma quiet_alone (p : str) (i : nat) :
  quiet sep p -> i <= length p -> window ps (skipn i p) = false.
Proof.
  intros Hq Hi. destruct (window ps (skipn i p)) eqn:W; [|reflexivity].
  rewrite <- (Hq i Hi), skipn_app.
  replace (i - length p) with 0 by lia. cbn [skipn].
  symmetry. now apply window_app_true.
Qed.

Lemma search_loop_finds (rest part pre : str) (n : nat) :
  length part <= n ->
  (forall i, i < length part ->
     window ps (skipn i (part ++ (sep ++ last) ++ rest)) = false) ->
  search_loop r (pre ++ part ++ (sep ++ last) ++ rest) n (length pre) false
  = Some (Match (length pre + length part) (length pre + length part + length ps)
                (sep ++ last) []).
Proof.
  revert pre n. induction part as [|c part IH]; intros pre n Hn Hq.
  - cbn [app length]. rewrite Nat.add_0_r.
    destruct n; cbn [search_loop]; rewrite match_at_row, skipn_app_length,
      (window_app_true _ _ _ sep_window), <- sep_length, firstn_app, Nat.sub_diag,
      firstn_all; cbn [firstn]; now rewrite app_nil_r.
  - destruct n as [|n]; [simpl in Hn; lia|]. cbn [search_loop].
    rewrite match_at_row, skipn_app_length.
    assert (H0 := Hq 0 (Nat.lt_0_succ _)). cbn [skipn] in H0. rewrite H0.
    replace (pre ++ (c :: part) ++ (sep ++ last) ++ rest)
      with ((pre ++ [c]) ++ part ++ (sep ++ last) ++ rest)
      by (now rewrite <- app_assoc).
    replace (S (length pre)) with (length (pre ++ [c]))
      by (rewrite length_app; simpl; lia).
    rewrite IH.
    + rewrite length_app. cbn [length]. f_equal. f_equal; lia.
    + simpl in Hn. lia.
    + intros i Hi. apply (Hq (S i)). simpl. lia.
Qed.

Lemma search_loop_misses (part pre : str) :
  (forall i, i <= length part -> window ps (skipn i part) = false) ->
  search_loop r (pre ++ part) (length part) (length pre) false = None.
Proof.
  revert pre. induction part as [|c part IH]; intros pre Hq.
  - cbn [length search_loop]. rewrite match_at_row, skipn_app_length.
    assert (H0 := Hq 0 (Nat.le_0_l _)). cbn [skipn] in H0. now rewrite H0.
  - cbn [length search_loop]. rewrite match_at_row, skipn_app_length.
    assert (H0 := Hq 0 (Nat.le_0_l _)). cbn [skipn] in H0. rewrite H0.
    replace (pre ++ c :: part) with ((pre ++ [c]) ++ part)
      by (now rewrite <- app_assoc).
    replace (S (length pre)) with (length (pre ++ [c]))
      by (rewrite length_app; simpl; lia).
    apply IH. intros i Hi. apply (Hq (S i)). simpl. lia.
Qed.

(** Parts in which the row does not occur, joined by the separator, are
    what [re.split] returns. *)
Lemma split_joined (parts : list str) (pre : str) (fuel : nat) :
  parts <> [] -> length parts <= fuel -> Forall (quiet sep) parts ->
  split_at (pre ++ Py.join (sep ++ last) parts) (length pre)
           (matches_loop r (pre ++ Py.join (sep ++ last) parts) fuel (length pre) false)
  = parts.
Proof.
  intros Hne. revert pre fuel.
  induction parts as [|p parts IH]; intros pre fuel Hfuel Hq; [congruence|].
  clear Hne. inversion Hq as [|? ? Hp Hps]; subst.
  destruct fuel as [|fuel]; [simpl in Hfuel; lia|].
  destruct parts as [|q parts].
  - cbn [Py.join matches_loop]. unfold search_from.
    replace (length pre <=? length (pre ++ p)) with true
      by (symmetry; apply Nat.leb_le; rewrite length_app; lia).
    replace (length (pre ++ p) - length pre) with (length p)
      by (rewrite length_app; lia).
    rewrite search_loop_misses by (intros i Hi; now apply quiet_alone).
    cbn [split_at]. now rewrite skipn_app_length.
  - change (Py.join (sep ++ last) (p :: q :: parts))
      with (p ++ (sep ++ last) ++ Py.join (sep ++ last) (q :: parts)).
    set (rest := Py.join (sep ++ last) (q :: parts)) in *.
    cbn [matches_loop]. unfold search_from.
    replace (length pre <=? length (pre ++ p ++ (sep ++ last) ++ rest)) with true
      by (symmetry; apply Nat.leb_le; rewrite length_app; lia).
    rewrite search_loop_finds.
    + cbn [split_at m_start m_end].
      replace (length pre + length p - length pre) with (length p) by lia.
      rewrite skipn_app_length, firstn_app, Nat.sub_diag, firstn_all.
      cbn [firstn]. rewrite app_nil_r. f_equal.
      replace (length pre + length p + length ps =? length pre + length p)
        with false.
      2:{ symmetry. apply Nat.eqb_neq. rewrite <- sep_length, length_app. lia. }
      replace (pre ++ p ++ (sep ++ last) ++ rest)
        with ((pre ++ p ++ sep ++ last) ++ rest)
        by (now rewrite <- !app_assoc).
      replace (length pre + length p + length ps)
        with (length (pre ++ p ++ sep ++ last))
        by (rewrite <- sep_length, !length_app; lia).
      apply IH; [discriminate|simpl in *; lia|exact Hps].
    + rewrite !length_app. lia.
    + intros i Hi. now apply quiet_inside.
Qed.

Lemma join_length (parts : list str) :
  length parts <= length (Py.join (sep ++ last) parts) + 1.
Proof.
  induction parts as [|p [|q parts] IH]; cbn [Py.join length] in *; try lia.
  rewrite !length_app. cbn [length] in IH. lia.
Qed.

Lemma re_split_joined (parts : list str) :
  parts <> [] -> Forall (quiet sep) parts ->
  re_split r (Py.join (sep ++ last) parts) = parts.
Proof.
  intros Hne Hq. unfold re_split, matches.
  apply (@split_joined parts [] _ Hne); [|exact Hq].
  pose proof (join_length parts). cbn [app]. lia.
Qed.

End Row.

End Split.

(** ** Round trip of a clause of supported fragments *)




Module RoundTrip.

Import Re Run Frag Split.

Definition ci (c : ascii) : ascii -> bool :=
  fun x => Ascii.eqb (Py.lower_char x) (Py.lower_char c).

Definition and_row : list (ascii -> bool) :=
  [Py.isspace; ci "A"; ci "N"; ci "D"; Py.isspace].

Lemma and_pattern_row (st : mstate) (k : cont) :
  exec Patterns.and_pattern st k = exec (row and_row) st k.
Proof. reflexivity. Qed.

(** a part of the clause: a fragment of a supported shape, white space
    around it allowed, in which neither connective occurs as a word *)
Definition part_ok (p : str) : Prop :=
  fragment (Py.strip p)
  /\ re_search Patterns.and_pattern (p ++ str_of " AND") = None
  /\ re_search Patterns.or_pattern p = None.

Lemma split_on_and (parts : list str) :
  parts <> [] -> Forall part_ok parts ->
  re_split Patterns.and_pattern (Py.join (str_of " AND ") parts) = parts.
Proof.
  intros Hne Hp.
  apply (@re_split_joined Patterns.and_pattern and_row and_pattern_row
           (str_of " AND") (str_of " ") eq_refl eq_refl eq_refl parts Hne).
  apply Forall_impl with (2 := Hp). intros p (_ & Hand & _).
  now apply (@search_none_quiet Patterns.and_pattern and_row and_pattern_row).
Qed.

Lemma split_on_or (p : str) :
  re_search Patterns.or_pattern p = None -> re_split Patterns.or_pattern p = [p].
Proof.
  intros H. unfold re_split, matches. cbn [matches_loop].
  change (search_from Patterns.or_pattern p 0 false)
    with (re_search Patterns.or_pattern p).
  now rewrite H.
Qed.

Lemma fragments_of_joined (parts : list str) :
  parts <> [] -> Forall part_ok parts ->
  fragments_of (Py.join (str_of " AND ") parts) = parts.
Proof.
  intros Hne Hp. unfold fragments_of. rewrite (@split_on_and parts Hne Hp).
  clear Hne. induction Hp as [|p parts (_ & _ & Hor) Hps IH]; [reflexivity|].
  cbn [flat_map]. now rewrite (@split_on_or p Hor), IH.
Qed.

Lemma search_loop_fails (r : regex) (s : str) (n i : nat) (ma : bool) :
  match_at r s i ma = None ->
  (forall j, i < j -> match_at r s j false = None) ->
  search_loop r s n i ma = None.
Proof.
  revert i ma. induction n as [|n IH]; intros i ma H0 H; cbn [search_loop];
    rewrite H0; [reflexivity|].
  apply IH; [apply H; lia|]. intros j Hj. apply H. lia.
Qed.

Lemma leading_where_later (s : str) (j : nat) :
  0 < j -> match_at Patterns.leading_where s j false = None.
Proof. intros Hj. destruct j as [|j]; [lia|]. reflexivity. Qed.

(** a clause that does not begin with the keyword keeps its text *)
Lemma leading_where_absent (s : str) :
  re_match Patterns.leading_where s = None ->
  re_sub Patterns.leading_where (fun _ => []) s = s.
Proof.
  intros H. unfold re_sub, matches. cbn [matches_loop].
  unfold search_from. cbn [Nat.leb].
  rewrite search_loop_fails; [reflexivity|exact H|].
  intros j Hj. now apply leading_where_later.
Qed.

Lemma fragment_nonempty (s : str) : fragment s -> nonempty s = true.
Proof.
  intros [f [Hf _] _|f [Hf _]|f op v [Hf _] _ _|f op w [Hf _] _ _];
    unfold null_fragment, cmp_fragment; destruct f; try congruence; reflexivity.
Qed.

Section Clause.

Variable py_repr : pyval -> str.

Lemma parse_fragments_round_trip (parts : list str) (condition_id : nat) :
  Forall part_ok parts ->
  exists conditions,
    parse_fragments parts condition_id = Ok conditions
    /\ length conditions = length parts
    /\ mapM (where_part py_repr) (map PDict conditions) = Ok (map Py.strip parts).
Proof.
  intros Hp. revert condition_id.
  induction Hp as [|p parts (Hf & _ & _) Hps IH]; intros condition_id.
  - exists []. repeat split.
  - cbn [parse_fragments]. rewrite (@fragment_nonempty _ Hf).
    destruct (@fragment_round_trip py_repr _ condition_id Hf) as (d & -> & Hd).
    cbn [bind]. destruct (IH (S condition_id)) as (l & -> & Hlen & Hl).
    cbn [bind]. exists (d :: l). split; [reflexivity|]. split; [simpl; lia|].
    cbn [map mapM]. now rewrite Hd, Hl.
Qed.

(** *** Words *)



Lemma lstrip_by_split (p : ascii -> bool) (s : str) :
  exists dropped, s = dropped ++ Py.lstrip_by p s /\ forallb p dropped = true.
Proof.
  induction s as [|c s (d & Hs & Hd)]; [now exists []|].
  cbn [Py.lstrip_by]. destruct (p c) eqn:E.
  - exists (c :: d). split; [cbn [app]; now f_equal|]. cbn [forallb]. now rewrite E.
  - now exists [].
Qed.




(** The Clause Splitter and the Reconstructor's clause builder on a clause
    of supported fragments joined by AND. *)
Lemma clause_round_trip (parts : list str) (full_query : str) :
  parts <> [] -> Forall part_ok parts ->
  re_match Patterns.leading_where (Py.join (str_of " AND ") parts) = None ->
  re_search Patterns.to_date_pattern (Py.join (str_of " AND ") parts) = None ->
  exists conditions,
    extract_conditions (Py.join (str_of " AND ") parts) full_query = Ok conditions
    /\ length conditions = length parts
    /\ construct_where_clause py_repr (map PDict conditions)
       = Ok (Py.join (str_of " AND ") (map Py.strip parts)).
Proof.
  intros Hne Hp Hw Ht. rewrite extract_conditions_unfold. cbv zeta.
  rewrite (@leading_where_absent _ Hw), Ht, (@fragments_of_joined parts Hne Hp).
  destruct (@parse_fragments_round_trip parts 0 Hp) as (l & -> & Hlen & Hl).
  exists l. split; [reflexivity|]. split; [exact Hlen|].
  unfold construct_where_clause. now rewrite Hl.
Qed.

End Clause.

End RoundTrip.

(** ** The to_date idiom *)

Module Idiom.

Import Re Run Frag.

(** [<field> [NOT] BETWEEN to_date(<p1>,<sp1>'<f1>') AND
    to_date(<p2>,<sp2>'<f2>')], where [sp1] and [sp2] are the white space
    (none, one blank, ...) behind the commas *)
Definition call_text (p sp f tail : str) : str :=
  str_of "to_date(" ++ p ++ ","%char :: sp ++ "'"%char :: f ++ str_of "')" ++ tail.

Definition idiom_text (field : str) (negated : bool) (p1 sp1 f1 p2 sp2 f2 tail : str)
    : str :=
  field ++ " "%char :: str_of (if negated then "NOT BETWEEN " else "BETWEEN ")
  ++ call_text p1 sp1 f1 (str_of " AND " ++ call_text p2 sp2 f2 tail).

Definition param_char (c : ascii) : bool := negb (Py.mem c (str_of ",)")).
Definition format_char (c : ascii) : bool := negb (Py.mem c (str_of "'")).

(** no white space at either end *)
Definition trimmed (s : str) : Prop :=
  stops Py.isspace s /\ stops Py.isspace (rev s).

(** a parameter: not empty, no comma, no closing parenthesis, no white
    space around it *)
Definition param_ok (p : str) : Prop :=
  p <> [] /\ forallb param_char p = true /\ trimmed p.

(** a format: not empty, no single quote, no white space around it *)
Definition format_ok (f : str) : Prop :=
  f <> [] /\ forallb format_char f = true /\ trimmed f.

Lemma strip_trimmed (s : str) : trimmed s -> Py.strip s = s.
Proof. intros [H1 H2]. now apply strip_by_stops. Qed.

Lemma exec_ows_zero (n : nat) (tail : str) (os : list str)
    (cs : list (nat * str)) (k : cont) :
  stops Py.isspace tail ->
  exec Patterns.ows (MState n tail os cs) k = k (MState n tail os cs).
Proof.
  intros H. unfold Patterns.ows, space.
  change (exec (Star true ?a) ?st ?k)
    with (star_loop true (exec a) (length (rest st)) st k).
  now apply star_greedy_zero.
Qed.

(** "\s*" over a run of white space that something else ends *)
Lemma exec_ows_run (n : nat) (sp tail : str) (cs : list (nat * str)) (k : cont)
    (x : mstate) :
  forallb Py.isspace sp = true -> stops Py.isspace tail ->
  k (MState (n + length sp) tail [] cs) = Some x ->
  exec Patterns.ows (MState n (sp ++ tail) [] cs) k = Some x.
Proof.
  intros Hsp Ht Hk. unfold Patterns.ows, space.
  change (exec (Star true ?a) ?st ?k)
    with (star_loop true (exec a) (length (rest st)) st k).
  cbn [rest]. apply (@star_greedy_first Py.isspace sp tail Hsp Ht).
  - rewrite length_app. lia.
  - exact Hk.
Qed.

(** a group "([^...]+)" over a text of the class that something else ends *)
Lemma exec_group_plus (g : nat) (p : ascii -> bool) (n : nat) (w tail : str)
    (cs : list (nat * str)) (k : cont) (x : mstate) :
  w <> [] -> forallb p w = true -> stops p tail ->
  k (MState (n + length w) tail [] ((g, w) :: cs)) = Some x ->
  exec (Grp g (Plus true (Chr p))) (MState n (w ++ tail) [] cs) k = Some x.
Proof.
  intros Hne Hw Ht Hk. destruct w as [|c w]; [congruence|]. clear Hne.
  cbn [forallb] in Hw. apply andb_true_iff in Hw. destruct Hw as [Hc Hw].
  change (exec (Grp ?n ?a) ?st ?k) with (exec a (open_group st) (close_group n k)).
  unfold Plus, open_group. cbn [pos rest opened caps].
  change (exec (Seq ?a ?b) ?st ?k) with (exec a st (fun st' => exec b st' k)).
  cbn [app]. rewrite exec_chr_cons, Hc.
  change (exec (Star true ?a) ?st ?k)
    with (star_loop true (exec a) (length (rest st)) st k).
  cbn [rest map].
  apply (@star_greedy_first p w tail Hw Ht).
  - rewrite length_app. lia.
  - unfold fed, close_group. cbn [opened map pos rest caps].
    rewrite rev_app_distr, rev_involutive. cbn [rev app].
    cbn [length] in Hk. now rewrite <- Nat.add_succ_comm in Hk.
Qed.

Lemma stops_app (q : ascii -> bool) (p x : str) :
  p <> [] -> stops q p -> stops q (p ++ x).
Proof. destruct p; [congruence|]. now intros _ H. Qed.

Lemma exec_seq (a b : regex) (st : mstate) (k : cont) :
  exec (Seq a b) st k = exec a st (fun st' => exec b st' k).
Proof. reflexivity. Qed.

Lemma exec_alt (a b : regex) (st : mstate) (k : cont) :
  exec (Alt a b) st k = or_else (exec a st k) (fun _ => exec b st k).
Proof. reflexivity. Qed.

Lemma exec_eps (st : mstate) (k : cont) : exec Eps st k = k st.
Proof. reflexivity. Qed.

Lemma exec_chr_same (c : ascii) (n : nat) (t : str) (os : list str)
    (cs : list (nat * str)) (k : cont) :
  exec (chr c) (MState n (c :: t) os cs) k
  = k (MState (S n) t (map (cons c) os) cs).
Proof. unfold chr. now rewrite exec_chr_cons, Ascii.eqb_refl. Qed.

Lemma exec_chr_ci (c d : ascii) (n : nat) (t : str) (os : list str)
    (cs : list (nat * str)) (k : cont) :
  Ascii.eqb (Py.lower_char d) (Py.lower_char c) = true ->
  exec (chr_ci c) (MState n (d :: t) os cs) k
  = k (MState (S n) t (map (cons d) os) cs).
Proof. intros H. unfold chr_ci. now rewrite exec_chr_cons, H. Qed.

Lemma exec_chr_ci_fails (c d : ascii) (n : nat) (t : str) (os : list str)
    (cs : list (nat * str)) (k : cont) :
  Ascii.eqb (Py.lower_char d) (Py.lower_char c) = false ->
  exec (chr_ci c) (MState n (d :: t) os cs) k = None.
Proof. intros H. unfold chr_ci. now rewrite exec_chr_cons, H. Qed.

Lemma or_else_first (a : option mstate) (b : unit -> option mstate) (x : mstate) :
  a = Some x -> or_else a b = Some x.
Proof. now intros ->. Qed.

(** steps of the matcher over known characters *)
Ltac run :=
  repeat first
    [ rewrite exec_seq
    | rewrite exec_chr_same
    | rewrite exec_chr_ci by exact eq_refl
    | rewrite exec_ws_single by exact eq_refl
    | rewrite exec_ows_zero by exact eq_refl
    | progress cbn [map] ].

(** and over the unknown parts of the idiom *)
Ltac walk :=
  repeat first
    [ progress run
    | rewrite exec_ows_zero by (apply stops_app; assumption)
    | eapply exec_ows_run; [eassumption | exact eq_refl |]
    | eapply exec_group_plus; [eassumption | eassumption | exact eq_refl |]
    | progress cbv beta ].

Definition final : cont :=
  fun st => if false && (pos st =? 0) then None else Some st.

(** the pattern of the idiom run over the idiom, behind the field *)
Lemma exec_idiom (n : nat) (negated : bool) (p1 sp1 f1 p2 sp2 f2 tail : str)
    (cs : list (nat * str)) :
  param_ok p1 -> param_ok p2 -> format_ok f1 -> format_ok f2 ->
  forallb Py.isspace sp1 = true -> forallb Py.isspace sp2 = true ->
  exists P,
    exec (seqs [ Opt (Seq (lit_ci "NOT") Patterns.ws);
                 lit_ci "BETWEEN"; Patterns.ws; Patterns.to_date_call 2;
                 Patterns.ws; lit_ci "AND"; Patterns.ws; Patterns.to_date_call 4 ])
         (MState n
            (str_of (if negated then "NOT BETWEEN " else "BETWEEN ")
             ++ call_text p1 sp1 f1 (str_of " AND " ++ call_text p2 sp2 f2 tail))
            [] cs)
         final
    = Some (MState P tail [] ((5, f2) :: (4, p2) :: (3, f1) :: (2, p1) :: cs))
    /\ P = n + length (str_of (if negated then "NOT BETWEEN " else "BETWEEN ")
                       ++ call_text p1 sp1 f1
                            (str_of " AND " ++ call_text p2 sp2 f2 [])).
Proof.
  intros (Hp1 & Hq1 & Hs1 & _) (Hp2 & Hq2 & Hs2 & _) (Hf1 & Hg1 & _) (Hf2 & Hg2 & _)
         Hsp1 Hsp2.
  unfold call_text, Patterns.to_date_call, Opt, lit_ci.
  cbn [seqs map str_of list_ascii_of_string].
  destruct negated; cbn [str_of list_ascii_of_string app]; eexists; split.
  - rewrite exec_seq, exec_alt. apply or_else_first. walk.
    unfold final. cbn [andb]. reflexivity.
  - repeat first [rewrite length_app | progress cbn [length]]. lia.
  - rewrite exec_seq, exec_alt, exec_seq, exec_seq.
    rewrite exec_chr_ci_fails by exact eq_refl. cbn [or_else]. rewrite exec_eps.
    walk. unfold final. cbn [andb]. reflexivity.
  - repeat first [rewrite length_app | progress cbn [length]]. lia.
Qed.

Lemma to_date_pattern_head :
  Patterns.to_date_pattern
  = Seq (Grp 1 (Plus true not_space))
        (Seq Patterns.ws
           (seqs [ Opt (Seq (lit_ci "NOT") Patterns.ws);
                   lit_ci "BETWEEN"; Patterns.ws; Patterns.to_date_call 2;
                   Patterns.ws; lit_ci "AND"; Patterns.ws;
                   Patterns.to_date_call 4 ])).
Proof. reflexivity. Qed.

Lemma call_text_tail (p sp f tail : str) :
  call_text p sp f tail = call_text p sp f [] ++ tail.
Proof.
  unfold call_text.
  repeat first [rewrite <- app_assoc | rewrite <- app_comm_cons | rewrite app_nil_l].
  reflexivity.
Qed.

Lemma idiom_text_tail (field : str) (negated : bool)
    (p1 sp1 f1 p2 sp2 f2 tail : str) :
  idiom_text field negated p1 sp1 f1 p2 sp2 f2 tail
  = idiom_text field negated p1 sp1 f1 p2 sp2 f2 [] ++ tail.
Proof.
  unfold idiom_text.
  rewrite (call_text_tail p2 sp2 f2 tail).
  rewrite (call_text_tail p1 sp1 f1 (str_of " AND " ++ call_text p2 sp2 f2 [] ++ tail)).
  rewrite (call_text_tail p1 sp1 f1 (str_of " AND " ++ call_text p2 sp2 f2 [])).
  repeat first [rewrite <- app_assoc | rewrite <- app_comm_cons | rewrite app_nil_l].
  reflexivity.
Qed.

(** [re.search] finds the idiom at the start of the clause, with the five
    groups it is made of *)
Lemma idiom_search (field : str) (negated : bool)
    (p1 sp1 f1 p2 sp2 f2 tail : str) :
  field_ok field -> param_ok p1 -> param_ok p2 -> format_ok f1 -> format_ok f2 ->
  forallb Py.isspace sp1 = true -> forallb Py.isspace sp2 = true ->
  re_search Patterns.to_date_pattern
            (idiom_text field negated p1 sp1 f1 p2 sp2 f2 [] ++ tail)
  = Some (Match 0 (length (idiom_text field negated p1 sp1 f1 p2 sp2 f2 []))
                (idiom_text field negated p1 sp1 f1 p2 sp2 f2 [])
                [(5, f2); (4, p2); (3, f1); (2, p1); (1, field)]).
Proof.
  intros [Hne Hf] Hp1 Hp2 Hf1 Hf2 Hsp1 Hsp2.
  assert (E : match_at Patterns.to_date_pattern
                (idiom_text field negated p1 sp1 f1 p2 sp2 f2 [] ++ tail) 0 false
              = Some (Match 0 (length (idiom_text field negated p1 sp1 f1 p2 sp2 f2 []))
                            (idiom_text field negated p1 sp1 f1 p2 sp2 f2 [])
                            [(5, f2); (4, p2); (3, f1); (2, p1); (1, field)])).
  { unfold match_at. cbn [skipn]. fold final.
    rewrite <- idiom_text_tail at 1. unfold idiom_text at 1.
    rewrite to_date_pattern_head.
    rewrite field_prefix; [|exact Hne|exact Hf|destruct negated; exact eq_refl].
    destruct (@exec_idiom (S (length field)) negated p1 sp1 f1 p2 sp2 f2 tail
                [(1, field)] Hp1 Hp2 Hf1 Hf2 Hsp1 Hsp2) as (P & -> & HP).
    cbn [pos caps].
    assert (HL : P = length (idiom_text field negated p1 sp1 f1 p2 sp2 f2 [])).
    { rewrite HP. unfold idiom_text.
      repeat first [rewrite length_app | progress cbn [length]]. lia. }
    rewrite HL, Nat.sub_0_r, firstn_app, Nat.sub_diag, firstn_all.
    cbn [firstn]. now rewrite app_nil_r. }
  unfold re_search, search_from. cbn [Nat.leb]. rewrite Nat.sub_0_r.
  destruct (length (idiom_text field negated p1 sp1 f1 p2 sp2 f2 [] ++ tail));
    cbn [search_loop]; now rewrite E.
Qed.

End Idiom.

(** ** The operator of the idiom *)

Module IdiomOperator.

Import Frag Idiom.

Lemma split_fuel_hd (sep rest : str) :
  sep <> [] ->
  forall pre cur fuel,
    length (pre ++ sep ++ rest) < fuel ->
    (forall i, i < length pre ->
       Py.startswith (skipn i (pre ++ sep ++ rest)) sep = false) ->
    hd [] (Py.split_fuel fuel sep (pre ++ sep ++ rest) cur) = rev cur ++ pre.
Proof.
  intros Hsep. induction pre as [|c pre IH]; intros cur fuel Hfuel Hno.
  - destruct fuel as [|fuel]; [lia|]. cbn [app Py.split_fuel].
    destruct (sep ++ rest) as [|d t] eqn:E.
    + destruct sep; [congruence|discriminate E].
    + rewrite <- E, startswith_app. cbn [hd]. now rewrite app_nil_r.
  - destruct fuel as [|fuel]; [lia|]. cbn [app Py.split_fuel].
    assert (H0 := Hno 0 (Nat.lt_0_succ _)). cbn [skipn app] in H0. rewrite H0.
    rewrite IH.
    + cbn [rev]. now rewrite <- app_assoc.
    + cbn [app length] in Hfuel. lia.
    + intros i Hi. apply (Hno (S i)). simpl. lia.
Qed.

Lemma contains_suffix (sub s : str) (i : nat) :
  Py.contains sub s = false -> Py.startswith (skipn i s) sub = false.
Proof.
  revert i. induction s as [|c s IH]; intros i H.
  - destruct i; cbn [skipn]; cbn [Py.contains] in H;
      now apply orb_false_iff in H.
  - cbn [Py.contains] in H. apply orb_false_iff in H. destruct H as [H1 H2].
    destruct i as [|i]; [exact H1|]. cbn [skipn]. now apply IH.
Qed.

Definition between_word : str := str_of "BETWEEN".

(** in front of the first BETWEEN of the idiom stands the field, and NOT
    when the idiom is negated *)
Lemma before_between (F rest : str) (negated : bool) :
  Py.contains between_word F = false ->
  hd [] (Py.split between_word
           (F ++ " "%char :: str_of (if negated then "NOT " else "")
              ++ between_word ++ rest))
  = F ++ " "%char :: str_of (if negated then "NOT " else "").
Proof.
  intros HF. unfold Py.split.
  replace (F ++ " "%char :: str_of (if negated then "NOT " else "")
             ++ between_word ++ rest)
    with ((F ++ " "%char :: str_of (if negated then "NOT " else ""))
            ++ between_word ++ rest)
    by (rewrite <- app_assoc; reflexivity).
  rewrite split_fuel_hd; [reflexivity|discriminate|lia|].
  intros i Hi. rewrite <- app_assoc. cbn [app].
  destruct (Nat.lt_ge_cases i (length F)) as [Hlt|Hge].
  - rewrite skipn_app. replace (i - length F) with 0 by lia. cbn [skipn].
    eapply startswith_no_straddle; [reflexivity|reflexivity|].
    now apply contains_suffix.
  - rewrite skipn_app, skipn_all2 by lia. cbn [app].
    rewrite length_app in Hi.
    destruct negated; cbn [length str_of list_ascii_of_string] in Hi.
    + assert (Hc : i - length F = 0 \/ i - length F = 1 \/ i - length F = 2
                   \/ i - length F = 3 \/ i - length F = 4) by lia.
      destruct Hc as [->|[->|[->|[->| ->]]]]; reflexivity.
    + replace (i - length F) with 0 by lia. reflexivity.
Qed.

(** With a field that holds neither NOT nor BETWEEN in any letter case, the
    test the code makes finds NOT exactly in the negated idiom. *)
Lemma not_before_between_idiom (field : str) (negated : bool)
    (p1 sp1 f1 p2 sp2 f2 : str) :
  has_not field = false ->
  Py.contains between_word (Py.upper field) = false ->
  not_before_between (idiom_text field negated p1 sp1 f1 p2 sp2 f2 []) = negated.
Proof.
  intros Hn Hb. unfold not_before_between, idiom_text.
  rewrite upper_app. cbn [Py.upper map]. fold (Py.upper).
  change (Py.upper_char " "%char) with " "%char.
  set (rest := call_text p1 sp1 f1 (str_of " AND " ++ call_text p2 sp2 f2 [])).
  replace (map Py.upper_char
             (str_of (if negated then "NOT BETWEEN " else "BETWEEN ") ++ rest))
    with (str_of (if negated then "NOT " else "") ++ between_word
            ++ " "%char :: Py.upper rest)
    by (destruct negated; unfold Py.upper; rewrite map_app; reflexivity).
  fold between_word. rewrite before_between by exact Hb.
  destruct negated.
  - apply contains_app_r. reflexivity.
  - eapply contains_no_straddle; [reflexivity|reflexivity|exact Hn|reflexivity].
Qed.

End IdiomOperator.

(** ** The claims about the Clause Splitter *)

(** what the splitter returns for the idiom: the same dictionary as
    [to_date_condition], from the parts of the idiom *)
Definition idiom_condition (field : str) (is_not_between : bool)
    (p1 f1 p2 f2 : str) : dict :=
  let call p f := str_of "to_date(" ++ p ++ str_of ", '" ++ f ++ str_of "')" in
  [ (str_of "id", id_of 0);
    (str_of "field", PStr field);
    (str_of "operator",
       PStr (str_of (if is_not_between then "NOT BETWEEN" else "BETWEEN")));
    (str_of "operator_desc",
       PStr (if is_not_between then nao ++ str_of " entre" else str_of "entre"));
    (str_of "value", PList [PStr (call p1 f1); PStr (call p2 f2)]);
    (str_of "original_value", PList [PStr p1; PStr p2]);
    (str_of "type", PStr (str_of "date"));
    (str_of "is_function", PBool true);
    (str_of "function_name", PStr (str_of "to_date"));
    (str_of "format", PStr f1) ].


Section SplitterClaims.

Import Frag Idiom.

Variable sqlparse_format : bool -> str -> res str.
Variable sqlparse_parse : str -> res (list (list token)).
Variable py_repr : pyval -> str.


End SplitterClaims.

(** ** The splitter on concrete clauses *)

(** the token tree of [SELECT * FROM t WHERE<clause>]: the statement up to
    the WHERE group, and the group with its keyword and the clause *)
Definition select_from_t (clause : str) (query : str) : res (list (list token)) :=
  Ok [[Leaf (str_of "SELECT * FROM t "); 
       Group true [Leaf (str_of "WHERE"); Leaf clause]]].



(** Two more departures on single fragments of the patterns 2 to 5, of
    another kind: the splitter cuts a plain BETWEEN at its own AND, so that
    neither half is a condition and the clause comes back empty; and a field
    name that holds the letters NOT turns IS NULL into IS NOT NULL, since
    the matcher looks for NOT in the whole matched text. *)
Lemma round_trip_loses_between_and_null :
  (parse_sql_query format_unchanged (select_from_t (str_of " a BETWEEN 1 AND 2"))
     (str_of "SELECT * FROM t WHERE a BETWEEN 1 AND 2") = Ok []
   /\ construct_where_clause no_repr [] = Ok [])
  /\ (exists conditions,
        parse_sql_query format_unchanged (select_from_t (str_of " notes IS NULL"))
          (str_of "SELECT * FROM t WHERE notes IS NULL") = Ok conditions
        /\ construct_where_clause no_repr (map PDict conditions)
           = Ok (str_of "notes IS NOT NULL")).
Proof.
  split.
  - split; [vm_compute; reflexivity|reflexivity].
  - eexists. split; [vm_compute; reflexivity|]. vm_compute. reflexivity.
Qed.

(** * Further properties of the code *)

(** ** The clause builder: [construct_where_clause] *)

Lemma mapM_app (A B : Type) (f : A -> res B) (a b : list A) :
  mapM f (a ++ b) = (x <- mapM f a ;; y <- mapM f b ;; Ok (x ++ y)).
Proof.
  induction a as [|c a IH]; cbn [app mapM bind].
  - now destruct (mapM f b).
  - destruct (f c); cbn [bind]; [|reflexivity]. rewrite IH.
    destruct (mapM f a); cbn [bind]; [|reflexivity].
    now destruct (mapM f b).
Qed.

Lemma mapM_length (A B : Type) (f : A -> res B) (l : list A) (r : list B) :
  mapM f l = Ok r -> length r = length l.
Proof.
  revert r. induction l as [|a l IH]; intros r H; cbn [mapM] in H.
  - now injection H as <-.
  - destruct (f a); cbn [bind] in H; [|discriminate].
    destruct (mapM f l) as [bs|]; cbn [bind] in H; [|discriminate].
    injection H as <-. cbn [length]. now rewrite (IH bs eq_refl).
Qed.

Lemma join_app (sep : str) (a b : list str) :
  a <> [] -> b <> [] ->
  Py.join sep (a ++ b) = Py.join sep a ++ sep ++ Py.join sep b.
Proof.
  intros Ha Hb. induction a as [|x a IH]; [congruence|]. clear Ha.
  destruct a as [|y a].
  - cbn [app Py.join]. destruct b; [congruence|reflexivity].
  - change (Py.join sep ((x :: y :: a) ++ b))
      with (x ++ sep ++ Py.join sep ((y :: a) ++ b)).
    rewrite IH by discriminate.
    change (Py.join sep (x :: y :: a)) with (x ++ sep ++ Py.join sep (y :: a)).
    now rewrite <- !app_assoc.
Qed.

(** the keys of a condition that [construct_where_clause] reads *)
Definition keys_read : list string :=
  ["field"; "operator"; "value"; "type"; "is_function"].

Lemma one_of_cons (s : str) (x : string) (l : list string) :
  one_of s (x :: l) = str_eqb s (str_of x) || one_of s l.
Proof. reflexivity. Qed.

Lemma str_eqb_sym (a b : str) : str_eqb a b = str_eqb b a.
Proof.
  destruct (str_eqb a b) eqn:E.
  - apply str_eqb_eq in E. subst. now rewrite str_eqb_refl.
  - symmetry. apply str_eqb_neq. intros ->. now rewrite str_eqb_refl in E.
Qed.

Lemma dict_get_default_set_other (d : dict) (k k' : str) (v default : pyval) :
  str_eqb k k' = false ->
  Dict.get_default (Dict.set d k v) k' default = Dict.get_default d k' default.
Proof.
  intros H. unfold Dict.get_default. rewrite dict_get_set_other; [reflexivity|].
  intros ->. now rewrite str_eqb_refl in H.
Qed.

Lemma pystr_eqb_eq (v : pyval) (s : string) :
  pystr_eqb v s = true <-> v = PStr (str_of s).
Proof.
  destruct v; cbn [pystr_eqb]; try (split; [discriminate|discriminate]).
  rewrite str_eqb_eq. split; [now intros ->|now intros [= ->]].
Qed.

Section Builder.

Variable py_repr : pyval -> str.

Lemma where_part_set_other (d : dict) (k : str) (v : pyval) :
  one_of k keys_read = false ->
  where_part py_repr (PDict (Dict.set d k v)) = where_part py_repr (PDict d).
Proof.
  unfold keys_read. rewrite !one_of_cons. intros H.
  repeat (apply orb_false_iff in H; destruct H as [?H H]).
  unfold where_part. now rewrite !dict_get_default_set_other.
Qed.

(** X1: the clause of a list of conditions put together from two lists is
    the clause of the first, ' AND ', and the clause of the second; an
    exception raised for a condition of the first list comes before one of
    the second, and an empty list contributes nothing, not even the
    connective. *)
Theorem construct_where_clause_app (a b : list pyval) :
  construct_where_clause py_repr (a ++ b)
  = (x <- construct_where_clause py_repr a ;;
     y <- construct_where_clause py_repr b ;;
     Ok (match a, b with
         | [], _ => y
         | _, [] => x
         | _ :: _, _ :: _ => x ++ str_of " AND " ++ y
         end)).
Proof.
  unfold construct_where_clause. rewrite mapM_app.
  destruct (mapM (where_part py_repr) a) as [xs|e] eqn:Ea; cbn [bind]; [|reflexivity].
  destruct (mapM (where_part py_repr) b) as [ys|e] eqn:Eb; cbn [bind]; [|reflexivity].
  apply mapM_length in Ea, Eb. f_equal.
  destruct a as [|c a].
  - destruct xs; [reflexivity|discriminate].
  - destruct b as [|c' b].
    + destruct ys; [now rewrite app_nil_r|discriminate].
    + apply join_app; intros ->; discriminate.
Qed.

(** X2: [construct_where_clause] reads the keys field, operator, value, type
    and is_function of a condition and no other: setting any other key (id,
    operator_desc, original_value, function_name, format, ...) in every
    condition leaves the clause, or the exception, as it was. *)
Theorem construct_where_clause_reads_five_keys
    (conditions : list dict) (k : str) (v : pyval) :
  one_of k keys_read = false ->
  construct_where_clause py_repr (map (fun d => PDict (Dict.set d k v)) conditions)
  = construct_where_clause py_repr (map PDict conditions).
Proof.
  intros Hk. unfold construct_where_clause. f_equal.
  induction conditions as [|d l IH]; [reflexivity|].
  cbn [map mapM]. now rewrite where_part_set_other, IH.
Qed.

(** ** The Value Formatter: [format_value] *)

Definition number_or_bool (v : pyval) : Prop :=
  match v with
  | PBool _ | PInt _ | PFloat _ => True
  | _ => False
  end.

(** induction over a value and the values inside it *)
Lemma pyval_nested_ind (P : pyval -> Prop) :
  P PNone -> (forall b, P (PBool b)) -> (forall z, P (PInt z)) ->
  (forall f, P (PFloat f)) -> (forall s, P (PStr s)) ->
  (forall l, Forall P l -> P (PList l)) ->
  (forall d, Forall (fun kv => P (snd kv)) d -> P (PDict d)) ->
  forall v, P v.
Proof.
  intros Hn Hb Hz Hf Hs Hl Hd.
  fix IH 1. intros [|b|z|f|s|l|d].
  - exact Hn.
  - apply Hb.
  - apply Hz.
  - apply Hf.
  - apply Hs.
  - apply Hl. revert l. fix IHl 1. intros [|x l].
    + constructor.
    + constructor; [apply IH|apply IHl].
  - apply Hd. revert d. fix IHd 1. intros [|[k x] d].
    + constructor.
    + constructor; [apply IH|apply IHd].
Qed.

(** [str()] raises nothing but the ValueError of an int too long to print *)
Lemma str_call_raises (v : pyval) (e : exn) : str_call v = Raise e -> e = ValueError.
Proof.
  revert e. induction v as [|b|z|f|s|l IH|d IH] using pyval_nested_ind;
    intros e H; try discriminate H.
  - cbn [str_call] in H. destruct (int_prints z); [discriminate|congruence].
  - cbn [str_call] in H. induction IH as [|x l Hx _ IHl]; [discriminate|].
    cbn [fold_right] in H. destruct (str_call x) as [[]|e'] eqn:Ex; cbn [bind] in H.
    + now apply IHl.
    + injection H as <-. now apply Hx.
  - cbn [str_call] in H. induction IH as [|x l Hx _ IHl]; [discriminate|].
    cbn [fold_right] in H. destruct (str_call (snd x)) as [[]|e'] eqn:Ex; cbn [bind] in H.
    + now apply IHl.
    + injection H as <-. now apply Hx.
Qed.

Lemma str_call_cases (v : pyval) : str_call v = Ok tt \/ str_call v = Raise ValueError.
Proof.
  destruct (str_call v) as [[]|e] eqn:E; [now left|right].
  now rewrite (str_call_raises v E).
Qed.

(** X3: [format_value] raises in three cases only.  The logging line at its
    head prints the value and the declared type, which is a ValueError when
    one of them holds an integer of more than 4300 digits (None is answered
    before that line).  Past it, the type 'date' with a value that is a number
    or a boolean is a TypeError (the test for a quote in the value), and
    the type 'number' with an integer too large for a float is an
    OverflowError (which is not among the exceptions caught).  On None, on
    strings, and on lists and dictionaries that can be printed it always
    returns. *)
Theorem format_value_raises (value value_type : pyval) (e : exn) :
  format_value py_repr value value_type = Raise e
  <-> (value <> PNone /\ e = ValueError
       /\ (str_call value = Raise ValueError \/ str_call value_type = Raise ValueError))
      \/ (str_call value = Ok tt /\ value_type = PStr (str_of "date")
          /\ number_or_bool value /\ e = TypeError)
      \/ (str_call value = Ok tt /\ value_type = PStr (str_of "number")
          /\ e = OverflowError
          /\ exists z, value = PInt z /\ Float.int_fits z = false).
Proof.
  destruct (str_call_cases value) as [Pv|Pv].
  2:{ split.
      - intros H. left. destruct value; try discriminate Pv;
          unfold format_value in H; rewrite Pv in H; cbn [bind] in H;
          injection H as <-; (split; [discriminate|]); (split; [reflexivity|]);
          now left.
      - intros [(Hn & -> & _)|[(Hp & _)|(Hp & _)]]; try congruence.
        destruct value; try congruence; unfold format_value; now rewrite Pv. }
  destruct (str_call_cases value_type) as [Pt|Pt].
  2:{ split.
      - intros H. left. destruct value; try discriminate H;
          unfold format_value in H; rewrite Pv, Pt in H; cbn [bind] in H;
          injection H as <-; (split; [discriminate|]); (split; [reflexivity|]);
          now right.
      - intros [(Hn & -> & _)|[(_ & -> & _)|(_ & -> & _)]]; try discriminate Pt.
        destruct value; try congruence; unfold format_value; now rewrite Pv, Pt. }
  split.
  - intros H. right. unfold format_value in H.
    destruct (pystr_eqb value_type "number") eqn:En.
    + apply pystr_eqb_eq in En. subst value_type. right.
      destruct value as [|b|z|f|s|l|d]; try discriminate H;
        rewrite Pv in H; cbn [bind str_call] in H; try discriminate H.
      * cbn in H. destruct (Float.int_fits z) eqn:Ez; [discriminate|].
        cbn in H. injection H as <-. split; [exact Pv|].
        split; [reflexivity|]. split; [reflexivity|]. now exists z.
      * destruct (has_to_date (PStr s)); [discriminate|].
        destruct (pystr_eqb (PStr s) ""); [discriminate|].
        unfold Float.call in H. destruct (Float.literal s); discriminate.
    + destruct (pystr_eqb value_type "date") eqn:Ed.
      * apply pystr_eqb_eq in Ed. subst value_type. left.
        destruct value as [|b|z|f|s|l|d]; try discriminate H;
          rewrite Pv in H; cbn [bind str_call] in H;
          try (cbn in H; injection H as <-;
               split; [exact Pv|]; split; [reflexivity|]; split; [exact I|reflexivity]).
        -- destruct (has_to_date (PStr s)); [discriminate|].
           destruct (pystr_eqb (PStr s) ""); [discriminate|].
           cbn [quote_in bind] in H. destruct (negb _); discriminate.
        -- cbn in H. destruct (negb _); discriminate.
        -- cbn in H. destruct (negb _); discriminate.
      * destruct value; try discriminate H;
          rewrite Pv, Pt in H; cbn [bind] in H; try discriminate H.
        destruct (has_to_date _); discriminate.
  - intros [(_ & _ & [H|H])|[(_ & -> & Hv & ->)|(_ & -> & -> & z & -> & Hz)]];
      try congruence.
    + destruct value; try contradiction; unfold format_value; rewrite Pv; reflexivity.
    + unfold format_value. rewrite Pv. cbn. rewrite Hz. reflexivity.
Qed.

End Builder.

(** ** The Reconstructor: [reconstruct_sql_query] *)

Section KeepsOriginal.

Variable sqlparse_format : bool -> str -> res str.
Variable parse_template : str -> nat -> res (list template_part).
Variable py_repr : pyval -> str.

(** X4: when the clause cannot be built from the conditions, because
    [construct_where_clause] raises, [reconstruct_sql_query] returns the
    original statement unchanged: the fallback path builds the clause again
    and fails in the same way. *)
Theorem reconstruct_sql_query_keeps_original
    (original_query : str) (modified_conditions : list pyval) (e : exn) :
  construct_where_clause py_repr modified_conditions = Raise e ->
  reconstruct_sql_query sqlparse_format parse_template py_repr
    original_query modified_conditions = Ok original_query.
Proof.
  intros H. unfold reconstruct_sql_query, primary_path, fallback_path.
  rewrite H. cbn [bind].
  destruct (sqlparse_format true original_query) as [f|e']; cbn [bind try_except Exception];
    [|reflexivity].
  destruct (Re.re_search Patterns.where_pattern f); reflexivity.
Qed.

End KeepsOriginal.

(** a template parser that refuses every template *)
Definition no_template (template : str) (groups : nat) : res (list template_part) :=
  Raise ReError.

(** X2 on a condition whose id is set to 7. *)
Lemma construct_where_clause_reads_five_keys_witness :
  construct_where_clause no_repr
    (map (fun d => PDict (Dict.set d (str_of "id") (PInt 7)))
         [[(str_of "id", PInt 0); (str_of "field", PStr (str_of "a"));
           (str_of "operator", PStr (str_of "=")); (str_of "value", PStr (str_of "1"));
           (str_of "type", PStr (str_of "number"))]])
  = construct_where_clause no_repr
      (map PDict
         [[(str_of "id", PInt 0); (str_of "field", PStr (str_of "a"));
           (str_of "operator", PStr (str_of "=")); (str_of "value", PStr (str_of "1"));
           (str_of "type", PStr (str_of "number"))]]).
Proof.
  apply (@construct_where_clause_reads_five_keys no_repr
           [[(str_of "id", PInt 0); (str_of "field", PStr (str_of "a"));
             (str_of "operator", PStr (str_of "=")); (str_of "value", PStr (str_of "1"));
             (str_of "type", PStr (str_of "number"))]]
           (str_of "id") (PInt 7)).
  reflexivity.
Defined.

(** X4 on a date-typed condition whose value arrived as the number 5. *)
Lemma reconstruct_sql_query_keeps_original_witness :
  reconstruct_sql_query format_unchanged no_template no_repr
    (str_of "SELECT * FROM t WHERE d = '2024-01-01'")
    [PDict [(str_of "field", PStr (str_of "d")); (str_of "operator", PStr (str_of "="));
            (str_of "value", PInt 5); (str_of "type", PStr (str_of "date"))]]
  = Ok (str_of "SELECT * FROM t WHERE d = '2024-01-01'").
Proof.
  apply (@reconstruct_sql_query_keeps_original format_unchanged no_template no_repr
           (str_of "SELECT * FROM t WHERE d = '2024-01-01'")
           [PDict [(str_of "field", PStr (str_of "d"));
                   (str_of "operator", PStr (str_of "="));
                   (str_of "value", PInt 5); (str_of "type", PStr (str_of "date"))]]
           TypeError).
  reflexivity.
Defined.

(** ** What the parser returns, and what the builder makes of it *)

Definition is_str (v : pyval) : Prop :=
  match v with
  | PStr _ => True
  | _ => False
  end.

(** a value as the parser stores it: None, a string, or a list of strings *)
Definition parsed_value (v : pyval) : Prop :=
  match v with
  | PNone | PStr _ => True
  | PList l => Forall is_str l
  | _ => False
  end.

Definition value_types : list string := ["number"; "date"; "text"; "null"].

(** the shape of a condition dictionary *)
Definition well_formed (d : dict) : Prop :=
  (exists n, Dict.get d (str_of "id") = Some (id_of n))
  /\ (exists field, Dict.get d (str_of "field") = Some (PStr field))
  /\ (exists operator, Dict.get d (str_of "operator") = Some (PStr operator))
  /\ (exists desc, Dict.get d (str_of "operator_desc") = Some (PStr desc))
  /\ (exists value, Dict.get d (str_of "value") = Some value /\ parsed_value value)
  /\ (exists ty, Dict.get d (str_of "type") = Some (PStr (str_of ty))
                 /\ In ty value_types).

Lemma classify_value_type (s : str) : In (classify s) value_types.
Proof.
  unfold classify, value_types.
  destruct (Float.literal s); [now left|].
  destruct (existsb _ _); [right; now left|right; right; now left].
Qed.

Lemma well_formed_set_id (d : dict) (n : nat) :
  well_formed d -> well_formed (Dict.set d (str_of "id") (id_of n)).
Proof.
  intros (_ & Hf & Ho & Hd & Hv & Ht).
  split; [exists n; apply dict_get_set_same|].
  repeat split; rewrite dict_get_set_other; try assumption; discriminate.
Qed.

Lemma well_formed_desc (d : dict) :
  (exists n, Dict.get d (str_of "id") = Some (id_of n)) ->
  (exists field, Dict.get d (str_of "field") = Some (PStr field)) ->
  (exists operator, Dict.get d (str_of "operator") = Some (PStr operator)) ->
  (exists value, Dict.get d (str_of "value") = Some value /\ parsed_value value) ->
  (exists ty, Dict.get d (str_of "type") = Some (PStr (str_of ty))
              /\ In ty value_types) ->
  exists d', add_operator_desc d = Ok d' /\ well_formed d'.
Proof.
  intros Hi Hf (op & Ho) Hv Ht. unfold add_operator_desc, Dict.get_default.
  rewrite Ho. eexists. split; [reflexivity|].
  split; [|split; [|split; [|split; [|split]]]];
    try (rewrite dict_get_set_other by discriminate; eauto).
  eexists. apply dict_get_set_same.
Qed.

Lemma Forall_is_str_map (l : list str) (f : str -> str) :
  Forall is_str (map (fun v => PStr (f v)) l).
Proof. induction l; constructor; [exact I|assumption]. Qed.

Lemma to_date_condition_well_formed (text : str) (m : Re.match_obj) (n : nat) :
  well_formed (to_date_condition text m n).
Proof.
  unfold to_date_condition.
  split; [now exists n|]. split; [eexists; reflexivity|].
  split; [eexists; reflexivity|]. split; [eexists; reflexivity|].
  split; [eexists; split; [reflexivity|repeat constructor]|].
  exists "date". split; [reflexivity|]. right. now left.
Qed.

Lemma parse_condition_well_formed (condition : str) (condition_id : nat) (d : dict) :
  parse_condition condition condition_id = Ok (Some d) -> well_formed d.
Proof.
  unfold parse_condition.
  destruct (Re.re_match Patterns.to_date_pattern condition) as [m|].
  { intros [= <-]. apply to_date_condition_well_formed. }
  unfold patterns. cbn [first_pattern].
  destruct (Re.re_match Patterns.between_pattern condition) as [m|].
  { unfold between_handler. rewrite detect_value_type_str. cbn [bind].
    edestruct well_formed_desc as (d' & -> & Hd');
      [| | | | |intros [= <-]; exact Hd'];
      try (eexists; reflexivity).
    - eexists. split; [reflexivity|]. repeat constructor.
    - eexists. split; [reflexivity|]. apply classify_value_type. }
  destruct (Re.re_match Patterns.in_pattern condition) as [m|].
  { unfold in_handler. rewrite detect_value_type_str. cbn [bind].
    edestruct well_formed_desc as (d' & -> & Hd');
      [| | | | |intros [= <-]; exact Hd'];
      try (eexists; reflexivity).
    - eexists. split; [reflexivity|]. apply Forall_is_str_map.
    - eexists. split; [reflexivity|]. apply classify_value_type. }
  destruct (Re.re_match Patterns.null_pattern condition) as [m|].
  { unfold null_handler. cbn [bind].
    edestruct well_formed_desc as (d' & -> & Hd');
      [| | | | |intros [= <-]; exact Hd'];
      try (eexists; reflexivity).
    - eexists. split; [reflexivity|]. exact I.
    - exists "null". split; [reflexivity|]. right. right. right. now left. }
  destruct (Re.re_match Patterns.operator_pattern condition) as [m|].
  { unfold operator_handler. rewrite detect_value_type_str. cbn [bind].
    edestruct well_formed_desc as (d' & -> & Hd');
      [| | | | |intros [= <-]; exact Hd'];
      try (eexists; reflexivity).
    - eexists. split; [reflexivity|]. exact I.
    - eexists. split; [reflexivity|]. apply classify_value_type. }
  discriminate.
Qed.

(** What holds of every condition the Matcher returns, of the condition of
    the idiom, and still after an id is set, holds of every condition the
    Clause Splitter returns. *)
Section Invariant.

Variable P : dict -> Prop.
Hypothesis P_parsed :
  forall condition condition_id d,
    parse_condition condition condition_id = Ok (Some d) -> P d.
Hypothesis P_to_date : forall text m, P (to_date_condition text m 0).
Hypothesis P_set_id : forall d n, P d -> P (Dict.set d (str_of "id") (id_of n)).

Lemma parse_fragments_all (fragments : list str) (condition_id : nat) (l : list dict) :
  parse_fragments fragments condition_id = Ok l -> Forall P l.
Proof.
  revert condition_id l.
  induction fragments as [|f fragments IH]; intros condition_id l H;
    cbn [parse_fragments] in H.
  - injection H as <-. constructor.
  - destruct (nonempty (Py.strip f)); [|now apply IH in H].
    destruct (parse_condition (Py.strip f) condition_id) as [[d|]|e] eqn:E;
      cbn [bind] in H; [| now apply IH in H | discriminate].
    destruct (parse_fragments fragments (S condition_id)) as [l'|e] eqn:E';
      cbn [bind] in H; [|discriminate].
    injection H as <-. constructor; [now apply P_parsed in E|now apply IH in E'].
Qed.

Lemma renumber_all (start : nat) (l : list dict) :
  Forall P l -> Forall P (renumber start l).
Proof.
  intros H. revert start. induction H as [|d l Hd Hl IH]; intros start;
    cbn [renumber]; constructor; [now apply P_set_id|apply IH].
Qed.

Lemma extract_conditions_fuel_all (fuel : nat) (where_clause full_query : str)
    (l : list dict) :
  extract_conditions_fuel fuel where_clause full_query = Ok l -> Forall P l.
Proof.
  revert where_clause l. induction fuel as [|n IH]; intros c l H;
    cbn [extract_conditions_fuel] in H; [discriminate|].
  destruct (Re.re_search Patterns.to_date_pattern _) as [m|].
  - destruct (nonempty _).
    + destruct (extract_conditions_fuel n _ full_query) as [more|e] eqn:E;
        cbn [bind] in H; [|discriminate].
      injection H as <-. constructor; [apply P_to_date|].
      apply renumber_all. now apply IH in E.
    + injection H as <-. constructor; [apply P_to_date|constructor].
  - now apply parse_fragments_all in H.
Qed.

Lemma extract_conditions_all (where_clause full_query : str) (l : list dict) :
  extract_conditions where_clause full_query = Ok l -> Forall P l.
Proof. apply extract_conditions_fuel_all. Qed.

End Invariant.

Lemma extract_conditions_well_formed (where_clause full_query : str) (l : list dict) :
  extract_conditions where_clause full_query = Ok l -> Forall well_formed l.
Proof.
  apply extract_conditions_all.
  - apply parse_condition_well_formed.
  - intros text m. apply to_date_condition_well_formed.
  - intros d n. apply well_formed_set_id.
Qed.

(** what the parser stores can be printed *)
Lemma str_call_strs (l : list pyval) : Forall is_str l -> str_call (PList l) = Ok tt.
Proof.
  induction 1 as [|v l Hv Hl IH]; [reflexivity|].
  destruct v; try contradiction. exact IH.
Qed.

Lemma str_call_parsed (v : pyval) : parsed_value v -> str_call v = Ok tt.
Proof.
  destruct v as [| | | |s|l|]; try contradiction; try reflexivity.
  apply str_call_strs.
Qed.

Section Renders.

Variable py_repr : pyval -> str.

(** on None, a string, a list or a dictionary the Formatter returns, and
    for a string it returns a string *)
Lemma format_value_str (s value_type : str) :
  exists r, format_value py_repr (PStr s) (PStr value_type) = Ok (PStr r).
Proof.
  unfold format_value. cbn [str_call bind].
  destruct (has_to_date (PStr s)); [now exists s|].
  destruct (pystr_eqb (PStr value_type) "number").
  { destruct (pystr_eqb (PStr s) ""); [eexists; reflexivity|].
    unfold Float.call. destruct (Float.literal s); eexists; reflexivity. }
  destruct (pystr_eqb (PStr value_type) "date").
  { destruct (pystr_eqb (PStr s) ""); [eexists; reflexivity|].
    cbn [quote_in bind]. destruct (negb _); eexists; reflexivity. }
  eexists; reflexivity.
Qed.

Lemma format_value_parsed (v : pyval) (value_type : str) :
  parsed_value v -> exists r, format_value py_repr v (PStr value_type) = Ok r.
Proof.
  destruct v as [| | | |s|l|]; try contradiction; intros Hl.
  - eexists; reflexivity.
  - destruct (format_value_str s value_type) as (r & ->). now eexists.
  - unfold format_value. rewrite (str_call_strs Hl). cbn [str_call bind].
    change (has_to_date (PList l)) with false. cbv iota.
    destruct (pystr_eqb (PStr value_type) "number"); [eexists; reflexivity|].
    destruct (pystr_eqb (PStr value_type) "date"); [|eexists; reflexivity].
    cbn. destruct (negb _); eexists; reflexivity.
Qed.

Lemma format_values_str (l : list pyval) (value_type : str) :
  Forall is_str l ->
  exists rs, mapM (fun v => format_value py_repr v (PStr value_type)) l
             = Ok (map PStr rs).
Proof.
  induction 1 as [|v l Hv Hl (rs & IH)]; [now exists []|].
  destruct v; try contradiction.
  destruct (format_value_str s value_type) as (r & Hr).
  exists (r :: rs). cbn [mapM map]. now rewrite Hr, IH.
Qed.

Lemma join_values_str (sep : str) (rs : list str) :
  join_values sep (map PStr rs) = Ok (Py.join sep rs).
Proof.
  unfold join_values.
  assert (H : mapM (fun v => match v with PStr s => Ok s | _ => Raise TypeError end)
                   (map PStr rs) = Ok rs).
  { induction rs as [|r rs IH]; [reflexivity|]. cbn [map mapM bind]. now rewrite IH. }
  now rewrite H.
Qed.

Lemma where_part_well_formed (d : dict) :
  well_formed d -> exists part, where_part py_repr (PDict d) = Ok part.
Proof.
  intros (_ & (field & Hf) & (op & Ho) & _ & (value & Hv & Hp) & (ty & Ht & _)).
  unfold where_part, Dict.get_default. rewrite Hf, Ho, Hv, Ht.
  rewrite (str_call_parsed value Hp). cbn [str_call upper_of bind].
  destruct (one_of (Py.upper op) ["IS NULL"; "IS NOT NULL"]); [eexists; reflexivity|].
  assert (Hlast : exists part,
            (formatted <- format_value py_repr value (PStr (str_of ty)) ;;
             Ok ((py_str py_repr (PStr field) ++ str_of " " ++ py_str py_repr (PStr op))
                 ++ str_of " " ++ py_str py_repr formatted)) = Ok part).
  { destruct (@format_value_parsed value (str_of ty) Hp) as (r & ->). eexists; reflexivity. }
  assert (Hin : forall vs, value = PList vs ->
            exists part,
              (formatted <- mapM (fun v => format_value py_repr v (PStr (str_of ty))) vs ;;
               joined <- join_values (str_of ", ") formatted ;;
               Ok ((py_str py_repr (PStr field) ++ str_of " " ++ py_str py_repr (PStr op))
                   ++ str_of " (" ++ joined ++ str_of ")")) = Ok part).
  { intros vs ->. destruct (@format_values_str vs (str_of ty) Hp) as (rs & ->).
    cbn [bind]. rewrite join_values_str. eexists; reflexivity. }
  destruct (one_of (Py.upper op) ["BETWEEN"; "NOT BETWEEN"]).
  - destruct value as [| | | |s|l|]; try contradiction;
      try (destruct (one_of (Py.upper op) ["IN"; "NOT IN"]); exact Hlast).
    destruct l as [|v0 [|v1 [|v2 l]]];
      try (destruct (one_of (Py.upper op) ["IN"; "NOT IN"]);
           [now apply Hin|exact Hlast]).
    destruct (truthy _); [eexists; reflexivity|].
    cbn [parsed_value] in Hp. inversion Hp as [|? ? H0 Hp']; subst.
    inversion Hp' as [|? ? H1 _]; subst.
    destruct v0; try contradiction. destruct v1; try contradiction.
    destruct (format_value_str s (str_of ty)) as (r0 & ->).
    destruct (format_value_str s0 (str_of ty)) as (r1 & ->).
    eexists; reflexivity.
  - destruct (one_of (Py.upper op) ["IN"; "NOT IN"]); [|destruct value; exact Hlast].
    destruct value as [| | | |s|l|]; try contradiction; try exact Hlast.
    now apply Hin.
Qed.

Lemma construct_where_clause_well_formed (l : list dict) :
  Forall well_formed l ->
  exists clause, construct_where_clause py_repr (map PDict l) = Ok clause.
Proof.
  intros H. unfold construct_where_clause.
  assert (G : exists parts, mapM (where_part py_repr) (map PDict l) = Ok parts).
  { induction H as [|d l Hd Hl (parts & IH)]; [now exists []|].
    destruct (@where_part_well_formed d Hd) as (part & Hpart).
    exists (part :: parts). cbn [map mapM]. now rewrite Hpart, IH. }
  destruct G as (parts & ->). eexists; reflexivity.
Qed.

End Renders.

Section ParseThenBuild.

Variable sqlparse_format : bool -> str -> res str.
Variable sqlparse_parse : str -> res (list (list token)).
Variable py_repr : pyval -> str.

Lemma parse_sql_query_well_formed (query : str) :
  exists conditions,
    parse_sql_query sqlparse_format sqlparse_parse query = Ok conditions
    /\ Forall well_formed conditions.
Proof.
  rewrite parse_sql_query_locate. destruct (locate _ _ query) as [| |c f].
  - exists []. split; [reflexivity|constructor].
  - exists []. split; [reflexivity|constructor].
  - destruct (extract_conditions_terminates c f) as (l & Hl & _).
    exists l. split; [exact Hl|]. now apply extract_conditions_well_formed in Hl.
Qed.

(** X5: every condition [parse_sql_query] returns has the keys id, field,
    operator, operator_desc, value and type; id is a number, field, operator
    and operator_desc are strings, value is None, a string or a list of
    strings, and type is one of number, date, text and null. *)
Theorem parse_sql_query_conditions_well_formed (query : str) :
  exists conditions,
    parse_sql_query sqlparse_format sqlparse_parse query = Ok conditions
    /\ Forall (fun d =>
         (exists n, Dict.get d (str_of "id") = Some (PInt (Z.of_nat n)))
         /\ (exists field, Dict.get d (str_of "field") = Some (PStr field))
         /\ (exists operator, Dict.get d (str_of "operator") = Some (PStr operator))
         /\ (exists desc, Dict.get d (str_of "operator_desc") = Some (PStr desc))
         /\ (exists value, Dict.get d (str_of "value") = Some value
                           /\ parsed_value value)
         /\ (exists ty, Dict.get d (str_of "type") = Some (PStr (str_of ty))
                        /\ In ty ["number"; "date"; "text"; "null"]))
       conditions.
Proof. apply parse_sql_query_well_formed. Qed.

(** X6: the conditions [parse_sql_query] returns are always accepted by
    [construct_where_clause]: built from them unmodified, the clause is
    returned and no exception is raised, whatever the statement was. *)
Theorem parse_then_construct_never_raises (query : str) :
  exists conditions clause,
    parse_sql_query sqlparse_format sqlparse_parse query = Ok conditions
    /\ construct_where_clause py_repr (map PDict conditions) = Ok clause.
Proof.
  destruct (parse_sql_query_well_formed query) as (l & Hl & Hwf).
  destruct (@construct_where_clause_well_formed py_repr l Hwf) as (clause & Hc).
  now exists l, clause.
Qed.

End ParseThenBuild.

(** ** A clause of one word *)

Module OneWord.

Import Re Run.

(** leading white space, then characters that are none, then white space
    to the end: the text holds at most one word *)
Definition single_word (s : str) : bool :=
  forallb Py.isspace (Py.lstrip_by no_space (Py.lstrip_by Py.isspace s)).

Lemma no_space_isspace (c : ascii) : no_space c = negb (Py.isspace c).
Proof. reflexivity. Qed.

Lemma lstrip_by_all (p : ascii -> bool) (x y : str) :
  forallb p x = true -> Py.lstrip_by p (x ++ y) = Py.lstrip_by p y.
Proof.
  induction x as [|c x IH]; [reflexivity|]. cbn [forallb app Py.lstrip_by].
  intros H. apply andb_true_iff in H. destruct H as [-> H]. now apply IH.
Qed.

Lemma lstrip_by_none (p : ascii -> bool) (x : str) :
  forallb (fun c => negb (p c)) x = true -> Py.lstrip_by p x = x.
Proof.
  destruct x as [|c x]; [reflexivity|]. cbn [forallb Py.lstrip_by].
  intros H. apply andb_true_iff in H. destruct H as [H _].
  now destruct (p c).
Qed.

Lemma forallb_space_no_space (x : str) :
  forallb Py.isspace x = true -> forallb (fun c => negb (no_space c)) x = true.
Proof.
  intros H. rewrite forallb_forall in *. intros c Hc. unfold no_space.
  now rewrite (H c Hc).
Qed.

(** what is left after the word is white space *)
Definition word_ends (s : str) : bool :=
  forallb Py.isspace (Py.lstrip_by no_space s).

Lemma word_ends_single (s : str) : word_ends s = true -> single_word s = true.
Proof.
  unfold word_ends, single_word. destruct s as [|c s]; [reflexivity|].
  destruct (Py.isspace c) eqn:E.
  - assert (N : no_space c = false) by (unfold no_space; now rewrite E).
    cbn [Py.lstrip_by]. rewrite N, E. intros H.
    replace (Py.lstrip_by Py.isspace s) with (@nil ascii); [reflexivity|].
    cbn [forallb] in H. apply andb_true_iff in H. destruct H as [_ H].
    symmetry. rewrite <- (app_nil_r s). now apply lstrip_by_all.
  - cbn [Py.lstrip_by]. rewrite E. trivial.
Qed.

Lemma single_word_tl (c : ascii) (s : str) :
  single_word (c :: s) = true -> single_word s = true.
Proof.
  unfold single_word at 1. cbn [Py.lstrip_by].
  destruct (Py.isspace c) eqn:E; [trivial|].
  assert (N : no_space c = true) by (unfold no_space; now rewrite E).
  cbn [Py.lstrip_by]. rewrite N. apply word_ends_single.
Qed.

Lemma single_word_skipn (n : nat) (s : str) :
  single_word s = true -> single_word (skipn n s) = true.
Proof.
  revert s. induction n as [|n IH]; intros s H; [exact H|].
  destruct s as [|c s]; [exact H|]. cbn [skipn]. apply IH.
  now apply single_word_tl in H.
Qed.

Lemma forallb_firstn (A : Type) (p : A -> bool) (n : nat) (l : list A) :
  forallb p l = true -> forallb p (firstn n l) = true.
Proof.
  revert l. induction n as [|n IH]; intros [|a l] H; try reflexivity.
  cbn [firstn forallb] in *. apply andb_true_iff in H. destruct H as [-> H].
  now apply IH.
Qed.

Lemma word_ends_firstn (n : nat) (s : str) :
  word_ends s = true -> word_ends (firstn n s) = true.
Proof.
  unfold word_ends. revert s. induction n as [|n IH]; intros [|c s] H; try reflexivity.
  cbn [firstn Py.lstrip_by] in *. destruct (no_space c) eqn:E.
  - now apply IH.
  - change (forallb Py.isspace (firstn (S n) (c :: s)) = true).
    now apply forallb_firstn.
Qed.

Lemma single_word_firstn (n : nat) (s : str) :
  single_word s = true -> single_word (firstn n s) = true.
Proof.
  revert s. induction n as [|n IH]; intros [|c s] H; try reflexivity.
  unfold single_word in *. cbn [firstn Py.lstrip_by] in *.
  destruct (Py.isspace c) eqn:E.
  - now apply IH.
  - assert (N : no_space c = true) by (unfold no_space; now rewrite E).
    cbn [Py.lstrip_by] in *. rewrite N in *. now apply word_ends_firstn.
Qed.

(** the stripped text of one word holds no white space, and the other way
    round *)
Lemma single_word_strip (s : str) :
  single_word s = true -> forallb no_space (Py.strip s) = true.
Proof.
  unfold single_word, Py.strip, Py.strip_by, Py.rstrip_by.
  set (t := Py.lstrip_by Py.isspace s). intros H.
  destruct (RoundTrip.lstrip_by_split no_space t) as (core & Ht & Hcore).
  rewrite Ht, rev_app_distr.
  rewrite lstrip_by_all by (rewrite forallb_forall in *; intros c Hc; apply H;
                            now apply in_rev).
  rewrite lstrip_by_none.
  - now rewrite rev_involutive.
  - rewrite forallb_forall in *. intros c Hc. apply in_rev in Hc.
    specialize (Hcore c Hc). exact Hcore.
Qed.

Lemma strip_single_word (s : str) :
  forallb no_space (Py.strip s) = true -> single_word s = true.
Proof.
  unfold single_word, Py.strip, Py.strip_by, Py.rstrip_by.
  set (t := Py.lstrip_by Py.isspace s). intros H.
  destruct (RoundTrip.lstrip_by_split Py.isspace (rev t)) as (b & Ht & Hb).
  apply (f_equal (@rev ascii)) in Ht. rewrite rev_involutive, rev_app_distr in Ht.
  rewrite Ht, lstrip_by_all by exact H.
  rewrite lstrip_by_none.
  - rewrite forallb_forall in *. intros c Hc. apply Hb. now apply in_rev.
  - apply forallb_space_no_space. rewrite forallb_forall in *.
    intros c Hc. apply Hb. now apply in_rev.
Qed.

(** *** No pattern of the Matcher finds its white space *)

Lemma exec_chr_inv (p : ascii -> bool) (r : regex) (st : mstate) (k : cont)
    (x : mstate) :
  exec (Seq (Chr p) r) st k = Some x ->
  exists c t, rest st = c :: t /\ p c = true /\ exec r (consume c t st) k = Some x.
Proof.
  cbn [exec]. destruct (rest st) as [|c t]; [discriminate|].
  destruct (p c) eqn:E; [|discriminate]. intros H. now exists c, t.
Qed.

Lemma no_space_suffix (w t : str) :
  forallb no_space (w ++ t) = true -> stops Py.isspace t.
Proof.
  rewrite forallb_app. intros H. apply andb_true_iff in H. destruct H as [_ H].
  destruct t as [|c t]; [exact I|]. cbn [forallb] in H.
  apply andb_true_iff in H. destruct H as [H _]. now apply stops_space_no_space.
Qed.

(** "([^\s]+)\s+" and whatever follows, on a text without white space *)
Lemma field_needs_space (R : regex) (st : mstate) (k : cont) :
  forallb no_space (rest st) = true ->
  exec (Seq (Grp 1 (Plus true not_space)) (Seq Patterns.ws R)) st k = None.
Proof.
  intros Hs.
  destruct (exec (Seq (Grp 1 (Plus true not_space)) (Seq Patterns.ws R)) st k)
    as [x|] eqn:E; [exfalso|reflexivity].
  change (exec (Seq ?a ?b) ?st ?k) with (exec a st (fun st' => exec b st' k)) in E.
  destruct (ReFacts.exec_consumes _ _ _ E) as (st1 & w & [R1 _] & _ & K1).
  change (exec (Seq ?a ?b) ?st ?k) with (exec a st (fun st' => exec b st' k)) in K1.
  rewrite R1 in Hs. apply no_space_suffix in Hs.
  destruct st1 as [n1 r1 o1 c1]. cbn [rest] in Hs.
  rewrite exec_ws_stops in K1 by exact Hs. discriminate.
Qed.

Lemma parse_condition_one_word (condition : str) (condition_id : nat) :
  forallb no_space condition = true ->
  parse_condition condition condition_id = Ok None.
Proof.
  intros H.
  assert (M : forall R,
            re_match (Seq (Grp 1 (Plus true not_space)) (Seq Patterns.ws R)) condition
            = None).
  { intros R. unfold re_match, match_at. now rewrite field_needs_space. }
  unfold parse_condition.
  change Patterns.to_date_pattern with
    (Seq (Grp 1 (Plus true not_space))
       (Seq Patterns.ws
          (seqs [ Opt (Seq (lit_ci "NOT") Patterns.ws);
                  lit_ci "BETWEEN"; Patterns.ws; Patterns.to_date_call 2;
                  Patterns.ws; lit_ci "AND"; Patterns.ws; Patterns.to_date_call 4 ]))).
  rewrite M. unfold patterns. cbn [first_pattern].
  change Patterns.between_pattern with
    (Seq (Grp 1 (Plus true not_space))
       (Seq Patterns.ws
          (seqs [ Opt (Seq (lit "NOT") Patterns.ws);
                  lit "BETWEEN"; Patterns.ws; Grp 2 (Star false dot);
                  Patterns.ws; lit "AND"; Patterns.ws; Grp 3 (Star true dot) ]))).
  rewrite M.
  change Patterns.in_pattern with
    (Seq (Grp 1 (Plus true not_space))
       (Seq Patterns.ws
          (seqs [ Opt (Seq (lit "NOT") Patterns.ws);
                  lit "IN"; Patterns.ows; chr "("; Grp 2 (Star true dot); chr ")" ]))).
  rewrite M.
  change Patterns.null_pattern with
    (Seq (Grp 1 (Plus true not_space))
       (Seq Patterns.ws
          (seqs [ lit "IS"; Patterns.ws;
                  Opt (Seq (lit "NOT") Patterns.ws); lit "NULL" ]))).
  rewrite M.
  change Patterns.operator_pattern with
    (Seq (Grp 1 (Plus true not_space))
       (Seq Patterns.ws
          (seqs [ Grp 2 (alts [ lit_ci "="; lit_ci "!="; lit_ci "<>"; lit_ci ">";
                                lit_ci "<"; lit_ci ">="; lit_ci "<="; lit_ci "LIKE";
                                seqs [lit_ci "NOT"; Patterns.ws; lit_ci "LIKE"] ]);
                  Patterns.ws; Grp 3 (Star true dot) ]))).
  now rewrite M.
Qed.

(** *** The idiom needs three words *)

Lemma exec_seq_assoc (a b c : regex) (st : mstate) (k : cont) :
  exec (Seq (Seq a b) c) st k = exec (Seq a (Seq b c)) st k.
Proof. reflexivity. Qed.

Lemma lstrip_by_keeps (p : ascii -> bool) (x y : str) (d : ascii) :
  p d = false -> exists x', Py.lstrip_by p (x ++ d :: y) = x' ++ d :: y.
Proof.
  intros Hd. induction x as [|c x (x' & IH)]; cbn [app Py.lstrip_by].
  - exists []. now rewrite Hd.
  - destruct (p c); [now exists x'|now exists (c :: x)].
Qed.

Lemma no_gap (c d e : ascii) (w1 w2 z : str) :
  single_word (c :: w1 ++ d :: w2 ++ e :: z) = true ->
  Py.isspace c = false -> Py.isspace d = true -> Py.isspace e = false -> False.
Proof.
  intros H Hc Hd He. unfold single_word in H. cbn [Py.lstrip_by] in H.
  rewrite Hc in H. cbn [Py.lstrip_by] in H.
  assert (N : no_space c = true) by (unfold no_space; now rewrite Hc).
  rewrite N in H.
  destruct (@lstrip_by_keeps no_space w1 (w2 ++ e :: z) d) as (x' & E).
  { unfold no_space. now rewrite Hd. }
  rewrite E in H. rewrite forallb_app in H. apply andb_true_iff in H.
  destruct H as [_ H]. cbn [forallb] in H. apply andb_true_iff in H.
  destruct H as [_ H]. rewrite forallb_app in H. apply andb_true_iff in H.
  destruct H as [_ H]. cbn [forallb] in H. rewrite He in H. discriminate.
Qed.

Lemma lower_n_no_space (y : ascii) :
  Py.lower_char y = Py.lower_char "N" -> Py.isspace y = false.
Proof.
  destruct y as [[] [] [] [] [] [] [] []]; vm_compute; intros H;
    first [reflexivity | discriminate H].
Qed.

Lemma lower_b_no_space (y : ascii) :
  Py.lower_char y = Py.lower_char "B" -> Py.isspace y = false.
Proof.
  destruct y as [[] [] [] [] [] [] [] []]; vm_compute; intros H;
    first [reflexivity | discriminate H].
Qed.

Lemma to_date_needs_words (st : mstate) (k : cont) :
  single_word (rest st) = true -> exec Patterns.to_date_pattern st k = None.
Proof.
  intros Hs.
  destruct (exec Patterns.to_date_pattern st k) as [x|] eqn:E; [exfalso|reflexivity].
  change Patterns.to_date_pattern with
    (Seq (Grp 1 (Seq (Chr (fun c => negb (Py.isspace c))) (Star true not_space)))
       (Seq (Seq (Chr Py.isspace) (Star true space))
          (Seq (Alt (Seq (Seq (chr_ci "N") (Seq (chr_ci "O") (chr_ci "T"))) Patterns.ws)
                    Eps)
             (Seq (Seq (chr_ci "B") (lit_ci "ETWEEN"))
                (seqs [ Patterns.ws; Patterns.to_date_call 2;
                        Patterns.ws; lit_ci "AND"; Patterns.ws;
                        Patterns.to_date_call 4 ]))))) in E.
  set (REST := seqs [ Patterns.ws; Patterns.to_date_call 2;
                      Patterns.ws; lit_ci "AND"; Patterns.ws;
                      Patterns.to_date_call 4 ]) in E.
  change (exec (Seq (Grp 1 ?a) ?b) st k)
    with (exec a (open_group st) (close_group 1 (fun st' => exec b st' k))) in E.
  apply exec_chr_inv in E. destruct E as (c & t & Hrest & Hc & E).
  cbn [open_group rest] in Hrest.
  destruct (ReFacts.exec_consumes _ _ _ E) as (st1 & w1 & [R1 _] & _ & K1).
  cbn [consume rest] in R1. unfold close_group in K1.
  destruct (opened st1) as [|text outer]; [discriminate|].
  rewrite exec_seq_assoc in K1.
  apply exec_chr_inv in K1. destruct K1 as (d & t2 & Hrest1 & Hd & K1).
  cbn [rest] in Hrest1.
  change (exec (Seq ?a ?b) ?s ?kk) with (exec a s (fun st' => exec b st' kk)) in K1.
  destruct (ReFacts.exec_consumes _ _ _ K1) as (st2 & w2 & [R2 _] & _ & K2).
  cbn [consume rest] in R2.
  assert (He : exists e z, rest st2 = e :: z /\ Py.isspace e = false).
  { change (exec (Seq (Alt ?a Eps) ?b) ?s ?kk)
      with (or_else (exec a s (fun st' => exec b st' kk))
                    (fun _ => exec b s kk)) in K2.
    apply ReFacts.or_else_some in K2. destruct K2 as [K2|[_ K2]].
    - change (exec (Seq (Seq ?a ?b) ?c) ?s ?kk)
        with (exec (Seq a (Seq b c)) s kk) in K2.
      apply exec_chr_inv in K2. destruct K2 as (e & z & Hz & He & _).
      exists e, z. split; [exact Hz|].
      apply lower_n_no_space. now apply Ascii.eqb_eq.
    - rewrite exec_seq_assoc in K2.
      apply exec_chr_inv in K2. destruct K2 as (e & z & Hz & He & _).
      exists e, z. split; [exact Hz|].
      apply lower_b_no_space. now apply Ascii.eqb_eq. }
  destruct He as (e & z & Hz & He).
  rewrite Hrest, R1, Hrest1, R2, Hz in Hs.
  apply (@no_gap c d e w1 w2 z Hs); [|exact Hd|exact He].
  now destruct (Py.isspace c).
Qed.

Lemma to_date_search_one_word (s : str) :
  single_word s = true -> re_search Patterns.to_date_pattern s = None.
Proof.
  intros H. unfold re_search, search_from. cbn [Nat.leb].
  assert (M : forall j ma, match_at Patterns.to_date_pattern s j ma = None).
  { intros j ma. unfold match_at. rewrite to_date_needs_words; [reflexivity|].
    cbn [rest]. now apply single_word_skipn. }
  apply RoundTrip.search_loop_fails; [apply M|]. intros j _. apply M.
Qed.

(** *** What is left of the clause when the keyword is cut *)

Lemma leading_where_only_first (s : str) (j : nat) (ma : bool) :
  0 < j -> match_at Patterns.leading_where s j ma = None.
Proof. intros Hj. destruct j as [|j]; [lia|]. reflexivity. Qed.

(** "re.sub(r'^\s*WHERE\s+', '', s)" keeps [s] or cuts a front of it *)
Lemma leading_where_sub (s : str) :
  exists n, re_sub Patterns.leading_where (fun _ => []) s = skipn n s.
Proof.
  unfold re_sub, matches. cbn [matches_loop].
  destruct (search_from Patterns.leading_where s 0 false) as [m|] eqn:E.
  - destruct (ReFacts.search_from_inv _ _ _ _ E) as (_ & _ & Hend & Hmin & Hlen & _).
    assert (Hstart : m_start m = 0).
    { unfold search_from in E. cbn [Nat.leb] in E.
      destruct (ReFacts.search_loop_inv _ _ _ _ _ E) as (j & ma & _ & Hm).
      destruct j as [|j]; [|now rewrite leading_where_only_first in Hm by lia].
      now destruct (ReFacts.match_at_inv _ _ _ _ Hm) as (-> & _). }
    assert (Hpos : 0 < m_end m).
    { assert (6 <= length (m_text m)) by exact Hmin. lia. }
    assert (N : search_from Patterns.leading_where s (m_end m) (m_end m =? m_start m)
                = None).
    { unfold search_from. destruct (m_end m <=? length s); [|reflexivity].
      apply RoundTrip.search_loop_fails.
      - now apply leading_where_only_first.
      - intros j Hj. apply leading_where_only_first. lia. }
    rewrite N. cbn [sub_at]. rewrite Hstart. cbn [Nat.sub firstn skipn app].
    now exists (m_end m).
  - now exists 0.
Qed.

(** *** The pieces of a split are pieces of the subject *)

Lemma split_at_pieces (P : str -> Prop) (s : str) (last : nat) (ms : list match_obj) :
  (forall a b, P (firstn a (skipn b s))) -> Forall P (split_at s last ms).
Proof.
  intros H. revert last. induction ms as [|m ms IH]; intros last; cbn [split_at].
  - constructor; [|constructor]. rewrite <- (firstn_all (skipn last s)). apply H.
  - constructor; [apply H|apply IH].
Qed.

Lemma single_word_piece (s : str) (a b : nat) :
  single_word s = true -> single_word (firstn a (skipn b s)) = true.
Proof. intros H. now apply single_word_firstn, single_word_skipn. Qed.

Lemma fragments_one_word (s : str) :
  single_word s = true ->
  Forall (fun f => single_word f = true) (fragments_of s).
Proof.
  intros H. unfold fragments_of, re_split.
  assert (G : Forall (fun f => single_word f = true)
                (split_at s 0 (matches Patterns.and_pattern s))).
  { apply split_at_pieces. intros a b. now apply single_word_piece. }
  induction G as [|p l Hp Hl IH]; cbn [flat_map]; [constructor|].
  apply Forall_app. split; [|exact IH].
  apply split_at_pieces. intros a b. now apply single_word_piece.
Qed.

Lemma parse_fragments_one_word (fragments : list str) (condition_id : nat) :
  Forall (fun f => single_word f = true) fragments ->
  parse_fragments fragments condition_id = Ok [].
Proof.
  induction 1 as [|f l Hf Hl IH]; cbn [parse_fragments]; [reflexivity|].
  destruct (nonempty (Py.strip f)); [|exact IH].
  rewrite parse_condition_one_word by (now apply single_word_strip).
  cbn [bind]. exact IH.
Qed.

Lemma extract_conditions_one_word (where_clause full_query : str) :
  single_word where_clause = true ->
  extract_conditions where_clause full_query = Ok [].
Proof.
  intros H. rewrite extract_conditions_unfold. cbv zeta.
  destruct (leading_where_sub where_clause) as (n & ->).
  pose proof (single_word_skipn n _ H) as Hn.
  rewrite (to_date_search_one_word _ Hn).
  apply parse_fragments_one_word. now apply fragments_one_word.
Qed.

End OneWord.

Section OneWordClause.

Variable sqlparse_format : bool -> str -> res str.
Variable sqlparse_parse : str -> res (list (list token)).

(** X7: a WHERE clause written without white space inside, such as a=1 or
    name='x' (white space in front of it and behind it does not count),
    gives no condition at all: every pattern of the Matcher and the
    pattern of the idiom ask for white space behind the field. *)
Theorem parse_sql_query_needs_white_space
    (query where_clause formatted_query : str) :
  locate sqlparse_format sqlparse_parse query = Clause where_clause formatted_query ->
  forallb Run.no_space (Py.strip where_clause) = true ->
  extract_conditions where_clause formatted_query = Ok []
  /\ parse_sql_query sqlparse_format sqlparse_parse query = Ok [].
Proof.
  intros Hloc Hw. apply OneWord.strip_single_word in Hw.
  rewrite parse_sql_query_locate, Hloc.
  split; now apply OneWord.extract_conditions_one_word.
Qed.

End OneWordClause.

(** X7 on [SELECT * FROM t WHERE a=1]. *)
Lemma parse_sql_query_needs_white_space_witness :
  extract_conditions (str_of " a=1") (str_of "SELECT * FROM t WHERE a=1") = Ok []
  /\ parse_sql_query format_unchanged (select_from_t (str_of " a=1"))
       (str_of "SELECT * FROM t WHERE a=1") = Ok [].
Proof.
  apply (@parse_sql_query_needs_white_space format_unchanged
           (select_from_t (str_of " a=1")) (str_of "SELECT * FROM t WHERE a=1")
           (str_of " a=1") (str_of "SELECT * FROM t WHERE a=1")).
  - reflexivity.
  - reflexivity.
Defined.

(** ** Where the Reconstructor cuts the statement *)

Module Where.

Import Re Run.

(** "\s+WHERE\s+", the keyword in the middle of [where_pattern] *)
Definition keyword_pattern : regex :=
  seqs [Patterns.ws; lit_ci "WHERE"; Patterns.ws].

(** patterns without groups and without "^": whether they match depends
    on what is left of the subject and on nothing else *)
Fixpoint plain (r : regex) : bool :=
  match r with
  | Eps | Chr _ | Eol => true
  | Seq a b | Alt a b => plain a && plain b
  | Star _ a => plain a
  | Grp _ _ | Bol => false
  end.

(** [k0] goes on wherever [k] does *)
Definition weaker (k k0 : cont) : Prop :=
  forall st st0, rest st0 = rest st -> k st <> None -> k0 st0 <> None.

Definition body_weaker (body : mstate -> cont -> option mstate) : Prop :=
  forall st st0 k k0, rest st0 = rest st -> weaker k k0 ->
    body st k <> None -> body st0 k0 <> None.

Lemma or_else_not_none (a : option mstate) (b : unit -> option mstate) :
  or_else a b <> None -> a <> None \/ b tt <> None.
Proof. destruct a; cbn [or_else]; intros H; [left; discriminate|now right]. Qed.

Lemma or_else_left (a : option mstate) (b : unit -> option mstate) :
  a <> None -> or_else a b <> None.
Proof. destruct a; cbn [or_else]; [discriminate|congruence]. Qed.

Lemma or_else_right (a : option mstate) (b : unit -> option mstate) :
  b tt <> None -> or_else a b <> None.
Proof. destruct a; cbn [or_else]; [discriminate|trivial]. Qed.

Lemma star_loop_weaker (g : bool) (body : mstate -> cont -> option mstate)
    (fuel : nat) :
  body_weaker body -> body_weaker (star_loop g body fuel).
Proof.
  intros Hbody. induction fuel as [|n IH]; intros st st0 k k0 Hr Hk H;
    cbn [star_loop] in *.
  - now apply (Hk st).
  - assert (Hagain :
      body st (fun st' => star_loop g body n st' k) <> None ->
      body st0 (fun st' => star_loop g body n st' k0) <> None).
    { apply Hbody; [exact Hr|]. intros s s0 Hs. now apply IH. }
    destruct g; apply or_else_not_none in H; destruct H as [H|H].
    + apply or_else_left. now apply Hagain.
    + apply or_else_right. now apply (Hk st).
    + apply or_else_left. now apply (Hk st).
    + apply or_else_right. now apply Hagain.
Qed.

Lemma exec_weaker (r : regex) : plain r = true -> body_weaker (exec r).
Proof.
  induction r as [|p|a IHa b IHb|a IHa b IHb|g a IHa|n a IHa| |];
    intros Hp st st0 k k0 Hr Hk H; cbn [plain] in Hp; try discriminate;
    cbn [exec] in *.
  - now apply (Hk st).
  - rewrite Hr. destruct (rest st) as [|c t]; [congruence|].
    destruct (p c); [|congruence]. now apply (Hk (consume c t st)).
  - apply andb_true_iff in Hp. destruct Hp as [Ha Hb].
    apply (IHa Ha st st0 (fun st' => exec b st' k)); [exact Hr| |exact H].
    intros s s0 Hs. now apply IHb.
  - apply andb_true_iff in Hp. destruct Hp as [Ha Hb].
    apply or_else_not_none in H. destruct H as [H|H].
    + apply or_else_left. now apply (IHa Ha st st0 k).
    + apply or_else_right. now apply (IHb Hb st st0 k).
  - rewrite Hr.
    apply (@star_loop_weaker g (exec a) (length (rest st)) (IHa Hp) st st0 k k0);
      assumption.
  - rewrite Hr. destruct (rest st) as [|c [|c' t]] eqn:Er; [| |congruence].
    + apply (Hk st); [congruence|exact H].
    + destruct (Ascii.eqb c newline); [|congruence].
      apply (Hk st); [congruence|exact H].
Qed.

(** a greedy repetition stays where it is when the continuation fails at
    every later place *)
Lemma star_greedy_stay (p : ascii -> bool) (tail : str) :
  forall fuel n os cs k,
    (forall j, 1 <= j <= length tail ->
       k (fed (firstn j tail) n (skipn j tail) os cs) = None) ->
    star_loop true (exec (Chr p)) fuel (MState n tail os cs) k
    = k (MState n tail os cs).
Proof.
  induction tail as [|c t IH]; intros fuel n os cs k H.
  - destruct fuel; cbn [star_loop]; [reflexivity|].
    now rewrite exec_chr_stops by exact I.
  - destruct fuel; cbn [star_loop]; [reflexivity|].
    rewrite exec_chr_cons. destruct (p c); [|reflexivity].
    rewrite IH.
    + replace (k (MState (S n) t (map (cons c) os) cs)) with (@None mstate);
        [reflexivity|].
      symmetry. specialize (H 1). cbn [firstn skipn] in H.
      rewrite <- fed_cons, fed_nil in H. apply H. simpl. lia.
    + intros j Hj. rewrite fed_cons. apply (H (S j)). simpl. lia.
Qed.

(** A greedy repetition of a class over [w] and further: the continuation
    succeeds behind [w] and nowhere later, so that is where it ends. *)
Lemma star_greedy_last (p : ascii -> bool) (w tail : str) :
  forallb p w = true ->
  forall fuel n os cs k x,
    length w <= fuel ->
    k (fed w n tail os cs) = Some x ->
    (forall j, 1 <= j <= length tail ->
       k (fed (w ++ firstn j tail) n (skipn j tail) os cs) = None) ->
    star_loop true (exec (Chr p)) fuel (MState n (w ++ tail) os cs) k = Some x.
Proof.
  intros Hw. induction w as [|c w IH]; intros fuel n os cs k x Hfuel Hk Hlater.
  - cbn [app] in *. rewrite star_greedy_stay by exact Hlater.
    now rewrite fed_nil in Hk.
  - cbn [forallb] in Hw. apply andb_true_iff in Hw. destruct Hw as [Hc Hw].
    destruct fuel as [|fuel]; [simpl in Hfuel; lia|].
    cbn [star_loop app]. rewrite exec_chr_cons, Hc.
    rewrite (IH Hw fuel (S n) (map (cons c) os) cs k x); [reflexivity| | |].
    + simpl in Hfuel. lia.
    + now rewrite fed_cons.
    + intros j Hj. rewrite fed_cons. now apply Hlater.
Qed.

Lemma forallb_any (s : str) : forallb (fun _ : ascii => true) s = true.
Proof. induction s; [reflexivity|exact IHs]. Qed.

Lemma search_loop_first (r : regex) (s : str) (n i : nat) (ma : bool) (m : match_obj) :
  match_at r s i ma = Some m -> search_loop r s n i ma = Some m.
Proof. intros H. destruct n; cbn [search_loop]; now rewrite H. Qed.

Lemma lower_w_no_space (y : ascii) :
  Py.lower_char y = "w"%char -> Py.isspace y = false.
Proof.
  destruct y as [[] [] [] [] [] [] [] []]; vm_compute; intros H;
    first [reflexivity | discriminate H].
Qed.

Lemma exec_ws_one (w : ascii) (n : nat) (tail : str) (os : list str)
    (cs : list (nat * str)) (k : cont) :
  Py.isspace w = true -> stops Py.isspace tail ->
  exec Patterns.ws (MState n (w :: tail) os cs) k
  = k (MState (S n) tail (map (cons w) os) cs).
Proof.
  intros Hw H. unfold Patterns.ws, Plus, space.
  change (exec (Seq ?a ?b) ?st ?k) with (exec a st (fun st' => exec b st' k)).
  rewrite exec_chr_cons, Hw.
  change (exec (Star true ?a) ?st ?k)
    with (star_loop true (exec a) (length (rest st)) st k).
  now rewrite star_greedy_zero.
Qed.

Lemma lstrip_by_stops_at (p : ascii -> bool) (s : str) : stops p (Py.lstrip_by p s).
Proof.
  induction s as [|c s IH]; [exact I|]. cbn [Py.lstrip_by].
  destruct (p c) eqn:E; [exact IH|exact E].
Qed.

(** the rest of [where_pattern] behind its first group *)
Definition keyword_and_clause : regex :=
  Seq Patterns.ws (Seq (lit_ci "WHERE") (Seq Patterns.ws (Grp 2 (Star true dot_all)))).

(** in front of the keyword and what follows it, [keyword_and_clause]
    matches to the end and closes group 2 *)
Lemma keyword_and_clause_runs (n : nat) (kw after : str) (w1 w2 : ascii)
    (cs : list (nat * str)) :
  Py.isspace w1 = true -> Py.isspace w2 = true -> Py.lower kw = str_of "where" ->
  exists x text,
    exec keyword_and_clause (MState n (w1 :: kw ++ w2 :: after) [] cs)
         (fun st => Some st) = Some x
    /\ caps x = (2, text) :: cs.
Proof.
  intros H1 H2 Hkw.
  destruct kw as [|k1 [|k2 [|k3 [|k4 [|k5 [|k6 kw]]]]]]; try discriminate Hkw.
  injection Hkw as E1 E2 E3 E4 E5.
  destruct (RoundTrip.lstrip_by_split Py.isspace after) as (sp & Hafter & Hsp).
  pose proof (lstrip_by_stops_at Py.isspace after) as Hstop.
  set (core := Py.lstrip_by Py.isspace after) in *. clearbody core. subst after.
  unfold keyword_and_clause.
  change (exec (Seq ?a ?b) ?st ?k) with (exec a st (fun st' => exec b st' k)).
  cbn [app].
  rewrite exec_ws_one; [|exact H1|apply stops_space_no_space; unfold no_space;
                                  now rewrite (lower_w_no_space _ E1)].
  change (lit_ci "WHERE")
    with (Seq (chr_ci "W") (Seq (chr_ci "H") (Seq (chr_ci "E")
            (Seq (chr_ci "R") (chr_ci "E"))))).
  change (exec (Seq ?a ?b) ?st ?k) with (exec a st (fun st' => exec b st' k)).
  change (exec (Seq ?a ?b) ?st ?k) with (exec a st (fun st' => exec b st' k)).
  rewrite Idiom.exec_chr_ci by (rewrite E1; reflexivity).
  change (exec (Seq ?a ?b) ?st ?k) with (exec a st (fun st' => exec b st' k)).
  rewrite Idiom.exec_chr_ci by (rewrite E2; reflexivity).
  change (exec (Seq ?a ?b) ?st ?k) with (exec a st (fun st' => exec b st' k)).
  rewrite Idiom.exec_chr_ci by (rewrite E3; reflexivity).
  change (exec (Seq ?a ?b) ?st ?k) with (exec a st (fun st' => exec b st' k)).
  rewrite Idiom.exec_chr_ci by (rewrite E4; reflexivity).
  rewrite Idiom.exec_chr_ci by (rewrite E5; reflexivity).
  cbn [map].
  unfold Patterns.ws, Plus, space.
  change (exec (Seq ?a ?b) ?st ?k) with (exec a st (fun st' => exec b st' k)).
  change (exec (Seq ?a ?b) ?st ?k) with (exec a st (fun st' => exec b st' k)).
  rewrite exec_chr_cons, H2.
  change (exec (Star true ?a) ?st ?k)
    with (star_loop true (exec a) (length (rest st)) st k).
  cbn [rest map].
  eexists. eexists. split.
  - apply (@star_greedy_first Py.isspace sp core Hsp Hstop).
    + rewrite length_app. lia.
    + unfold fed. cbn [map].
      change (exec (Grp 2 (Star true dot_all)) ?st ?k)
        with (star_loop true (exec (Chr (fun _ => true))) (length (rest (open_group st)))
                (open_group st) (close_group 2 k)).
      unfold open_group. cbn [pos rest opened caps].
      rewrite <- (app_nil_r core) at 2.
      apply (@star_greedy_first (fun _ => true) core [] (forallb_any core) I).
      * try rewrite length_app; cbn [length]; lia.
      * unfold fed, close_group. cbn [opened map]. reflexivity.
  - reflexivity.
Qed.

(** after the place where [keyword_pattern] is not found any more,
    [keyword_and_clause] fails whatever follows it *)
Lemma keyword_and_clause_fails (s : str) (i : nat) (st : mstate) (k : cont) :
  re_search keyword_pattern s = None -> i <= length s -> rest st = skipn i s ->
  exec keyword_and_clause st k = None.
Proof.
  intros Hs Hi Hr. unfold re_search, search_from in Hs. cbn [Nat.leb] in Hs.
  rewrite Nat.sub_0_r in Hs.
  pose proof (@Split.search_loop_none keyword_pattern s (length s) 0 Hs i) as M.
  unfold match_at in M.
  destruct (exec keyword_pattern (MState i (skipn i s) [] []) _) as [y|] eqn:E.
  { assert (Some (Match i (pos y) (firstn (pos y - i) (skipn i s)) (caps y)) = None) as F
      by (apply M; lia).
    discriminate F. }
  clear M.
  destruct (exec keyword_and_clause st k) as [x|] eqn:F; [exfalso|reflexivity].
  change (exec keyword_and_clause st k)
    with (exec keyword_pattern st
            (fun st' => exec (Grp 2 (Star true dot_all)) st' k)) in F.
  revert E. apply (@exec_weaker keyword_pattern eq_refl st _
                     (fun st' => exec (Grp 2 (Star true dot_all)) st' k)).
  - cbn [rest]. now rewrite Hr.
  - intros s0 s1 _ _. cbn. discriminate.
  - now rewrite F.
Qed.

(** [where_pattern] on a statement cut at its last keyword: the first
    group is everything in front of the white space before the keyword *)
Lemma where_pattern_last (before kw after : str) (w1 w2 : ascii) :
  Py.isspace w1 = true -> Py.isspace w2 = true -> Py.lower kw = str_of "where" ->
  re_search keyword_pattern (kw ++ w2 :: after) = None ->
  exists m,
    re_search Patterns.where_pattern (before ++ w1 :: kw ++ w2 :: after) = Some m
    /\ group m 1 = before.
Proof.
  intros H1 H2 Hkw Hlast.
  destruct (@keyword_and_clause_runs (0 + length before) kw after w1 w2
              [(1, rev (rev before ++ []))] H1 H2 Hkw) as (x & text & Hx & Hcaps).
  exists (Match 0 (pos x)
            (firstn (pos x - 0) (skipn 0 (before ++ w1 :: kw ++ w2 :: after)))
            (caps x)).
  split.
  - unfold re_search, search_from. cbn [Nat.leb]. apply search_loop_first.
    unfold match_at.
    change Patterns.where_pattern
      with (Seq (Grp 1 (Star true (Chr (fun _ => true)))) keyword_and_clause).
    change (exec (Seq (Grp 1 (Star true ?a)) ?b) ?st ?k)
      with (star_loop true (exec a) (length (rest (open_group st))) (open_group st)
              (close_group 1 (fun st' => exec b st' k))).
    unfold open_group. cbn [pos rest opened caps skipn andb].
    rewrite (@star_greedy_last (fun _ => true) before (w1 :: kw ++ w2 :: after)
               (forallb_any before) _ 0 [[]] [] _ x); [reflexivity| | |].
    + rewrite length_app. lia.
    + unfold fed, close_group. cbn [opened map]. exact Hx.
    + intros j Hj. unfold fed, close_group. cbn [opened map].
      destruct j as [|j]; [lia|]. cbn [skipn].
      apply (@keyword_and_clause_fails (kw ++ w2 :: after) j); [exact Hlast| |reflexivity].
      cbn [length] in Hj. lia.
  - unfold group. cbn [m_caps]. rewrite Hcaps. cbn [lookup Nat.eqb].
    now rewrite app_nil_r, rev_involutive.
Qed.

(** *** A statement without the keyword *)

Lemma upper_lower_char (c : ascii) : Py.upper_char (Py.lower_char c) = Py.upper_char c.
Proof. destruct c as [[] [] [] [] [] [] [] []]; vm_compute; reflexivity. Qed.

Lemma upper_of_lower (w l : str) :
  map Py.lower_char w = map Py.lower_char l -> Py.upper w = Py.upper l.
Proof.
  revert l. induction w as [|c w IH]; intros [|d l] H; try discriminate H;
    [reflexivity|].
  cbn [map] in H. injection H as Hc Hw. unfold Py.upper. cbn [map].
  f_equal; [|now apply IH].
  now rewrite <- (upper_lower_char c), Hc, upper_lower_char.
Qed.

(** a literal under IGNORECASE takes a text that is the literal up to
    letter case *)
Lemma lit_ci_inv (l : str) :
  l <> [] ->
  forall (R : regex) (st : mstate) (k : cont) (x : mstate),
    exec (Seq (seqs (map chr_ci l)) R) st k = Some x ->
    exists w t, rest st = w ++ t /\ map Py.lower_char w = map Py.lower_char l.
Proof.
  induction l as [|a l IH]; [congruence|]. intros _ R st k x H.
  destruct l as [|b l].
  - cbn [map seqs] in H. apply OneWord.exec_chr_inv in H.
    destruct H as (c & t & Hr & Hc & _). apply Ascii.eqb_eq in Hc.
    exists [c], t. split; [exact Hr|]. cbn [map]. now rewrite Hc.
  - change (seqs (map chr_ci (a :: b :: l)))
      with (Seq (chr_ci a) (seqs (map chr_ci (b :: l)))) in H.
    rewrite OneWord.exec_seq_assoc in H. apply OneWord.exec_chr_inv in H.
    destruct H as (c & t & Hr & Hc & H). apply Ascii.eqb_eq in Hc.
    destruct (IH ltac:(discriminate) R _ k x H) as (w & t' & Hr' & Hw).
    cbn [consume rest] in Hr'. exists (c :: w), t'. split.
    + rewrite Hr, Hr'. reflexivity.
    + cbn [map]. now rewrite Hc, Hw.
Qed.

Lemma where_pattern_needs_keyword (s : str) (m : match_obj) :
  re_search Patterns.where_pattern s = Some m ->
  Py.contains (str_of "WHERE") (Py.upper s) = true.
Proof.
  intros H. unfold re_search, search_from in H. cbn [Nat.leb] in H.
  destruct (ReFacts.search_loop_inv _ _ _ _ _ H) as (j & ma & _ & Hm).
  unfold match_at in Hm.
  destruct (exec Patterns.where_pattern _ _) as [x|] eqn:E; [|discriminate].
  clear Hm H.
  change Patterns.where_pattern
    with (Seq (Grp 1 (Star true dot_all))
            (Seq Patterns.ws (Seq (lit_ci "WHERE")
               (Seq Patterns.ws (Grp 2 (Star true dot_all)))))) in E.
  change (exec (Seq ?a ?b) ?st ?k) with (exec a st (fun st' => exec b st' k)) in E.
  destruct (ReFacts.exec_consumes _ _ _ E) as (st1 & w1 & [R1 _] & _ & K1).
  change (exec (Seq ?a ?b) ?st ?k) with (exec a st (fun st' => exec b st' k)) in K1.
  destruct (ReFacts.exec_consumes _ _ _ K1) as (st2 & w2 & [R2 _] & _ & K2).
  change (lit_ci "WHERE") with (seqs (map chr_ci (str_of "WHERE"))) in K2.
  destruct (@lit_ci_inv (str_of "WHERE") ltac:(discriminate) _ _ _ _ K2)
    as (w & t & R3 & Hw).
  cbn [rest] in R1.
  rewrite <- (firstn_skipn j s), R1, R2, R3.
  unfold Py.upper. rewrite !map_app. fold (Py.upper w).
  rewrite (@upper_of_lower w (str_of "WHERE") Hw).
  change (Py.upper (str_of "WHERE")) with (str_of "WHERE").
  repeat rewrite app_assoc. rewrite <- (app_assoc _ (str_of "WHERE")).
  apply contains_app.
Qed.

End Where.

Section LastWhere.

Variable sqlparse_format : bool -> str -> res str.
Variable parse_template : str -> nat -> res (list template_part).
Variable py_repr : pyval -> str.

(** X8: let the formatted statement be cut at its last WHERE keyword that
    stands between white space (any letter case): [before], one character
    of white space, the keyword, one of white space, [after], with no such
    keyword further on.  As long as the clause can be built,
    [reconstruct_sql_query] returns [before], ' WHERE ' and the new clause:
    the text in front of the last keyword is kept, whatever it holds, the
    keyword is written in upper case between two blanks, and everything
    behind it, GROUP BY and ORDER BY included, is dropped. *)
Theorem reconstruct_sql_query_cuts_at_last_where
    (original_query formatted_query before kw after : str) (w1 w2 : ascii)
    (modified_conditions : list pyval) (new_where_clause : str) :
  sqlparse_format true original_query = Ok formatted_query ->
  formatted_query = before ++ w1 :: kw ++ w2 :: after ->
  Py.isspace w1 = true -> Py.isspace w2 = true -> Py.lower kw = str_of "where" ->
  Re.re_search Where.keyword_pattern (kw ++ w2 :: after) = None ->
  construct_where_clause py_repr modified_conditions = Ok new_where_clause ->
  reconstruct_sql_query sqlparse_format parse_template py_repr
    original_query modified_conditions
  = Ok (before ++ str_of " WHERE " ++ new_where_clause).
Proof.
  intros Hf -> H1 H2 Hkw Hlast Hc.
  destruct (@Where.where_pattern_last before kw after w1 w2 H1 H2 Hkw Hlast)
    as (m & Hm & Hg).
  unfold reconstruct_sql_query, primary_path.
  rewrite Hf. cbn [bind]. rewrite Hm, Hc. cbn [bind try_except]. now rewrite Hg.
Qed.

(** X9: when the formatted statement does not hold the letters WHERE, in
    any letter case, [reconstruct_sql_query] returns the original statement
    as it was given, not the formatted one, and does not look at the
    conditions. *)
Theorem reconstruct_sql_query_without_where
    (original_query formatted_query : str) (modified_conditions : list pyval) :
  sqlparse_format true original_query = Ok formatted_query ->
  Py.contains (str_of "WHERE") (Py.upper formatted_query) = false ->
  reconstruct_sql_query sqlparse_format parse_template py_repr
    original_query modified_conditions
  = Ok original_query.
Proof.
  intros Hf Hw. unfold reconstruct_sql_query, primary_path.
  rewrite Hf. cbn [bind].
  destruct (Re.re_search Patterns.where_pattern formatted_query) as [m|] eqn:E;
    [|reflexivity].
  apply Where.where_pattern_needs_keyword in E. congruence.
Qed.

End LastWhere.

(** X8 on a statement with a subquery and an ORDER BY. *)
Lemma reconstruct_sql_query_cuts_at_last_where_witness :
  reconstruct_sql_query format_unchanged no_template no_repr
    (str_of "SELECT * FROM t WHERE b IN (SELECT x FROM u where y = 2) ORDER BY b")
    [condition_of "a" "=" "5" "number"]
  = Ok (str_of "SELECT * FROM t WHERE b IN (SELECT x FROM u" ++ str_of " WHERE "
        ++ str_of "a = 5").
Proof.
  apply (@reconstruct_sql_query_cuts_at_last_where format_unchanged no_template no_repr
           (str_of "SELECT * FROM t WHERE b IN (SELECT x FROM u where y = 2) ORDER BY b")
           (str_of "SELECT * FROM t WHERE b IN (SELECT x FROM u where y = 2) ORDER BY b")
           (str_of "SELECT * FROM t WHERE b IN (SELECT x FROM u")
           (str_of "where") (str_of "y = 2) ORDER BY b") " "%char " "%char
           [condition_of "a" "=" "5" "number"] (str_of "a = 5")).
  - reflexivity.
  - reflexivity.
  - reflexivity.
  - reflexivity.
  - reflexivity.
  - vm_compute. reflexivity.
  - vm_compute. reflexivity.
Defined.

(** X9 on a statement without a WHERE clause. *)
Lemma reconstruct_sql_query_without_where_witness :
  reconstruct_sql_query format_unchanged no_template no_repr
    (str_of "SELECT * FROM t ORDER BY b") [condition_of "a" "=" "5" "number"]
  = Ok (str_of "SELECT * FROM t ORDER BY b").
Proof.
  apply (@reconstruct_sql_query_without_where format_unchanged no_template no_repr
           (str_of "SELECT * FROM t ORDER BY b") (str_of "SELECT * FROM t ORDER BY b")
           [condition_of "a" "=" "5" "number"]).
  - reflexivity.
  - vm_compute. reflexivity.
Defined.

(** ** The to_date idiom, parsed and built again *)

Module IdiomRoundTrip.

Import Re Run Frag Idiom.

Lemma replace_fuel_nil (n : nat) (old new : str) : Py.replace_fuel n old new [] = [].
Proof. destruct n; reflexivity. Qed.

(** removing a text from itself leaves nothing *)
Lemma replace_self (s : str) : Py.replace s [] s = [].
Proof.
  destruct s as [|c t]; [reflexivity|]. unfold Py.replace.
  change (length (c :: t)) with (S (length t)). cbn [Py.replace_fuel].
  rewrite <- (app_nil_r (c :: t)) at 1. rewrite startswith_app.
  rewrite skipn_all. cbn [app]. apply replace_fuel_nil.
Qed.

Lemma to_date_condition_idiom (text field p1 f1 p2 f2 : str) (n i e : nat) (t : str) :
  field_ok field -> param_ok p1 -> param_ok p2 -> format_ok f1 -> format_ok f2 ->
  to_date_condition text
    (Match i e t [(5, f2); (4, p2); (3, f1); (2, p1); (1, field)]) n
  = Dict.set (idiom_condition field (not_before_between text) p1 f1 p2 f2)
             (str_of "id") (id_of n).
Proof.
  intros Hfield Hp1 Hp2 Hf1 Hf2.
  unfold to_date_condition, idiom_condition, group.
  cbn [m_caps lookup Nat.eqb].
  destruct Hp1 as (_ & _ & T1). destruct Hp2 as (_ & _ & T2).
  destruct Hf1 as (_ & _ & T3). destruct Hf2 as (_ & _ & T4).
  rewrite (strip_trimmed T1), (strip_trimmed T2), (strip_trimmed T3),
    (strip_trimmed T4), (strip_field field (proj2 Hfield)).
  reflexivity.
Qed.

Lemma extract_conditions_idiom (field : str) (negated : bool)
    (p1 sp1 f1 p2 sp2 f2 full_query : str) :
  field_ok field -> param_ok p1 -> param_ok p2 -> format_ok f1 -> format_ok f2 ->
  forallb Py.isspace sp1 = true -> forallb Py.isspace sp2 = true ->
  re_match Patterns.leading_where (idiom_text field negated p1 sp1 f1 p2 sp2 f2 [])
  = None ->
  extract_conditions (idiom_text field negated p1 sp1 f1 p2 sp2 f2 []) full_query
  = Ok [idiom_condition field
          (not_before_between (idiom_text field negated p1 sp1 f1 p2 sp2 f2 []))
          p1 f1 p2 f2].
Proof.
  intros Hfield Hp1 Hp2 Hf1 Hf2 Hsp1 Hsp2 Hw.
  rewrite extract_conditions_unfold. cbv zeta.
  rewrite (@RoundTrip.leading_where_absent _ Hw).
  pose proof (@idiom_search field negated p1 sp1 f1 p2 sp2 f2 []
                Hfield Hp1 Hp2 Hf1 Hf2 Hsp1 Hsp2) as Hs.
  rewrite app_nil_r in Hs. rewrite Hs. cbn [m_text].
  rewrite replace_self. cbn [Py.strip Py.strip_by Py.rstrip_by Py.lstrip_by rev nonempty].
  now rewrite (@to_date_condition_idiom _ field p1 f1 p2 f2 0 _ _ _
                 Hfield Hp1 Hp2 Hf1 Hf2).
Qed.

Section Build.

Variable py_repr : pyval -> str.

Lemma where_part_idiom (field : str) (b : bool) (p1 f1 p2 f2 : str) :
  where_part py_repr (PDict (idiom_condition field b p1 f1 p2 f2))
  = Ok (idiom_text field b p1 (str_of " ") f1 p2 (str_of " ") f2 []).
Proof.
  unfold idiom_text, call_text.
  destruct b; cbn -[app]; f_equal; repeat rewrite <- app_assoc; reflexivity.
Qed.

End Build.

End IdiomRoundTrip.

Section IdiomBuiltAgain.

Import Frag Idiom.

Variable py_repr : pyval -> str.

(** X10: the idiom
    [<field> [NOT] BETWEEN to_date(<p1>,'<f1>') AND to_date(<p2>,'<f2>')]
    alone, with any white space behind its commas, is parsed into one
    condition, and the clause built from that condition is the idiom again
    with one blank behind each comma, the second format included: written
    with single blanks, the idiom comes back unchanged.  (Field without
    white space, NOT or BETWEEN in it and not the word WHERE; parameters and
    formats without white space around them.) *)
Theorem to_date_idiom_round_trip (field : str) (negated : bool)
    (p1 sp1 f1 p2 sp2 f2 full_query : str) :
  field_ok field -> param_ok p1 -> param_ok p2 -> format_ok f1 -> format_ok f2 ->
  forallb Py.isspace sp1 = true -> forallb Py.isspace sp2 = true ->
  Re.re_match Patterns.leading_where (idiom_text field negated p1 sp1 f1 p2 sp2 f2 [])
  = None ->
  has_not field = false ->
  Py.contains (str_of "BETWEEN") (Py.upper field) = false ->
  exists condition,
    extract_conditions (idiom_text field negated p1 sp1 f1 p2 sp2 f2 []) full_query
    = Ok [condition]
    /\ construct_where_clause py_repr [PDict condition]
       = Ok (idiom_text field negated p1 (str_of " ") f1 p2 (str_of " ") f2 []).
Proof.
  intros Hfield Hp1 Hp2 Hf1 Hf2 Hsp1 Hsp2 Hw Hn Hb.
  eexists. split.
  - now apply IdiomRoundTrip.extract_conditions_idiom.
  - unfold construct_where_clause. cbn [mapM].
    rewrite IdiomRoundTrip.where_part_idiom. cbn [bind Py.join].
    now rewrite IdiomOperator.not_before_between_idiom.
Qed.

End IdiomBuiltAgain.

(** X10 on [dt NOT BETWEEN to_date(:a,'YYYY-MM-DD') AND to_date(:b,  'DD/MM/YYYY')]. *)
Lemma to_date_idiom_round_trip_witness :
  exists condition,
    extract_conditions
      (Idiom.idiom_text (str_of "dt") true (str_of ":a") [] (str_of "YYYY-MM-DD")
         (str_of ":b") (str_of "  ") (str_of "DD/MM/YYYY") []) []
    = Ok [condition]
    /\ construct_where_clause no_repr [PDict condition]
       = Ok (Idiom.idiom_text (str_of "dt") true (str_of ":a") (str_of " ")
               (str_of "YYYY-MM-DD") (str_of ":b") (str_of " ")
               (str_of "DD/MM/YYYY") []).
Proof.
  apply (@to_date_idiom_round_trip no_repr (str_of "dt") true (str_of ":a") []
           (str_of "YYYY-MM-DD") (str_of ":b") (str_of "  ") (str_of "DD/MM/YYYY") []).
  - split; [discriminate|reflexivity].
  - split; [discriminate|split; [reflexivity|split; reflexivity]].
  - split; [discriminate|split; [reflexivity|split; reflexivity]].
  - split; [discriminate|split; [reflexivity|split; reflexivity]].
  - split; [discriminate|split; [reflexivity|split; reflexivity]].
  - reflexivity.
  - reflexivity.
  - vm_compute. reflexivity.
  - vm_compute. reflexivity.
  - vm_compute. reflexivity.
Defined.

(** ** The Value Typer on quoted values and on digits *)

Module Typer.

Import Re Run.

Lemma rstrip_by_head (p : ascii -> bool) (c : ascii) (y : str) :
  p c = false -> exists y', Py.rstrip_by p (c :: y) = c :: y'.
Proof.
  intros Hc. unfold Py.rstrip_by. cbn [rev].
  destruct (@OneWord.lstrip_by_keeps p (rev y) [] c Hc) as (x' & ->).
  exists (rev x'). now rewrite rev_app_distr.
Qed.

Lemma strip_by_head (p : ascii -> bool) (c : ascii) (y : str) :
  p c = false -> exists y', Py.strip_by p (c :: y) = c :: y'.
Proof.
  intros Hc. unfold Py.strip_by. cbn [Py.lstrip_by]. rewrite Hc.
  now apply rstrip_by_head.
Qed.

(** [float()] refuses a text that begins with a single quote *)
Lemma literal_quote (y : str) : Float.literal (squote :: y) = false.
Proof.
  unfold Float.literal.
  destruct (@strip_by_head Float.isspace squote y eq_refl) as (z & ->).
  assert (A : forall z, Float.accepts Float.decimal (squote :: z)
                        || Float.accepts Float.inf_or_nan (squote :: z) = false)
    by reflexivity.
  destruct (Py.mem "_" (squote :: z)); [|apply A].
  destruct (Float.underscores_ok Ascii.zero (squote :: z)); [|reflexivity].
  change (Float.drop_underscores (squote :: z))
    with (squote :: Float.drop_underscores z).
  apply A.
Qed.

(** and so does [strptime] under each of the six formats *)
Lemma parses_quote (y : str) :
  existsb (Strptime.parses (squote :: y)) date_patterns = false.
Proof. reflexivity. Qed.

Lemma classify_quote (y : str) : classify (squote :: y) = "text".
Proof. unfold classify. now rewrite literal_quote, parses_quote. Qed.

(** *** Digits *)

Lemma digit_facts (d : ascii) :
  Py.isdigit d = true ->
  Float.isspace d = false /\ Ascii.eqb "_" d = false
  /\ Ascii.eqb "+" d = false /\ Ascii.eqb "-" d = false.
Proof.
  destruct d as [[] [] [] [] [] [] [] []]; vm_compute; intros H;
    first [discriminate H | repeat split].
Qed.

Lemma digits_strip (s : str) :
  forallb Py.isdigit s = true -> Py.strip_by Float.isspace s = s.
Proof.
  intros H. rewrite forallb_forall in H.
  apply Frag.strip_by_stops; apply Frag.stops_all.
  - intros c Hc. now apply digit_facts, H.
  - intros c Hc. apply digit_facts, H. now apply in_rev.
Qed.

Lemma digits_no_underscore (s : str) :
  forallb Py.isdigit s = true -> Py.mem "_" s = false.
Proof.
  induction s as [|d s IH]; [reflexivity|]. cbn [forallb]. intros H.
  apply andb_true_iff in H. destruct H as [Hd Hs].
  unfold Py.mem in *. cbn [existsb].
  destruct (digit_facts d Hd) as (_ & -> & _). now apply IH.
Qed.

Lemma digits_accepted (s : str) :
  s <> [] -> forallb Py.isdigit s = true -> Float.accepts Float.decimal s = true.
Proof.
  intros Hne H. destruct s as [|d s]; [congruence|]. clear Hne.
  cbn [forallb] in H. apply andb_true_iff in H. destruct H as [Hd Hs].
  destruct (digit_facts d Hd) as (_ & _ & Hplus & Hminus).
  unfold Float.accepts.
  assert (E : exists x,
            exec Float.decimal (MState 0 (d :: s) [] [])
              (fun st => match rest st with [] => Some st | _ => None end) = Some x).
  { unfold Float.decimal, Float.sign, Opt. cbn [seqs alts].
    rewrite Idiom.exec_seq, Idiom.exec_alt, Idiom.exec_alt.
    unfold chr at 1. rewrite exec_chr_cons, Hplus. cbn [or_else].
    unfold chr at 1. rewrite exec_chr_cons, Hminus. cbn [or_else].
    rewrite Idiom.exec_eps, Idiom.exec_seq, Idiom.exec_alt.
    eexists. apply Idiom.or_else_first.
    unfold Plus at 1. rewrite Idiom.exec_seq, Idiom.exec_seq.
    unfold digit at 1. rewrite exec_chr_cons, Hd.
    change (exec (Star true digit) ?st ?k)
      with (star_loop true (exec (Chr Py.isdigit)) (length (rest st)) st k).
    cbn [rest map]. rewrite <- (app_nil_r s) at 2.
    apply (@star_greedy_first Py.isdigit s [] Hs I).
    - lia.
    - reflexivity. }
  destruct E as (x & ->). reflexivity.
Qed.

Lemma literal_digits (s : str) :
  s <> [] -> forallb Py.isdigit s = true -> Float.literal s = true.
Proof.
  intros Hne H. unfold Float.literal.
  rewrite (digits_strip _ H), (digits_no_underscore _ H), (digits_accepted Hne H).
  reflexivity.
Qed.

End Typer.

Section TypedAgain.

Variable py_repr : pyval -> str.

(** X11: a value that begins with a single quote is typed text, whatever
    follows the quote: neither [float()] nor one of the six date formats
    accepts the quote.  So the literal that the Formatter makes of a text
    value is typed text when it is typed again, a number or a date between
    quotes included. *)
Theorem quoted_value_is_text :
  (forall y, detect_value_type (PStr (squote :: y)) = Ok (str_of "text"))
  /\ (forall s, has_to_date (PStr s) = false ->
        (v <- format_value py_repr (PStr s) (PStr (str_of "text")) ;;
         detect_value_type v) = Ok (str_of "text")).
Proof.
  assert (Q : forall y, detect_value_type (PStr (squote :: y)) = Ok (str_of "text")).
  { intros y. rewrite detect_value_type_str. now rewrite Typer.classify_quote. }
  split; [exact Q|].
  intros s Hs. unfold format_value. rewrite Hs.
  change (pystr_eqb (PStr (str_of "text")) "number") with false.
  change (pystr_eqb (PStr (str_of "text")) "date") with false.
  cbv iota. cbn [bind py_str]. unfold quoted. apply Q.
Qed.

(** X12: a string of decimal digits is typed number, so a compact date
    such as 20240101, a code with leading zeros or a key kept as text comes
    back from the Formatter without quotes. *)
Theorem digits_are_numbers (s : str) :
  s <> [] -> forallb Py.isdigit s = true ->
  detect_value_type (PStr s) = Ok (str_of "number")
  /\ format_pass py_repr (PStr s) = Ok (PStr s).
Proof.
  intros Hne H. pose proof (Typer.literal_digits Hne H) as L.
  split.
  - rewrite detect_value_type_str. unfold classify. now rewrite L.
  - now apply format_pass_number.
Qed.

End TypedAgain.

(** X11 on the text 5, which becomes '5'. *)
Lemma quoted_value_is_text_witness :
  (v <- format_value no_repr (PStr (str_of "5")) (PStr (str_of "text")) ;;
   detect_value_type v) = Ok (str_of "text").
Proof.
  apply (proj2 (quoted_value_is_text no_repr) (str_of "5")). reflexivity.
Defined.

(** X12 on 00123. *)
Lemma digits_are_numbers_witness :
  detect_value_type (PStr (str_of "00123")) = Ok (str_of "number")
  /\ format_pass no_repr (PStr (str_of "00123")) = Ok (PStr (str_of "00123")).
Proof.
  apply (@digits_are_numbers no_repr (str_of "00123")).
  - discriminate.
  - reflexivity.
Defined.

(** ** The pattern for a plain BETWEEN behind the split on AND *)

Module Between.

Import Re Run Split.

(** the first match a scan finds is the leftmost one *)
Lemma search_loop_leftmost (r : regex) (s : str) (n i : nat) (m : match_obj) :
  search_loop r s n i false = Some m ->
  exists j, i <= j <= i + n /\ match_at r s j false = Some m
            /\ forall j', i <= j' < j -> match_at r s j' false = None.
Proof.
  revert i. induction n as [|n IH]; intros i H; cbn [search_loop] in H.
  - destruct (match_at r s i false) eqn:E; [|discriminate].
    injection H as ->. exists i. split; [lia|]. split; [exact E|]. intros; lia.
  - destruct (match_at r s i false) eqn:E.
    + injection H as ->. exists i. split; [lia|]. split; [exact E|]. intros; lia.
    + destruct (IH _ H) as (j & Hj & Hm & Hleft). exists j.
      split; [lia|]. split; [exact Hm|]. intros j' Hj'.
      destruct (Nat.eq_dec j' i) as [->|Hne]; [exact E|]. apply Hleft. lia.
Qed.

(** the row of classes [ps] is found nowhere in [x] *)
Definition row_free (ps : list (ascii -> bool)) (x : str) : Prop :=
  forall q, window ps (skipn q x) = false.

Lemma window_firstn (ps : list (ascii -> bool)) (k : nat) (y : str) :
  window ps (firstn k y) = true -> window ps y = true.
Proof.
  intros H. rewrite <- (firstn_skipn k y). now apply window_app_true.
Qed.

Lemma row_free_skipn (ps : list (ascii -> bool)) (b : nat) (x : str) :
  row_free ps x -> row_free ps (skipn b x).
Proof. intros H q. rewrite skipn_skipn. apply H. Qed.

Lemma row_free_firstn (ps : list (ascii -> bool)) (a : nat) (x : str) :
  row_free ps x -> row_free ps (firstn a x).
Proof.
  intros H q. rewrite skipn_firstn_comm.
  destruct (window ps (firstn (a - q) (skipn q x))) eqn:E; [|reflexivity].
  apply window_firstn in E. now rewrite H in E.
Qed.

Lemma row_free_piece (ps : list (ascii -> bool)) (a b : nat) (x : str) :
  row_free ps x -> row_free ps (firstn a (skipn b x)).
Proof. intros H. now apply row_free_firstn, row_free_skipn. Qed.

Section RowPieces.

Variable r : regex.
Variable ps : list (ascii -> bool).
Hypothesis r_row : forall st k, exec r st k = exec (row ps) st k.
Hypothesis ps_length : 0 < length ps.

Lemma window_short (x : str) : length x < length ps -> window ps x = false.
Proof.
  intros H. destruct (window ps x) eqn:E; [|reflexivity].
  apply window_length in E. lia.
Qed.

Lemma split_pieces_free (s : str) (fuel i : nat) :
  i <= length s -> length s - i < fuel ->
  Forall (row_free ps) (split_at s i (matches_loop r s fuel i false)).
Proof.
  revert i. induction fuel as [|fuel IH]; intros i Hi Hfuel; [lia|].
  cbn [matches_loop]. unfold search_from.
  replace (i <=? length s) with true by (symmetry; now apply Nat.leb_le).
  destruct (search_loop r s (length s - i) i false) as [m|] eqn:E.
  - destruct (search_loop_leftmost _ _ _ _ E) as (j & Hj & Hm & Hleft).
    rewrite (match_at_row r ps r_row) in Hm.
    destruct (window ps (skipn j s)) eqn:W; [|discriminate].
    injection Hm as <-. cbn [split_at m_start m_end].
    pose proof (window_length _ _ W) as L. rewrite length_skipn in L.
    replace (j + length ps =? j) with false by (symmetry; apply Nat.eqb_neq; lia).
    constructor.
    + intros q. rewrite skipn_firstn_comm.
      destruct (window ps (firstn (j - i - q) (skipn q (skipn i s)))) eqn:F;
        [exfalso|reflexivity].
      pose proof (window_length _ _ F) as LF.
      pose proof (firstn_le_length (j - i - q) (skipn q (skipn i s))) as LQ.
      apply window_firstn in F. rewrite skipn_skipn in F.
      assert (N : match_at r s (q + i) false = None) by (apply Hleft; lia).
      rewrite (match_at_row r ps r_row), F in N. discriminate.
    + apply IH; lia.
  - cbn [split_at]. constructor; [|constructor].
    intros q. rewrite skipn_skipn.
    destruct (Nat.le_gt_cases (q + i) (length s)) as [Hq|Hq].
    + pose proof (@search_loop_none r s (length s - i) i E (q + i)) as N.
      rewrite (match_at_row r ps r_row) in N.
      destruct (window ps (skipn (q + i) s)); [|reflexivity].
      assert (Some (Match (q + i) (q + i + length ps)
                      (firstn (length ps) (skipn (q + i) s)) []) = None) as F
        by (apply N; lia).
      discriminate F.
    + apply window_short. rewrite length_skipn. lia.
Qed.

(** no piece that [re.split] returns holds the row *)
Lemma re_split_free (s : str) : Forall (row_free ps) (re_split r s).
Proof. unfold re_split, matches. apply split_pieces_free; lia. Qed.

End RowPieces.

(** *** Stripping takes a piece *)

Lemma lstrip_by_skipn (p : ascii -> bool) (s : str) :
  exists b, Py.lstrip_by p s = skipn b s.
Proof.
  induction s as [|c s (b & IH)]; [now exists 0|]. cbn [Py.lstrip_by].
  destruct (p c); [now exists (S b)|now exists 0].
Qed.

Lemma strip_piece (s : str) : exists a b, Py.strip s = firstn a (skipn b s).
Proof.
  unfold Py.strip, Py.strip_by, Py.rstrip_by.
  destruct (lstrip_by_skipn Py.isspace s) as (b & ->).
  destruct (lstrip_by_skipn Py.isspace (rev (skipn b s))) as (a & ->).
  rewrite skipn_rev, rev_involutive. now eexists _, b.
Qed.

(** *** The pattern needs an AND between white space *)

(** what a repetition of a class takes is made of the class *)
Lemma star_chr_run (g : bool) (p : ascii -> bool) (fuel : nat) :
  forall st k x,
    star_loop g (exec (Chr p)) fuel st k = Some x ->
    exists w st1, rest st = w ++ rest st1 /\ forallb p w = true /\ k st1 = Some x.
Proof.
  induction fuel as [|n IH]; intros st k x H; cbn [star_loop] in H.
  - now exists [], st.
  - assert (Hagain :
      exec (Chr p) st (fun st' => star_loop g (exec (Chr p)) n st' k) = Some x ->
      exists w st1, rest st = w ++ rest st1 /\ forallb p w = true /\ k st1 = Some x).
    { cbn [exec]. destruct (rest st) as [|c t]; [discriminate|].
      destruct (p c) eqn:Hc; [|discriminate]. intros Hs.
      destruct (IH _ _ _ Hs) as (w & st1 & Hr & Hw & Hk).
      cbn [consume rest] in Hr. exists (c :: w), st1.
      split; [now rewrite Hr|]. split; [cbn [forallb]; now rewrite Hc|exact Hk]. }
    destruct g; apply ReFacts.or_else_some in H; destruct H as [H|[_ H]]; auto;
      now exists [], st.
Qed.

(** "\s+" takes white space, and at least one character of it *)
Lemma ws_run (R : regex) (st : mstate) (k : cont) (x : mstate) :
  exec (Seq Patterns.ws R) st k = Some x ->
  exists w st1, w <> [] /\ forallb Py.isspace w = true
                /\ rest st = w ++ rest st1 /\ exec R st1 k = Some x.
Proof.
  unfold Patterns.ws, Plus, space. rewrite OneWord.exec_seq_assoc. intros H.
  apply OneWord.exec_chr_inv in H. destruct H as (c & t & Hr & Hc & H).
  change (exec (Seq (Star true ?a) ?b) ?s ?kk)
    with (star_loop true (exec a) (length (rest s)) s (fun st' => exec b st' kk)) in H.
  destruct (star_chr_run _ _ _ _ _ H) as (w & st1 & Hr1 & Hw & Hk).
  cbn [consume rest] in Hr1. exists (c :: w), st1.
  split; [discriminate|]. split; [cbn [forallb]; now rewrite Hc|].
  split; [now rewrite Hr, Hr1|exact Hk].
Qed.

Lemma between_needs_and (st : mstate) (k : cont) (x : mstate) :
  exec Patterns.between_pattern st k = Some x ->
  exists q, window RoundTrip.and_row (skipn q (rest st)) = true.
Proof.
  intros E.
  change Patterns.between_pattern with
    (Seq (Grp 1 (Plus true not_space))
       (Seq Patterns.ws
          (Seq (Opt (Seq (lit "NOT") Patterns.ws))
             (Seq (lit "BETWEEN")
                (Seq Patterns.ws
                   (Seq (Grp 2 (Star false dot))
                      (Seq Patterns.ws
                         (Seq (Seq (chr "A") (Seq (chr "N") (chr "D")))
                            (Seq Patterns.ws (Grp 3 (Star true dot))))))))))) in E.
  change (exec (Seq ?a ?b) st k) with (exec a st (fun st' => exec b st' k)) in E.
  destruct (ReFacts.exec_consumes _ _ _ E) as (s1 & w1 & [R1 _] & _ & K1). clear E.
  change (exec (Seq ?a ?b) s1 k) with (exec a s1 (fun st' => exec b st' k)) in K1.
  destruct (ReFacts.exec_consumes _ _ _ K1) as (s2 & w2 & [R2 _] & _ & K2). clear K1.
  change (exec (Seq ?a ?b) s2 k) with (exec a s2 (fun st' => exec b st' k)) in K2.
  destruct (ReFacts.exec_consumes _ _ _ K2) as (s3 & w3 & [R3 _] & _ & K3). clear K2.
  change (exec (Seq ?a ?b) s3 k) with (exec a s3 (fun st' => exec b st' k)) in K3.
  destruct (ReFacts.exec_consumes _ _ _ K3) as (s4 & w4 & [R4 _] & _ & K4). clear K3.
  change (exec (Seq ?a ?b) s4 k) with (exec a s4 (fun st' => exec b st' k)) in K4.
  destruct (ReFacts.exec_consumes _ _ _ K4) as (s5 & w5 & [R5 _] & _ & K5). clear K4.
  change (exec (Seq ?a ?b) s5 k) with (exec a s5 (fun st' => exec b st' k)) in K5.
  destruct (ReFacts.exec_consumes _ _ _ K5) as (s6 & w6 & [R6 _] & _ & K6). clear K5.
  apply ws_run in K6. destruct K6 as (sp & s7 & Hne & Hsp & R7 & K7).
  rewrite OneWord.exec_seq_assoc in K7.
  apply OneWord.exec_chr_inv in K7. destruct K7 as (a & t8 & R8 & Ha & K8).
  rewrite OneWord.exec_seq_assoc in K8.
  apply OneWord.exec_chr_inv in K8. destruct K8 as (n & t9 & R9 & Hn & K9).
  apply OneWord.exec_chr_inv in K9. destruct K9 as (d & t10 & R10 & Hd & K10).
  apply ws_run in K10. destruct K10 as (sp' & s11 & Hne' & Hsp' & R11 & _).
  cbn [consume rest] in R9, R10, R11.
  apply Ascii.eqb_eq in Ha, Hn, Hd. subst a n d.
  destruct (exists_last Hne) as (sp0 & l & ->).
  rewrite forallb_app in Hsp. apply andb_true_iff in Hsp. destruct Hsp as [_ Hl].
  cbn [forallb] in Hl. apply andb_true_iff in Hl. destruct Hl as [Hl _].
  destruct sp' as [|e sp']; [congruence|].
  cbn [forallb] in Hsp'. apply andb_true_iff in Hsp'. destruct Hsp' as [He _].
  exists (length (w1 ++ w2 ++ w3 ++ w4 ++ w5 ++ w6 ++ sp0)).
  rewrite R1, R2, R3, R4, R5, R6, R7, R8, R9, R10, R11.
  replace (w1 ++ w2 ++ w3 ++ w4 ++ w5 ++ w6 ++ (sp0 ++ [l])
           ++ "A"%char :: "N"%char :: "D"%char :: (e :: sp') ++ rest s11)
    with ((w1 ++ w2 ++ w3 ++ w4 ++ w5 ++ w6 ++ sp0)
          ++ l :: "A"%char :: "N"%char :: "D"%char :: e :: sp' ++ rest s11)
    by (repeat rewrite <- app_assoc; reflexivity).
  rewrite skipn_app_length. cbn [RoundTrip.and_row window].
  rewrite Hl, He. reflexivity.
Qed.

Lemma between_fails_free (x : str) :
  row_free RoundTrip.and_row x -> re_match Patterns.between_pattern x = None.
Proof.
  intros H. unfold re_match, match_at.
  destruct (exec Patterns.between_pattern _ _) as [y|] eqn:E; [exfalso|reflexivity].
  apply between_needs_and in E. destruct E as (q & E). cbn [rest skipn] in E.
  now rewrite H in E.
Qed.

(** every fragment of the generic path is free of "\sAND\s", stripped or
    not *)
Lemma fragments_free (where_clause : str) :
  Forall (fun f => row_free RoundTrip.and_row (Py.strip f)) (fragments_of where_clause).
Proof.
  unfold fragments_of.
  pose proof (@re_split_free Patterns.and_pattern RoundTrip.and_row
                RoundTrip.and_pattern_row ltac:(cbn; lia) where_clause) as G.
  induction G as [|p l Hp Hl IH]; cbn [flat_map]; [constructor|].
  apply Forall_app. split; [|exact IH].
  unfold re_split. apply OneWord.split_at_pieces. intros a b.
  destruct (strip_piece (firstn a (skipn b p))) as (a' & b' & ->).
  now apply row_free_piece, row_free_piece.
Qed.

End Between.

(** X13: the generic path of [extract_conditions] cuts the clause at every
    AND between white space before it hands the fragments to
    [parse_condition]; no fragment holds such an AND any more, so the
    pattern for a plain BETWEEN, which asks for one, matches none of them:
    for a clause [a BETWEEN 1 AND 2] the Matcher sees [a BETWEEN 1] and [2],
    never the condition. *)
Theorem plain_between_never_matches (where_clause : str) :
  Forall (fun or_part =>
            Re.re_match Patterns.between_pattern (Py.strip or_part) = None)
         (fragments_of where_clause).
Proof.
  apply Forall_impl with (2 := Between.fragments_free where_clause).
  intros f. apply Between.between_fails_free.
Qed.

(** ** No plain BETWEEN comes out of the parser *)

(** What holds of the condition of the idiom and of every condition the
    Matcher makes of a fragment of the generic path, and still after an id
    is set, holds of every condition the Clause Splitter returns. *)
Section FragmentInvariant.

Variable P : dict -> Prop.
Hypothesis P_fragment :
  forall where_clause or_part condition_id d,
    In or_part (fragments_of where_clause) ->
    parse_condition (Py.strip or_part) condition_id = Ok (Some d) -> P d.
Hypothesis P_to_date : forall text m, P (to_date_condition text m 0).
Hypothesis P_set_id : forall d n, P d -> P (Dict.set d (str_of "id") (id_of n)).

Lemma parse_fragments_some (Q : str -> Prop) (fragments : list str)
    (condition_id : nat) (l : list dict) :
  (forall f id d, Q f -> parse_condition (Py.strip f) id = Ok (Some d) -> P d) ->
  Forall Q fragments ->
  parse_fragments fragments condition_id = Ok l -> Forall P l.
Proof.
  intros HQ HF. revert condition_id l.
  induction HF as [|f fragments Hf HF IH]; intros condition_id l H;
    cbn [parse_fragments] in H.
  - injection H as <-. constructor.
  - destruct (nonempty (Py.strip f)); [|now apply IH in H].
    destruct (parse_condition (Py.strip f) condition_id) as [[d|]|e] eqn:E;
      cbn [bind] in H; [| now apply IH in H | discriminate].
    destruct (parse_fragments fragments (S condition_id)) as [l'|e] eqn:E';
      cbn [bind] in H; [|discriminate].
    injection H as <-. constructor; [now apply (HQ f condition_id)|now apply IH in E'].
Qed.

Lemma extract_conditions_fuel_some (fuel : nat) (where_clause full_query : str)
    (l : list dict) :
  extract_conditions_fuel fuel where_clause full_query = Ok l -> Forall P l.
Proof.
  revert where_clause l. induction fuel as [|n IH]; intros c l H;
    cbn [extract_conditions_fuel] in H; [discriminate|].
  destruct (Re.re_search Patterns.to_date_pattern _) as [m|].
  - destruct (nonempty _).
    + destruct (extract_conditions_fuel n _ full_query) as [more|e] eqn:E;
        cbn [bind] in H; [|discriminate].
      injection H as <-. constructor; [apply P_to_date|].
      apply renumber_all; [exact P_set_id|]. now apply IH in E.
    + injection H as <-. constructor; [apply P_to_date|constructor].
  - set (c' := Re.re_sub Patterns.leading_where (fun _ => []) c) in *.
    revert H. apply parse_fragments_some with (Q := fun f => In f (fragments_of c')).
    + intros f id d Hf. now apply (P_fragment c').
    + now apply Forall_forall.
Qed.

End FragmentInvariant.

(** a condition with the operator BETWEEN or NOT BETWEEN and a list as
    value carries the mark of the idiom *)
Definition between_is_idiom (d : dict) : Prop :=
  forall operator bounds,
    Dict.get d (str_of "operator") = Some (PStr operator) ->
    one_of operator ["BETWEEN"; "NOT BETWEEN"] = true ->
    Dict.get d (str_of "value") = Some (PList bounds) ->
    Dict.get d (str_of "is_function") = Some (PBool true).

Lemma add_operator_desc_get (result d : dict) (k : str) :
  add_operator_desc result = Ok d -> str_of "operator_desc" <> k ->
  Dict.get d k = Dict.get result k.
Proof.
  unfold add_operator_desc. destruct (Dict.get_default _ _ _); try discriminate.
  intros [= <-] Hk. now apply dict_get_set_other.
Qed.

Lemma fragment_between_is_idiom (where_clause or_part : str) (condition_id : nat)
    (d : dict) :
  In or_part (fragments_of where_clause) ->
  parse_condition (Py.strip or_part) condition_id = Ok (Some d) ->
  between_is_idiom d.
Proof.
  intros Hin. pose proof (Between.fragments_free where_clause) as F.
  rewrite Forall_forall in F. specialize (F _ Hin).
  apply Between.between_fails_free in F.
  unfold parse_condition.
  destruct (Re.re_match Patterns.to_date_pattern _) as [m|].
  { intros [= <-] op bounds _ _ _. reflexivity. }
  unfold patterns. cbn [first_pattern]. rewrite F.
  destruct (Re.re_match Patterns.in_pattern _) as [m|].
  { unfold in_handler. rewrite detect_value_type_str. cbn [bind].
    destruct (add_operator_desc _) as [d'|] eqn:E; cbn [bind]; [|discriminate].
    intros [= <-] op bounds Hop Hone _.
    rewrite (add_operator_desc_get _ E) in Hop by discriminate.
    cbn in Hop. injection Hop as <-.
    destruct (has_not _); discriminate Hone. }
  destruct (Re.re_match Patterns.null_pattern _) as [m|].
  { unfold null_handler. cbn [bind].
    destruct (add_operator_desc _) as [d'|] eqn:E; cbn [bind]; [|discriminate].
    intros [= <-] op bounds _ _ Hv.
    rewrite (add_operator_desc_get _ E) in Hv by discriminate.
    discriminate Hv. }
  destruct (Re.re_match Patterns.operator_pattern _) as [m|].
  { unfold operator_handler. rewrite detect_value_type_str. cbn [bind].
    destruct (add_operator_desc _) as [d'|] eqn:E; cbn [bind]; [|discriminate].
    intros [= <-] op bounds _ _ Hv.
    rewrite (add_operator_desc_get _ E) in Hv by discriminate.
    discriminate Hv. }
  discriminate.
Qed.

Lemma extract_conditions_between_is_idiom (where_clause full_query : str)
    (l : list dict) :
  extract_conditions where_clause full_query = Ok l -> Forall between_is_idiom l.
Proof.
  apply extract_conditions_fuel_some.
  - intros c f id d. apply fragment_between_is_idiom.
  - intros text m op bounds _ _ _. reflexivity.
  - intros d n H op bounds Hop Hone Hv.
    rewrite dict_get_set_other in Hop, Hv |- * by discriminate.
    now apply (H op bounds).
Qed.

Section NoPlainBetween.

Variable sqlparse_format : bool -> str -> res str.
Variable sqlparse_parse : str -> res (list (list token)).

(** X14: [parse_sql_query] never returns the condition of a plain BETWEEN:
    a condition with the operator BETWEEN or NOT BETWEEN and a list of
    bounds as value always carries the mark is_function, that is, it comes
    from the to_date idiom.  A clause [a BETWEEN 1 AND 2] is lost. *)
Theorem parse_sql_query_no_plain_between (query : str) :
  exists conditions,
    parse_sql_query sqlparse_format sqlparse_parse query = Ok conditions
    /\ Forall (fun d =>
         forall operator bounds,
           Dict.get d (str_of "operator") = Some (PStr operator) ->
           one_of operator ["BETWEEN"; "NOT BETWEEN"] = true ->
           Dict.get d (str_of "value") = Some (PList bounds) ->
           Dict.get d (str_of "is_function") = Some (PBool true))
       conditions.
Proof.
  rewrite parse_sql_query_locate. destruct (locate _ _ query) as [| |c f].
  - exists []. split; [reflexivity|constructor].
  - exists []. split; [reflexivity|constructor].
  - destruct (extract_conditions_terminates c f) as (l & Hl & _).
    exists l. split; [exact Hl|].
    now apply extract_conditions_between_is_idiom in Hl.
Qed.

End NoPlainBetween.

(** ** IS NULL on a field whose name holds NOT *)

Module NullOfNot.

Import Re Run Frag.

Lemma startswith_app_l (a b sub : str) :
  Py.startswith a sub = true -> Py.startswith (a ++ b) sub = true.
Proof.
  intros H. destruct (startswith_prefix _ _ H) as (t & ->).
  rewrite <- app_assoc. apply startswith_app.
Qed.

Lemma contains_app_l (sub a b : str) :
  Py.contains sub a = true -> Py.contains sub (a ++ b) = true.
Proof.
  induction a as [|c a IH]; cbn [app Py.contains]; intros H.
  - rewrite orb_false_r in H. destruct sub; [|discriminate H].
    destruct b; reflexivity.
  - apply orb_true_iff in H. destruct H as [H|H].
    + change (c :: a ++ b) with ((c :: a) ++ b).
      now rewrite (startswith_app_l _ b _ H).
    + rewrite (IH H). apply orb_true_r.
Qed.

Lemma has_not_fragment (f : str) (negated : bool) :
  has_not f = true -> has_not (null_fragment f negated) = true.
Proof.
  unfold has_not, null_fragment. rewrite upper_app. apply contains_app_l.
Qed.

Lemma parse_null_of_not (f : str) (negated : bool) (condition_id : nat) :
  field_ok f -> has_not f = true ->
  parse_condition (null_fragment f negated) condition_id
  = Ok (Some (null_condition condition_id f true)).
Proof.
  intros Hf Hn.
  destruct (@null_match f negated Hf) as (E1 & E2 & E3 & E4).
  unfold parse_condition. rewrite E1. unfold patterns. cbn [first_pattern].
  rewrite E2, E3, E4.
  unfold null_handler, Re.group. cbn [Re.m_caps Re.m_text Re.lookup Nat.eqb].
  rewrite (@has_not_fragment f negated Hn), (strip_field f (proj2 Hf)).
  reflexivity.
Qed.

End NullOfNot.

Section NullOfNotField.

Import Frag.

Variable py_repr : pyval -> str.

(** X15: when the name of the field holds the letters NOT in any letter
    case (notes, notify, ...), [parse_condition] reads [<field> IS NULL] as
    IS NOT NULL, because it looks for NOT in the whole matched text, the
    field included; built again, the condition is [<field> IS NOT NULL]. *)
Theorem is_null_of_field_with_not (field : str) (condition_id : nat) :
  field_ok field -> has_not field = true ->
  exists d,
    parse_condition (field ++ str_of " IS NULL") condition_id = Ok (Some d)
    /\ Dict.get d (str_of "operator") = Some (PStr (str_of "IS NOT NULL"))
    /\ construct_where_clause py_repr [PDict d]
       = Ok (field ++ str_of " IS NOT NULL").
Proof.
  intros Hf Hn. exists (null_condition condition_id field true).
  split; [exact (@NullOfNot.parse_null_of_not field false condition_id Hf Hn)|].
  split; [reflexivity|].
  unfold construct_where_clause. cbn [mapM]. rewrite where_part_null. reflexivity.
Qed.

End NullOfNotField.

(** X15 on [notes IS NULL]. *)
Lemma is_null_of_field_with_not_witness :
  exists d,
    parse_condition (str_of "notes" ++ str_of " IS NULL") 0 = Ok (Some d)
    /\ Dict.get d (str_of "operator") = Some (PStr (str_of "IS NOT NULL"))
    /\ construct_where_clause no_repr [PDict d]
       = Ok (str_of "notes" ++ str_of " IS NOT NULL").
Proof.
  apply (@is_null_of_field_with_not no_repr (str_of "notes") 0).
  - split; [discriminate|reflexivity].
  - reflexivity.
Defined.

(** ** The web handlers of [app.py]

    A handler answers with the object it gives to [jsonify] and an HTTP
    status, 200 when it names none.  [request.form] is a dictionary of
    strings, [request.json] the parsed body. *)

Definition response : Type := (dict * nat)%type.

(** [try: body except Exception as e: handler(e)] *)
Definition try_except_as {A : Type} (body : res A) (handler : exn -> res A) : res A :=
  match body with
  | Ok a => Ok a
  | Raise e => handler e
  end.

(** [request.form.get(key, '')] *)
Fixpoint form_get (form : list (str * str)) (key : str) : str :=
  match form with
  | [] => []
  | (k, v) :: t => if str_eqb k key then v else form_get t key
  end.

Definition c_cedilla : ascii := ascii_of_nat 231.
Definition a_acute : ascii := ascii_of_nat 225.
Definition i_acute : ascii := ascii_of_nat 237.
Definition o_tilde : ascii := ascii_of_nat 245.

Definition empty_query_message : str :=
  str_of "Consulta SQL vazia. Por favor, forne" ++ [c_cedilla]
  ++ str_of "a uma consulta v" ++ [a_acute] ++ str_of "lida.".

Definition no_where_message : str :=
  str_of "N" ++ [a_tilde] ++ str_of "o foi poss" ++ [i_acute]
  ++ str_of "vel identificar condi" ++ [c_cedilla; o_tilde]
  ++ str_of "es WHERE na consulta.".

Definition incomplete_message : str :=
  str_of "Dados incompletos para reconstru" ++ [c_cedilla; a_tilde]
  ++ str_of "o da consulta".

Definition is_empty (A : Type) (l : list A) : bool :=
  match l with
  | [] => true
  | _ :: _ => false
  end.

Section Handlers.

Variable sqlparse_format : bool -> str -> res str.
Variable sqlparse_parse : str -> res (list (list token)).
Variable parse_template : str -> nat -> res (list template_part).
Variable py_repr : pyval -> str.

(** [str(e)] of an exception *)
Variable exn_str : exn -> str.

(** what [reconstruct_sql_query] does with arguments that are not a string
    and a list: this is up to [sqlparse] and is left open *)
Variable reconstruct_untyped : pyval -> pyval -> res pyval.

Definition parse_query (form : list (str * str)) : res response :=
  try_except_as
    (let query := form_get form (str_of "query") in
     if negb (nonempty (Py.strip query)) then
       Ok ([(str_of "error", PStr empty_query_message)], 400)
     else
       parsed_conditions <- parse_sql_query sqlparse_format sqlparse_parse query ;;
       if is_empty parsed_conditions then
         Ok ([ (str_of "status", PStr (str_of "no_where"));
               (str_of "query", PStr query);
               (str_of "message", PStr no_where_message) ], 200)
       else
         Ok ([ (str_of "status", PStr (str_of "success"));
               (str_of "query", PStr query);
               (str_of "conditions", PList (map PDict parsed_conditions)) ], 200))
    (fun e =>
       Ok ([(str_of "error", PStr (str_of "Erro ao analisar a consulta: " ++ exn_str e))],
           500)).

Definition call_reconstruct (original_query modified_conditions : pyval) : res pyval :=
  match original_query, modified_conditions with
  | PStr q, PList l =>
      r <- reconstruct_sql_query sqlparse_format parse_template py_repr q l ;;
      Ok (PStr r)
  | _, _ => reconstruct_untyped original_query modified_conditions
  end.

(** [request.json] is read inside the [try]: [request_json] is what it
    gives for the request at hand, the parsed body, or the exception Flask
    raises for a body it cannot read as JSON (a body that is not JSON, a
    number it cannot convert, another content type). *)
Definition reconstruct_query (request_json : res pyval) : res response :=
  try_except_as
    (data <- request_json ;;
     match data with
     | PDict d =>
         let original_query :=
           Dict.get_default d (str_of "original_query") (PStr []) in
         let modified_conditions :=
           Dict.get_default d (str_of "modified_conditions") (PList []) in
         (* logging.debug(f"... {original_query}") and
            logging.debug(f"... {modified_conditions}") *)
         _ <- str_call original_query ;;
         _ <- str_call modified_conditions ;;
         if negb (truthy original_query) || negb (truthy modified_conditions) then
           Ok ([(str_of "error", PStr incomplete_message)], 400)
         else
           reconstructed_query <- call_reconstruct original_query modified_conditions ;;
           (* logging.debug(f"... {reconstructed_query}") *)
           _ <- str_call reconstructed_query ;;
           Ok ([ (str_of "status", PStr (str_of "success"));
                 (str_of "reconstructed_query", reconstructed_query) ], 200)
     | _ => Raise AttributeError
     end)
    (fun e =>
       Ok ([(str_of "error",
             PStr (str_of "Erro ao reconstruir a consulta: " ++ exn_str e))], 500)).

(** X16: [parse_query] answers every form and never with status 500: 400
    when the query is missing or blank, 200 otherwise; under 200 the status
    of the answer is no_where when [parse_sql_query] returned no condition,
    which is also what happens when [sqlparse] fails, and success with the
    conditions otherwise. *)
Theorem parse_query_answers (form : list (str * str)) :
  exists answer status,
    parse_query form = Ok (answer, status)
    /\ status = (if nonempty (Py.strip (form_get form (str_of "query")))
                 then 200 else 400)
    /\ (status = 200 ->
        exists conditions,
          parse_sql_query sqlparse_format sqlparse_parse
            (form_get form (str_of "query")) = Ok conditions
          /\ Dict.get answer (str_of "status")
             = Some (PStr (str_of (if is_empty conditions
                                   then "no_where" else "success")))
          /\ (is_empty conditions = false ->
              Dict.get answer (str_of "conditions")
              = Some (PList (map PDict conditions)))
          /\ (match locate sqlparse_format sqlparse_parse
                      (form_get form (str_of "query")) with
              | Unparseable | NoWhere => conditions = []
              | Clause _ _ => True
              end)).
Proof.
  unfold parse_query. set (query := form_get form (str_of "query")).
  destruct (nonempty (Py.strip query)) eqn:E; cbn [negb].
  - pose proof (parse_sql_query_locate sqlparse_format sqlparse_parse query) as L.
    assert (H : exists conditions,
              parse_sql_query sqlparse_format sqlparse_parse query = Ok conditions
              /\ match locate sqlparse_format sqlparse_parse query with
                 | Unparseable | NoWhere => conditions = []
                 | Clause _ _ => True
                 end).
    { rewrite L. destruct (locate _ _ query) as [| |c f].
      - now exists [].
      - now exists [].
      - destruct (extract_conditions_terminates c f) as (l & -> & _). now exists l. }
    destruct H as (conditions & Hc & Hl). rewrite Hc. cbn [bind try_except_as].
    destruct conditions as [|c l]; cbn [is_empty].
    + eexists _, _. split; [reflexivity|]. split; [reflexivity|]. intros _.
      exists []. repeat split; try reflexivity; try exact Hl. discriminate.
    + eexists _, _. split; [reflexivity|]. split; [reflexivity|]. intros _.
      exists (c :: l). repeat split; try reflexivity. exact Hl.
  - eexists _, _. split; [reflexivity|]. split; [reflexivity|]. discriminate.
Qed.

(** X17: [reconstruct_query] reads the JSON body inside its [try], so a
    request whose body cannot be read is answered 500 with the text of the
    exception.  When the body was read and is an object whose
    original_query is a string and whose modified_conditions is a list, the
    list is printed for the log first: if that raises (an integer of more
    than 4300 digits in a condition) the answer is 500 as well; otherwise
    it is 400 when the string or the list is empty, so that the last
    condition cannot be removed through this handler, and 200 with exactly
    what [reconstruct_sql_query] returns in every other case. *)
Theorem reconstruct_query_answers :
  (forall e,
     reconstruct_query (Raise e)
     = Ok ([(str_of "error",
             PStr (str_of "Erro ao reconstruir a consulta: " ++ exn_str e))], 500))
  /\ (forall d q l,
        Dict.get d (str_of "original_query") = Some (PStr q) ->
        Dict.get d (str_of "modified_conditions") = Some (PList l) ->
        str_call (PList l) = Raise ValueError ->
        reconstruct_query (Ok (PDict d))
        = Ok ([(str_of "error",
                PStr (str_of "Erro ao reconstruir a consulta: "
                      ++ exn_str ValueError))], 500))
  /\ (forall d q l,
        Dict.get d (str_of "original_query") = Some (PStr q) ->
        Dict.get d (str_of "modified_conditions") = Some (PList l) ->
        str_call (PList l) = Ok tt ->
        exists answer status,
          reconstruct_query (Ok (PDict d)) = Ok (answer, status)
          /\ status = (if nonempty q && negb (is_empty l) then 200 else 400)
          /\ (status = 400 -> answer = [(str_of "error", PStr incomplete_message)])
          /\ (status = 200 ->
              exists r,
                reconstruct_sql_query sqlparse_format parse_template py_repr q l = Ok r
                /\ answer = [ (str_of "status", PStr (str_of "success"));
                              (str_of "reconstructed_query", PStr r) ])).
Proof.
  split; [reflexivity|]. split.
  - intros d q l Hq Hl Hp. unfold reconstruct_query, Dict.get_default.
    cbn [bind]. rewrite Hq, Hl, Hp. reflexivity.
  - intros d q l Hq Hl Hp. unfold reconstruct_query, Dict.get_default.
    cbn [bind]. rewrite Hq, Hl, Hp. cbn [str_call bind truthy].
    destruct q as [|c q].
    + eexists _, _. split; [reflexivity|]. split; [reflexivity|].
      split; [reflexivity|discriminate].
    + destruct l as [|x l].
      * eexists _, _. split; [reflexivity|]. split; [reflexivity|].
        split; [reflexivity|discriminate].
      * change (negb (negb (str_eqb (c :: q) [])) || negb true) with false. cbv iota.
        unfold call_reconstruct.
        assert (H : exists r,
                  reconstruct_sql_query sqlparse_format parse_template py_repr
                    (c :: q) (x :: l) = Ok r).
        { unfold reconstruct_sql_query.
          destruct (primary_path _ _ _ _) as [s|e]; cbn [try_except Exception];
            [now exists s|].
          destruct (fallback_path _ _ _ _) as [s|e']; cbn [try_except Exception];
            [now exists s|now eexists]. }
        destruct H as (r & Hr). rewrite Hr. cbn [bind str_call try_except_as].
        eexists _, _. split; [reflexivity|]. split; [reflexivity|].
        split; [discriminate|]. intros _. now exists r.
Qed.

End Handlers.

Definition no_message (e : exn) : str := [].

Definition untyped_fails (original_query modified_conditions : pyval) : res pyval :=
  Raise TypeError.

(** X17 on a body with one condition. *)
Lemma reconstruct_query_answers_witness :
  exists answer status,
    reconstruct_query format_unchanged no_template no_repr no_message untyped_fails
      (Ok (PDict [ (str_of "original_query",
                      PStr (str_of "SELECT * FROM t WHERE a = 1"));
                   (str_of "modified_conditions",
                      PList [condition_of "a" "=" "5" "number"]) ]))
    = Ok (answer, status)
    /\ status = (if nonempty (str_of "SELECT * FROM t WHERE a = 1")
                    && negb (is_empty [condition_of "a" "=" "5" "number"])
                 then 200 else 400)
    /\ (status = 400 -> answer = [(str_of "error", PStr incomplete_message)])
    /\ (status = 200 ->
        exists r,
          reconstruct_sql_query format_unchanged no_template no_repr
            (str_of "SELECT * FROM t WHERE a = 1")
            [condition_of "a" "=" "5" "number"] = Ok r
          /\ answer = [ (str_of "status", PStr (str_of "success"));
                        (str_of "reconstructed_query", PStr r) ]).
Proof.
  apply (proj2 (proj2 (@reconstruct_query_answers format_unchanged no_template
                         no_repr no_message untyped_fails))
           [ (str_of "original_query", PStr (str_of "SELECT * FROM t WHERE a = 1"));
             (str_of "modified_conditions",
                PList [condition_of "a" "=" "5" "number"]) ]
           (str_of "SELECT * FROM t WHERE a = 1")
           [condition_of "a" "=" "5" "number"]).
  - reflexivity.
  - reflexivity.
  - reflexivity.
Defined.

(** ** What may follow the field *)

Module Keyword.

Import Re Run Frag.

(** the characters with which an operator of one of the five patterns can
    begin: N and B in either case (NOT, BETWEEN) for the idiom, N, B and I
    in upper case for BETWEEN, IN and IS, and the comparison signs, L and N
    in either case for the fifth pattern *)
Definition operator_heads : str := str_of "NnBbILl=!<>".

Lemma patterns_need_head (f t : str) (c : ascii) :
  f <> [] -> forallb no_space f = true ->
  Py.isspace c = false -> Py.mem c operator_heads = false ->
  re_match Patterns.to_date_pattern (f ++ " "%char :: c :: t) = None
  /\ re_match Patterns.between_pattern (f ++ " "%char :: c :: t) = None
  /\ re_match Patterns.in_pattern (f ++ " "%char :: c :: t) = None
  /\ re_match Patterns.null_pattern (f ++ " "%char :: c :: t) = None
  /\ re_match Patterns.operator_pattern (f ++ " "%char :: c :: t) = None.
Proof.
  intros Hne Hf Hs Hc.
  destruct c as [[] [] [] [] [] [] [] []];
    try discriminate Hs; try discriminate Hc;
    repeat split; run_prefix Hne Hf; lazy; reflexivity.
Qed.

End Keyword.

(** X18: when the text behind the field and its blank begins with a
    character with which no operator of the five patterns begins, that is,
    with anything but N, n, B, b, I, L, l, =, !, < and >, [parse_condition]
    returns None: is null, is not null and in (...) written in lower case
    are not recognised, nor is any operator the table does not know. *)
Theorem parse_condition_unknown_operator
    (field rest : str) (c : ascii) (condition_id : nat) :
  Frag.field_ok field ->
  Py.isspace c = false -> Py.mem c Keyword.operator_heads = false ->
  parse_condition (field ++ " "%char :: c :: rest) condition_id = Ok None.
Proof.
  intros [Hne Hf] Hs Hc.
  destruct (@Keyword.patterns_need_head field rest c Hne Hf Hs Hc)
    as (E1 & E2 & E3 & E4 & E5).
  unfold parse_condition. rewrite E1. unfold patterns. cbn [first_pattern].
  now rewrite E2, E3, E4, E5.
Qed.

(** X18 on [deleted_at is null]. *)
Lemma parse_condition_unknown_operator_witness :
  parse_condition (str_of "deleted_at" ++ " "%char :: "i"%char :: str_of "s null") 0
  = Ok None.
Proof.
  apply (@parse_condition_unknown_operator (str_of "deleted_at") (str_of "s null")
           "i"%char 0).
  - split; [discriminate|reflexivity].
  - reflexivity.
  - reflexivity.
Defined.

(** ** Parsing a statement and building it again *)

Section ParseThenReconstruct.

Variable sqlparse_format : bool -> str -> res str.
Variable sqlparse_parse : str -> res (list (list token)).
Variable parse_template : str -> nat -> res (list template_part).
Variable py_repr : pyval -> str.

(** X19: the two entry points one after the other, as [test_parser.py]
    calls them.  Let the located clause be fragments of the supported shapes
    joined by ' AND ', and let the statement formatted
    for the Reconstructor be [before], a character of white space, the last
    WHERE keyword between white space, a character of white space, and
    [after].  Then [reconstruct_sql_query], given the conditions
    [parse_sql_query] returned, returns [before], ' WHERE ' and the
    fragments, stripped, joined by ' AND ': whatever stood behind the
    clause in [after] is gone. *)
Theorem parse_then_reconstruct
    (query formatted_for_parse formatted_query before kw after : str)
    (w1 w2 : ascii) (parts : list str) :
  parts <> [] -> Forall RoundTrip.part_ok parts ->
  locate sqlparse_format sqlparse_parse query
    = Clause (Py.join (str_of " AND ") parts) formatted_for_parse ->
  Re.re_match Patterns.leading_where (Py.join (str_of " AND ") parts) = None ->
  Re.re_search Patterns.to_date_pattern (Py.join (str_of " AND ") parts) = None ->
  sqlparse_format true query = Ok formatted_query ->
  formatted_query = before ++ w1 :: kw ++ w2 :: after ->
  Py.isspace w1 = true -> Py.isspace w2 = true -> Py.lower kw = str_of "where" ->
  Re.re_search Where.keyword_pattern (kw ++ w2 :: after) = None ->
  exists conditions,
    parse_sql_query sqlparse_format sqlparse_parse query = Ok conditions
    /\ reconstruct_sql_query sqlparse_format parse_template py_repr
         query (map PDict conditions)
       = Ok (before ++ str_of " WHERE "
             ++ Py.join (str_of " AND ") (map Py.strip parts)).
Proof.
  intros Hne Hp Hloc Hw Ht Hf -> H1 H2 Hkw Hlast.
  destruct (@RoundTrip.clause_round_trip py_repr parts formatted_for_parse
              Hne Hp Hw Ht) as (l & Hl & _ & Hc).
  exists l. split.
  - now rewrite parse_sql_query_locate, Hloc.
  - destruct (@Where.where_pattern_last before kw after w1 w2 H1 H2 Hkw Hlast)
      as (m & Hm & Hg).
    unfold reconstruct_sql_query, primary_path.
    rewrite Hf. cbn [bind]. rewrite Hm, Hc. cbn [bind try_except]. now rewrite Hg.
Qed.

End ParseThenReconstruct.

(** X19 on [SELECT * FROM t WHERE a = 1 AND c IS NOT NULL ORDER BY a]: the
    locator hands over the clause without the ORDER BY, and the statement
    comes back without it. *)
Lemma parse_then_reconstruct_witness :
  exists conditions,
    parse_sql_query format_unchanged
      (select_from_t (str_of " a = 1 AND c IS NOT NULL "))
      (str_of "SELECT * FROM t WHERE a = 1 AND c IS NOT NULL ORDER BY a")
    = Ok conditions
    /\ reconstruct_sql_query format_unchanged no_template no_repr
         (str_of "SELECT * FROM t WHERE a = 1 AND c IS NOT NULL ORDER BY a")
         (map PDict conditions)
       = Ok (str_of "SELECT * FROM t" ++ str_of " WHERE "
             ++ Py.join (str_of " AND ")
                  (map Py.strip [str_of " a = 1"; str_of "c IS NOT NULL "])).
Proof.
  apply (@parse_then_reconstruct format_unchanged
           (select_from_t (str_of " a = 1 AND c IS NOT NULL "))
           no_template no_repr
           (str_of "SELECT * FROM t WHERE a = 1 AND c IS NOT NULL ORDER BY a")
           (str_of "SELECT * FROM t WHERE a = 1 AND c IS NOT NULL ORDER BY a")
           (str_of "SELECT * FROM t WHERE a = 1 AND c IS NOT NULL ORDER BY a")
           (str_of "SELECT * FROM t") (str_of "WHERE")
           (str_of "a = 1 AND c IS NOT NULL ORDER BY a") " "%char " "%char
           [str_of " a = 1"; str_of "c IS NOT NULL "]).
  - discriminate.
  - apply Forall_cons; [|apply Forall_cons; [|apply Forall_nil]].
    + split; [|split; vm_compute; reflexivity].
      apply (@Frag.frag_number (str_of "a") "=" (str_of "1")).
      * split; [discriminate|reflexivity].
      * simpl; tauto.
      * repeat split; reflexivity.
    + split; [|split; vm_compute; reflexivity].
      apply (@Frag.frag_not_null (str_of "c")).
      split; [discriminate|reflexivity].
  - reflexivity.
  - vm_compute; reflexivity.
  - vm_compute; reflexivity.
  - reflexivity.
  - reflexivity.
  - reflexivity.
  - reflexivity.
  - reflexivity.
  - vm_compute; reflexivity.
Defined.

(** ** IN lists *)

Module InList.

Import Re Run Frag.

(** [<field> [NOT] IN (<inner>)] with single blanks *)
Definition in_fragment (f : str) (negated : bool) (inner : str) : str :=
  f ++ " "%char :: str_of (if negated then "NOT IN (" else "IN (")
  ++ inner ++ str_of ")".

(** "(?:NOT\s+)?IN\s*\(" in front of the list *)
Lemma in_head (negated : bool) (n : nat) (tail : str) (cs : list (nat * str))
    (K : cont) :
  exec (Seq (Opt (Seq (lit "NOT") Patterns.ws))
          (Seq (lit "IN") (Seq Patterns.ows (chr "("))))
       (MState n (str_of (if negated then "NOT IN (" else "IN (") ++ tail) [] cs) K
  = K (MState ((if negated then 8 else 4) + n) tail [] cs).
Proof.
  destruct negated; lazy;
    repeat match goal with
           | |- context [K ?s] => destruct (K s)
           end; reflexivity.
Qed.

(** "(.*)\)" on a list without line break and its closing parenthesis *)
Lemma in_group (n : nat) (inner : str) (cs : list (nat * str)) :
  forallb not_newline inner = true ->
  exec (Seq (Grp 2 (Star true dot)) (chr ")"))
       (MState n (inner ++ str_of ")") [] cs) (fun st => Some st)
  = Some (MState (S (n + length inner)) [] [] ((2, inner) :: cs)).
Proof.
  intros Hv. change (str_of ")") with [")"%char]. seq_step.
  change (exec (Grp ?g ?a) ?st ?k) with (exec a (open_group st) (close_group g k)).
  unfold open_group, dot. cbn [pos rest opened caps].
  change (exec (Star true ?a) ?st ?k)
    with (star_loop true (exec a) (length (rest st)) st k).
  cbn [rest].
  apply (@Where.star_greedy_last not_newline inner [")"%char] Hv).
  - rewrite length_app. lia.
  - unfold fed, close_group. cbn [opened map pos rest caps].
    unfold chr. rewrite exec_chr_cons. cbn [Ascii.eqb Bool.eqb map].
    now rewrite app_nil_r, rev_involutive.
  - intros j Hj. cbn [length] in Hj. assert (j = 1) as -> by lia.
    unfold fed, close_group. cbn [opened map pos rest caps firstn skipn].
    reflexivity.
Qed.

Lemma in_fragment_length (f : str) (negated : bool) (inner : str) :
  S ((if negated then 8 else 4) + S (length f) + length inner)
  = length (in_fragment f negated inner).
Proof.
  unfold in_fragment. destruct negated;
    repeat first [rewrite length_app | progress cbn [length str_of list_ascii_of_string]];
    lia.
Qed.

(** the IN pattern matches the whole fragment: group 1 is the field,
    group 2 the inside of the parentheses *)
Lemma in_match (f : str) (negated : bool) (inner : str) :
  field_ok f -> forallb not_newline inner = true ->
  re_match Patterns.to_date_pattern (in_fragment f negated inner) = None
  /\ re_match Patterns.between_pattern (in_fragment f negated inner) = None
  /\ re_match Patterns.in_pattern (in_fragment f negated inner)
     = Some (Match 0 (length (in_fragment f negated inner))
                   (in_fragment f negated inner) [(2, inner); (1, f)]).
Proof.
  intros [Hne Hf] Hv.
  split; [|split].
  - destruct negated; unfold in_fragment; run_prefix Hne Hf; lazy; reflexivity.
  - destruct negated; unfold in_fragment; run_prefix Hne Hf; lazy; reflexivity.
  - unfold re_match, match_at. cbn [skipn andb].
    assert (E : exec Patterns.in_pattern
                  (MState 0 (in_fragment f negated inner) [] []) (fun st => Some st)
                = Some (MState (S ((if negated then 8 else 4) + S (length f)
                                   + length inner)) [] [] [(2, inner); (1, f)])).
    { unfold in_fragment, Patterns.in_pattern. cbn [seqs].
      rewrite field_prefix; [|exact Hne|exact Hf|now destruct negated].
      change (exec (Seq ?a (Seq ?b (Seq ?c (Seq ?d ?e)))) ?st ?k)
        with (exec (Seq a (Seq b (Seq c d))) st (fun st' => exec e st' k)).
      rewrite in_head. now rewrite in_group. }
    rewrite E. cbn [pos caps]. rewrite in_fragment_length.
    now rewrite firstn_whole.
Qed.

(** what the handler of the IN pattern makes of the match *)
Definition in_condition (condition_id : nat) (f : str) (is_not : bool) (inner : str)
    : dict :=
  let members := Py.split (str_of ",") inner in
  let operator := str_of (if is_not then "NOT IN" else "IN") in
  [ (str_of "id", id_of condition_id);
    (str_of "field", PStr f);
    (str_of "operator", PStr operator);
    (str_of "value", PList (map (fun v => PStr (unquote v)) members));
    (str_of "type", PStr (str_of (classify (unquote (hd [] members)))));
    (str_of "operator_desc", PStr (operators_get operators operator operator)) ].

Lemma parse_in (f : str) (negated : bool) (inner : str) (condition_id : nat) :
  field_ok f -> forallb not_newline inner = true ->
  parse_condition (in_fragment f negated inner) condition_id
  = Ok (Some (in_condition condition_id f
                (has_not (in_fragment f negated inner)) inner)).
Proof.
  intros Hf Hv. destruct (@in_match f negated inner Hf Hv) as (E1 & E2 & E3).
  unfold parse_condition. rewrite E1. unfold patterns. cbn [first_pattern].
  rewrite E2, E3.
  unfold in_handler, Re.group. cbn [Re.m_caps Re.m_text Re.lookup Nat.eqb].
  rewrite detect_value_type_str, (strip_field f (proj2 Hf)). cbn [bind].
  unfold in_condition. destruct (has_not _); reflexivity.
Qed.

End InList.

(** X20: [parse_condition] on [<field> [NOT] IN (<inner>)], the inside
    without line break: the members of the condition are the pieces of the
    inside between its commas, each stripped of white space and then of
    quotes, so that a comma inside a quoted member cuts it in two; the type
    of the condition is the type of the first member alone; and the
    operator is NOT IN as soon as the letters NOT occur anywhere in the
    fragment. *)
Theorem parse_condition_in_list
    (field : str) (negated : bool) (inner : str) (condition_id : nat) :
  Frag.field_ok field -> forallb Frag.not_newline inner = true ->
  exists d,
    parse_condition (InList.in_fragment field negated inner) condition_id
    = Ok (Some d)
    /\ Dict.get d (str_of "field") = Some (PStr field)
    /\ Dict.get d (str_of "value")
       = Some (PList (map (fun v => PStr (unquote v)) (Py.split (str_of ",") inner)))
    /\ Dict.get d (str_of "type")
       = Some (PStr (str_of (classify
                               (unquote (hd [] (Py.split (str_of ",") inner))))))
    /\ Dict.get d (str_of "operator")
       = Some (PStr (str_of (if has_not (InList.in_fragment field negated inner)
                             then "NOT IN" else "IN"))).
Proof.
  intros Hf Hv. eexists. split; [now apply InList.parse_in|].
  repeat split; reflexivity.
Qed.

(** X20 on [city IN ('Rio, RJ', 'Recife')]: three members, the first one
    ['Rio] stripped to [Rio]. *)
Lemma parse_condition_in_list_witness :
  exists d,
    parse_condition
      (InList.in_fragment (str_of "city") false (str_of "'Rio, RJ', 'Recife'")) 0
    = Ok (Some d)
    /\ Dict.get d (str_of "field") = Some (PStr (str_of "city"))
    /\ Dict.get d (str_of "value")
       = Some (PList (map (fun v => PStr (unquote v))
                          (Py.split (str_of ",") (str_of "'Rio, RJ', 'Recife'"))))
    /\ Dict.get d (str_of "type")
       = Some (PStr (str_of (classify
            (unquote (hd [] (Py.split (str_of ",") (str_of "'Rio, RJ', 'Recife'")))))))
    /\ Dict.get d (str_of "operator")
       = Some (PStr (str_of
            (if has_not (InList.in_fragment (str_of "city") false
                           (str_of "'Rio, RJ', 'Recife'"))
             then "NOT IN" else "IN"))).
Proof.
  apply (@parse_condition_in_list (str_of "city") false
           (str_of "'Rio, RJ', 'Recife'") 0).
  - split; [discriminate|reflexivity].
  - reflexivity.
Defined.

(** ** An IN list of numbers, parsed and built again *)

Module InNumbers.

Import Re Run Frag InList.

(** a number written with digits only *)
Definition digits (n : str) : Prop := n <> [] /\ forallb Py.isdigit n = true.

(** the characters of a list of such numbers *)
Definition list_char (c : ascii) : bool :=
  Py.isdigit c || Ascii.eqb c ","%char || Ascii.eqb c " "%char.

Lemma digit_char (d : ascii) :
  Py.isdigit d = true ->
  Ascii.eqb "," d = false /\ Py.isspace d = false
  /\ Py.mem d [squote; dquote] = false /\ Py.lower_char d = d
  /\ Ascii.eqb "t" d = false /\ list_char d = true.
Proof.
  destruct d as [[] [] [] [] [] [] [] []]; vm_compute; intros H;
    first [discriminate H | repeat split].
Qed.

Lemma list_char_facts (c : ascii) :
  list_char c = true ->
  not_newline c = true /\ Ascii.eqb "O" (Py.upper_char c) = false.
Proof.
  destruct c as [[] [] [] [] [] [] [] []]; vm_compute; intros H;
    first [discriminate H | repeat split].
Qed.

(** the text behind the first number of a list joined by ', ' *)
Definition tl_str (rest : list str) : str :=
  flat_map (fun n => ","%char :: " "%char :: n) rest.

Lemma join_tl (n : str) (rest : list str) :
  Py.join (str_of ", ") (n :: rest) = n ++ tl_str rest.
Proof.
  revert n. induction rest as [|m rest IH]; intros n.
  - cbn [Py.join tl_str flat_map]. now rewrite app_nil_r.
  - change (Py.join (str_of ", ") (n :: m :: rest))
      with (n ++ str_of ", " ++ Py.join (str_of ", ") (m :: rest)).
    rewrite IH. reflexivity.
Qed.

Definition no_comma (w : str) : Prop :=
  forallb (fun c => negb (Ascii.eqb "," c)) w = true.

Lemma digits_no_comma (n : str) : forallb Py.isdigit n = true -> no_comma n.
Proof.
  unfold no_comma. intros H. rewrite forallb_forall in *. intros c Hc.
  destruct (digit_char c (H c Hc)) as (-> & _). reflexivity.
Qed.

Lemma split_fuel_run (w : str) :
  no_comma w ->
  forall fuel cur tail,
    length w <= fuel ->
    Py.split_fuel fuel [","%char] (w ++ tail) cur
    = Py.split_fuel (fuel - length w) [","%char] tail (rev w ++ cur).
Proof.
  unfold no_comma. induction w as [|c w IH]; intros Hw fuel cur tail Hfuel.
  - cbn [app length rev]. now rewrite Nat.sub_0_r.
  - cbn [forallb] in Hw. apply andb_true_iff in Hw. destruct Hw as [Hc Hw].
    destruct fuel as [|fuel]; [simpl in Hfuel; lia|].
    cbn [app Py.split_fuel Py.startswith str_of list_ascii_of_string].
    destruct (Ascii.eqb "," c); [discriminate Hc|]. cbn [andb].
    rewrite (IH Hw fuel (c :: cur) tail) by (simpl in Hfuel; lia).
    cbn [length rev Nat.sub]. now rewrite <- app_assoc.
Qed.

Lemma split_pieces (rest : list str) :
  Forall digits rest ->
  forall p fuel,
    no_comma p -> length (p ++ tl_str rest) < fuel ->
    Py.split_fuel fuel [","%char] (p ++ tl_str rest) []
    = p :: map (cons " "%char) rest.
Proof.
  induction 1 as [|n rest (_ & Hn) Hrest IH]; intros p fuel Hp Hfuel.
  - cbn [tl_str flat_map map] in *. rewrite app_nil_r in Hfuel.
    rewrite split_fuel_run by (exact Hp || lia).
    destruct (fuel - length p) as [|m] eqn:E; [lia|].
    cbn [Py.split_fuel]. now rewrite app_nil_r, rev_involutive.
  - rewrite length_app in Hfuel.
    rewrite split_fuel_run by (exact Hp || lia).
    change (tl_str (n :: rest)) with (","%char :: (" "%char :: n) ++ tl_str rest) in *.
    cbn [length] in Hfuel.
    destruct (fuel - length p) as [|m] eqn:E; [lia|].
    cbn [Py.split_fuel Py.startswith str_of list_ascii_of_string Ascii.eqb Bool.eqb
         andb length skipn].
    rewrite app_nil_r, rev_involutive. f_equal.
    change (map (cons " "%char) (n :: rest))
      with ((" "%char :: n) :: map (cons " "%char) rest).
    apply IH.
    + unfold no_comma. cbn [forallb]. apply (digits_no_comma _ Hn).
    + rewrite length_app in *. cbn [length] in *. lia.
Qed.

Lemma split_number_list (n : str) (rest : list str) :
  Forall digits (n :: rest) ->
  Py.split (str_of ",") (Py.join (str_of ", ") (n :: rest))
  = n :: map (cons " "%char) rest.
Proof.
  intros H. inversion H as [|? ? (_ & Hn) Hrest]; subst.
  rewrite join_tl. unfold Py.split. change (str_of ",") with [","%char].
  apply split_pieces; [exact Hrest|now apply digits_no_comma|lia].
Qed.

Lemma strip_quotes_digits (n : str) :
  forallb Py.isdigit n = true -> Py.strip_chars [squote; dquote] n = n.
Proof.
  intros H. rewrite forallb_forall in H. unfold Py.strip_chars.
  apply strip_by_stops; apply stops_all.
  - intros c Hc. now apply digit_char, H.
  - intros c Hc. apply digit_char, H. now apply in_rev.
Qed.

Lemma digits_no_space (n : str) :
  forallb Py.isdigit n = true -> forallb no_space n = true.
Proof.
  intros H. rewrite forallb_forall in *. intros c Hc. unfold no_space.
  destruct (digit_char c (H c Hc)) as (_ & -> & _). reflexivity.
Qed.

Lemma unquote_digits (n : str) : forallb Py.isdigit n = true -> unquote n = n.
Proof.
  intros H. unfold unquote.
  rewrite (strip_field n (digits_no_space _ H)). now apply strip_quotes_digits.
Qed.

Lemma unquote_blank_digits (n : str) :
  forallb Py.isdigit n = true -> unquote (" "%char :: n) = n.
Proof.
  intros H. unfold unquote.
  replace (Py.strip (" "%char :: n)) with (Py.strip n) by reflexivity.
  rewrite (strip_field n (digits_no_space _ H)). now apply strip_quotes_digits.
Qed.

Lemma unquote_pieces (rest : list str) :
  Forall digits rest ->
  map (fun v => PStr (unquote v)) (map (cons " "%char) rest) = map PStr rest.
Proof.
  induction 1 as [|n rest (_ & Hn) Hrest IH]; [reflexivity|].
  cbn [map]. now rewrite (unquote_blank_digits _ Hn), IH.
Qed.

(** *** No NOT and no function in a list of numbers *)

Lemma startswith_head (c : ascii) (sub s : str) :
  Py.startswith s (c :: sub) = true -> exists t, s = c :: t.
Proof.
  destruct s as [|d s]; cbn [Py.startswith]; [discriminate|].
  intros H. apply andb_true_iff in H. destruct H as [H _].
  apply Ascii.eqb_eq in H. subst d. now exists s.
Qed.

(** a text occurs only where all its characters do *)
Lemma contains_chars (sub s : str) (c : ascii) :
  In c sub -> Py.contains sub s = true -> existsb (Ascii.eqb c) s = true.
Proof.
  intros Hc. induction s as [|d s IH]; cbn [Py.contains]; intros H.
  - rewrite orb_false_r in H. destruct sub; [contradiction|discriminate H].
  - apply orb_true_iff in H. destruct H as [H|H].
    + destruct (startswith_prefix _ _ H) as (t & E). rewrite E.
      rewrite existsb_app. apply orb_true_iff. left.
      apply existsb_exists. exists c. split; [exact Hc|apply Ascii.eqb_refl].
    + cbn [existsb]. rewrite (IH H). apply orb_true_r.
Qed.

Lemma digits_no_to_date (n : str) :
  forallb Py.isdigit n = true -> has_to_date (PStr n) = false.
Proof.
  intros H. unfold has_to_date.
  destruct (Py.contains (str_of "to_date(") (Py.lower n)) eqn:E; [exfalso|reflexivity].
  apply (@contains_chars _ _ "t"%char) in E; [|now left].
  apply existsb_exists in E. destruct E as (x & Hx & Ex).
  unfold Py.lower in Hx. apply in_map_iff in Hx. destruct Hx as (d & <- & Hd).
  rewrite forallb_forall in H.
  destruct (digit_char d (H d Hd)) as (_ & _ & _ & Hl & Ht & _).
  rewrite Hl in Ex. congruence.
Qed.

Lemma join_list_chars (nums : list str) :
  Forall digits nums -> forallb list_char (Py.join (str_of ", ") nums) = true.
Proof.
  induction 1 as [|n rest (_ & Hn) Hrest IH]; [reflexivity|].
  assert (Hd : forallb list_char n = true).
  { rewrite forallb_forall in *. intros c Hc. now apply digit_char, Hn. }
  destruct rest as [|m rest]; [exact Hd|].
  change (Py.join (str_of ", ") (n :: m :: rest))
    with (n ++ ","%char :: " "%char :: Py.join (str_of ", ") (m :: rest)).
  rewrite forallb_app, Hd. cbn [forallb andb]. exact IH.
Qed.

Lemma has_not_in_numbers (f inner : str) :
  has_not f = false -> forallb list_char inner = true ->
  has_not (in_fragment f false inner) = false.
Proof.
  intros Hf Hi. unfold has_not, in_fragment in *. cbv iota. rewrite upper_app.
  apply contains_no_straddle with (d := " "%char);
    [reflexivity|reflexivity|exact Hf|].
  clear Hf.
  match goal with |- ?x = false => destruct x eqn:E end; [exfalso|reflexivity].
  apply (@contains_chars _ _ "O"%char) in E; [|right; now left].
  apply existsb_exists in E. destruct E as (x & Hx & Ex).
  apply Ascii.eqb_eq in Ex. subst x.
  unfold Py.upper in Hx. apply in_map_iff in Hx. destruct Hx as (c & Hc & Hin).
  cbn [In app str_of list_ascii_of_string] in Hin.
  assert (N : Ascii.eqb "O" (Py.upper_char c) = false).
  { destruct Hin as [E|[E|[E|[E|[E|Hin]]]]]; try (rewrite <- E; reflexivity).
    apply in_app_or in Hin. destruct Hin as [Hin|Hin].
    - rewrite forallb_forall in Hi. now apply list_char_facts, Hi.
    - destruct Hin as [E|E]; [rewrite <- E; reflexivity|destruct E]. }
  rewrite Hc, Ascii.eqb_refl in N. discriminate.
Qed.

Section Build.

Variable py_repr : pyval -> str.

Lemma format_digits (n : str) :
  digits n -> format_value py_repr (PStr n) (PStr (str_of "number")) = Ok (PStr n).
Proof.
  intros [Hne Hn]. unfold format_value. rewrite (digits_no_to_date _ Hn).
  change (pystr_eqb (PStr (str_of "number")) "number") with true. cbv iota.
  destruct n as [|c n]; [congruence|].
  change (pystr_eqb (PStr (c :: n)) "") with false. cbv iota.
  unfold Float.call. rewrite (Typer.literal_digits Hne Hn). reflexivity.
Qed.

Lemma format_numbers (nums : list str) :
  Forall digits nums ->
  mapM (fun v => format_value py_repr v (PStr (str_of "number"))) (map PStr nums)
  = Ok (map PStr nums).
Proof.
  induction 1 as [|n rest Hn Hrest IH]; [reflexivity|].
  cbn [map mapM]. now rewrite (format_digits Hn), IH.
Qed.

Lemma where_part_in (condition_id : nat) (f : str) (members : list str) (ty : str) :
  where_part py_repr
    (PDict [ (str_of "id", id_of condition_id);
             (str_of "field", PStr f);
             (str_of "operator", PStr (str_of "IN"));
             (str_of "value", PList (map PStr members));
             (str_of "type", PStr ty);
             (str_of "operator_desc", PStr (str_of "em")) ])
  = (formatted <- mapM (fun v => format_value py_repr v (PStr ty)) (map PStr members) ;;
     joined <- join_values (str_of ", ") formatted ;;
     Ok ((f ++ str_of " " ++ str_of "IN") ++ str_of " (" ++ joined ++ str_of ")")).
Proof.
  assert (H : str_call (PList (map PStr members)) = Ok tt).
  { apply str_call_strs. induction members; constructor; [exact I|assumption]. }
  transitivity
    (_ <- str_call (PList (map PStr members)) ;;
     formatted <- mapM (fun v => format_value py_repr v (PStr ty)) (map PStr members) ;;
     joined <- join_values (str_of ", ") formatted ;;
     Ok ((f ++ str_of " " ++ str_of "IN") ++ str_of " (" ++ joined ++ str_of ")"));
    [reflexivity|].
  now rewrite H.
Qed.

End Build.

End InNumbers.

Section InListOfNumbers.

Variable py_repr : pyval -> str.

(** X21: an IN list of numbers written with digits and joined by ', '
    survives the round trip: [<field> IN (n1, n2, ...)] is parsed into a
    condition of type number whose members are the numbers, and the clause
    built from it is the fragment itself (field without white space and
    without the letters NOT). *)
Theorem in_list_of_numbers_round_trip
    (field : str) (nums : list str) (condition_id : nat) :
  Frag.field_ok field -> has_not field = false ->
  nums <> [] -> Forall InNumbers.digits nums ->
  exists d,
    parse_condition
      (InList.in_fragment field false (Py.join (str_of ", ") nums)) condition_id
    = Ok (Some d)
    /\ Dict.get d (str_of "value") = Some (PList (map PStr nums))
    /\ Dict.get d (str_of "type") = Some (PStr (str_of "number"))
    /\ construct_where_clause py_repr [PDict d]
       = Ok (InList.in_fragment field false (Py.join (str_of ", ") nums)).
Proof.
  intros Hf Hnot Hne Hnums.
  destruct nums as [|n rest]; [congruence|]. clear Hne.
  pose proof (InNumbers.join_list_chars Hnums) as Hchars.
  assert (Hnl : forallb Frag.not_newline (Py.join (str_of ", ") (n :: rest)) = true).
  { rewrite forallb_forall in *. intros c Hc.
    now apply InNumbers.list_char_facts, Hchars. }
  pose proof (@InList.parse_in field false _ condition_id Hf Hnl) as Hp.
  rewrite (@InNumbers.has_not_in_numbers _ _ Hnot Hchars) in Hp.
  unfold InList.in_condition in Hp. cbv zeta in Hp.
  rewrite (InNumbers.split_number_list Hnums) in Hp. cbn [hd map] in Hp.
  inversion Hnums as [|? ? [Hn0 Hn] Hrest]; subst.
  rewrite (InNumbers.unquote_digits _ Hn), (InNumbers.unquote_pieces Hrest) in Hp.
  assert (Hc : classify n = "number").
  { unfold classify. now rewrite (Typer.literal_digits Hn0 Hn). }
  rewrite Hc in Hp.
  eexists. split; [exact Hp|]. split; [reflexivity|]. split; [reflexivity|].
  unfold construct_where_clause. cbn [mapM].
  change (operators_get operators (str_of "IN") (str_of "IN")) with (str_of "em").
  change (PStr n :: map PStr rest) with (map PStr (n :: rest)).
  rewrite InNumbers.where_part_in.
  rewrite (InNumbers.format_numbers py_repr Hnums). cbn [bind].
  rewrite join_values_str. cbn [bind Py.join]. f_equal.
  unfold InList.in_fragment. now rewrite <- !app_assoc.
Qed.

End InListOfNumbers.

(** X21 on [id IN (1, 20, 300)]. *)
Lemma in_list_of_numbers_round_trip_witness :
  exists d,
    parse_condition
      (InList.in_fragment (str_of "id") false
         (Py.join (str_of ", ") [str_of "1"; str_of "20"; str_of "300"])) 0
    = Ok (Some d)
    /\ Dict.get d (str_of "value")
       = Some (PList (map PStr [str_of "1"; str_of "20"; str_of "300"]))
    /\ Dict.get d (str_of "type") = Some (PStr (str_of "number"))
    /\ construct_where_clause no_repr [PDict d]
       = Ok (InList.in_fragment (str_of "id") false
               (Py.join (str_of ", ") [str_of "1"; str_of "20"; str_of "300"])).
Proof.
  apply (@in_list_of_numbers_round_trip no_repr (str_of "id")
           [str_of "1"; str_of "20"; str_of "300"] 0).
  - split; [discriminate|reflexivity].
  - reflexivity.
  - discriminate.
  - repeat constructor; discriminate.
Defined.

(** ** The idiom and what follows it *)

Module IdiomRest.

Import Frag Idiom.

(** more fuel than the text is long changes nothing *)
Lemma replace_fuel_any (old new : str) (n : nat) :
  old <> [] ->
  forall m s, length s <= n -> length s <= m ->
    Py.replace_fuel n old new s = Py.replace_fuel m old new s.
Proof.
  intros Hold. induction n as [|n IH]; intros m s Hn Hm.
  - destruct s; [|simpl in Hn; lia]. destruct m; reflexivity.
  - destruct s as [|c t]; [destruct m; reflexivity|].
    destruct m as [|m]; [simpl in Hm; lia|].
    cbn [Py.replace_fuel].
    assert (L : length (skipn (length old) (c :: t)) <= length t).
    { rewrite length_skipn. cbn [length]. destruct old; [congruence|]. cbn [length]. lia. }
    simpl in Hn, Hm.
    destruct (Py.startswith (c :: t) old).
    + f_equal. apply IH; lia.
    + f_equal. apply IH; lia.
Qed.

Lemma replace_fuel_enough (old new : str) (n : nat) (s : str) :
  old <> [] -> length s <= n ->
  Py.replace_fuel n old new s = Py.replace_fuel (length s) old new s.
Proof. intros Hold Hn. apply replace_fuel_any; [exact Hold|exact Hn|lia]. Qed.

(** removing a text from what begins with it: the first copy goes, and the
    removal goes on behind it *)
Lemma replace_fuel_leading (old tail : str) (n : nat) :
  old <> [] ->
  Py.replace_fuel (S n) old [] (old ++ tail) = Py.replace_fuel n old [] tail.
Proof.
  intros Hold. destruct old as [|o old']; [congruence|].
  change ((o :: old') ++ tail) with (o :: old' ++ tail).
  cbn [Py.replace_fuel].
  change (o :: old' ++ tail) with ((o :: old') ++ tail).
  now rewrite startswith_app, Split.skipn_app_length.
Qed.

Lemma replace_leading (old tail : str) :
  old <> [] -> Py.replace old [] (old ++ tail) = Py.replace old [] tail.
Proof.
  intros Hold. unfold Py.replace. destruct old as [|o old'] eqn:E; [congruence|].
  rewrite <- E in *.
  replace (length (old ++ tail)) with (S (length (old' ++ tail)))
    by (subst old; reflexivity).
  rewrite replace_fuel_leading by exact Hold.
  apply replace_fuel_enough; [exact Hold|rewrite length_app; lia].
Qed.

Lemma strip_connector_and (rest r : str) :
  Py.strip rest = str_of "AND " ++ r -> strip_connector rest = r.
Proof. intros H. unfold strip_connector. rewrite H. reflexivity. Qed.

Lemma strip_connector_or (rest r : str) :
  Py.strip rest = str_of "OR " ++ r -> strip_connector rest = r.
Proof. intros H. unfold strip_connector. rewrite H. reflexivity. Qed.

Lemma strip_connector_none (rest : str) :
  Py.startswith (Py.strip rest) (str_of "AND ") = false ->
  Py.startswith (Py.strip rest) (str_of "OR ") = false ->
  strip_connector rest = rest.
Proof. intros H1 H2. unfold strip_connector. now rewrite H1, H2. Qed.

Lemma idiom_text_nonempty (field : str) (negated : bool) (p1 sp1 f1 p2 sp2 f2 : str) :
  idiom_text field negated p1 sp1 f1 p2 sp2 f2 [] <> [].
Proof. unfold idiom_text. destruct field; discriminate. Qed.

End IdiomRest.

Module IdiomFlag.

Import Frag Idiom IdiomOperator.

(** With a field that holds no BETWEEN in any letter case, the test the
    code makes finds NOT in the negated idiom and whenever the field name
    holds the letters NOT. *)
Lemma not_before_between_field (field : str) (negated : bool)
    (p1 sp1 f1 p2 sp2 f2 : str) :
  Py.contains between_word (Py.upper field) = false ->
  not_before_between (idiom_text field negated p1 sp1 f1 p2 sp2 f2 [])
  = negated || Py.contains (str_of "NOT") (Py.upper field).
Proof.
  intros Hb. unfold not_before_between, idiom_text.
  rewrite upper_app. cbn [Py.upper map]. fold (Py.upper).
  change (Py.upper_char " "%char) with " "%char.
  set (rest := call_text p1 sp1 f1 (str_of " AND " ++ call_text p2 sp2 f2 [])).
  replace (map Py.upper_char
             (str_of (if negated then "NOT BETWEEN " else "BETWEEN ") ++ rest))
    with (str_of (if negated then "NOT " else "") ++ between_word
            ++ " "%char :: Py.upper rest)
    by (destruct negated; unfold Py.upper; rewrite map_app; reflexivity).
  fold between_word. rewrite before_between by exact Hb.
  destruct negated; cbn [orb].
  - apply contains_app_r. reflexivity.
  - destruct (Py.contains (str_of "NOT") (Py.upper field)) eqn:Hn.
    + now apply NullOfNot.contains_app_l.
    + eapply contains_no_straddle; [reflexivity|reflexivity|exact Hn|reflexivity].
Qed.

End IdiomFlag.

Section IdiomThenRest.

Import Frag Idiom.

(** X22: a clause that starts with
    [<field> [NOT] BETWEEN to_date(<p1>, '<f1>') AND to_date(<p2>, '<f2>')]
    is parsed into one condition for the idiom, with the two rendered calls
    as value, the two bare parameters as original value, type date, the
    function marks and the first format, whatever the second format is.
    Its operator is NOT BETWEEN when the idiom is negated and also when the
    field name holds the letters NOT, and BETWEEN otherwise (field name
    without BETWEEN in it).  The conditions [more] of what is left follow,
    renumbered 1, 2, ...: with [rest] the text behind the idiom (further
    copies of the idiom's text removed), nothing follows when [rest] is
    blank; when [rest], stripped, begins with 'AND ' or 'OR ' in upper case
    and with a blank, [more] are the conditions of the text behind these
    four or three characters; otherwise they are the conditions of [rest] as
    it is. *)
Theorem to_date_idiom_then_rest
    (field : str) (negated : bool) (p1 sp1 f1 p2 sp2 f2 tail full_query : str) :
  field_ok field -> param_ok p1 -> param_ok p2 -> format_ok f1 -> format_ok f2 ->
  forallb Py.isspace sp1 = true -> forallb Py.isspace sp2 = true ->
  Re.re_match Patterns.leading_where
    (idiom_text field negated p1 sp1 f1 p2 sp2 f2 [] ++ tail) = None ->
  Py.contains (str_of "BETWEEN") (Py.upper field) = false ->
  exists more,
    extract_conditions (idiom_text field negated p1 sp1 f1 p2 sp2 f2 [] ++ tail)
                       full_query
    = Ok (idiom_condition field
            (negated || Py.contains (str_of "NOT") (Py.upper field)) p1 f1 p2 f2
          :: renumber 0 more)
    /\ map get_id (renumber 0 more)
       = map (fun i => Some (PInt (Z.of_nat i))) (seq 1 (length more))
    /\ (let rest := Py.replace (idiom_text field negated p1 sp1 f1 p2 sp2 f2 []) []
                      tail in
        (Py.strip rest = [] -> more = [])
        /\ (forall r, Py.strip rest = str_of "AND " ++ r ->
              extract_conditions r full_query = Ok more)
        /\ (forall r, Py.strip rest = str_of "OR " ++ r ->
              extract_conditions r full_query = Ok more)
        /\ (Py.strip rest <> [] ->
            Py.startswith (Py.strip rest) (str_of "AND ") = false ->
            Py.startswith (Py.strip rest) (str_of "OR ") = false ->
            extract_conditions rest full_query = Ok more)).
Proof.
  intros Hfield Hp1 Hp2 Hf1 Hf2 Hsp1 Hsp2 Hw Hb.
  set (idiom := idiom_text field negated p1 sp1 f1 p2 sp2 f2 []) in *.
  assert (Hidiom : idiom <> []) by apply IdiomRest.idiom_text_nonempty.
  set (rest := Py.replace idiom [] tail).
  assert (Hrest : Py.replace idiom [] (idiom ++ tail) = rest)
    by now apply IdiomRest.replace_leading.
  assert (Hmore : exists more,
            if nonempty (Py.strip rest)
            then extract_conditions (strip_connector rest) full_query = Ok more
            else more = []).
  { destruct (nonempty _); [|now exists []].
    destruct (extract_conditions_terminates (strip_connector rest) full_query)
      as (l & Hl & _).
    now exists l. }
  destruct Hmore as (more & Hmore).
  exists more. split; [|split].
  - rewrite extract_conditions_unfold. cbv zeta.
    rewrite (@RoundTrip.leading_where_absent _ Hw).
    unfold idiom at 1.
    rewrite (@idiom_search field negated p1 sp1 f1 p2 sp2 f2 tail
               Hfield Hp1 Hp2 Hf1 Hf2 Hsp1 Hsp2).
    cbn [Re.m_text]. fold idiom. rewrite Hrest.
    assert (Hd : to_date_condition idiom
                   (Re.Match 0 (length idiom) idiom
                      [(5, f2); (4, p2); (3, f1); (2, p1); (1, field)]) 0
                 = idiom_condition field
                     (negated || Py.contains (str_of "NOT") (Py.upper field))
                     p1 f1 p2 f2).
    { rewrite <- (@IdiomFlag.not_before_between_field field negated p1 sp1 f1 p2 sp2 f2 Hb).
      fold idiom.
      unfold to_date_condition, idiom_condition, Re.group.
      cbn [Re.m_caps Re.lookup Nat.eqb].
      destruct Hp1 as (_ & _ & T1). destruct Hp2 as (_ & _ & T2).
      destruct Hf1 as (_ & _ & T3). destruct Hf2 as (_ & _ & T4).
      rewrite (strip_trimmed T1), (strip_trimmed T2), (strip_trimmed T3),
        (strip_trimmed T4), (strip_field field (proj2 Hfield)).
      reflexivity. }
    rewrite Hd.
    destruct (nonempty _); [now rewrite Hmore|now subst more].
  - pose proof (renumber_ids 0 more) as H. unfold ids_from in H.
    now rewrite renumber_length in H.
  - cbv zeta. fold rest. split; [|split; [|split]].
    + intros E. rewrite E in Hmore. exact Hmore.
    + intros r E. rewrite E in Hmore. cbn [nonempty str_of list_ascii_of_string app] in Hmore.
      now rewrite (IdiomRest.strip_connector_and rest E) in Hmore.
    + intros r E. rewrite E in Hmore. cbn [nonempty str_of list_ascii_of_string app] in Hmore.
      now rewrite (IdiomRest.strip_connector_or rest E) in Hmore.
    + intros Hne H1 H2. rewrite (IdiomRest.strip_connector_none rest H1 H2) in Hmore.
      destruct (Py.strip rest); [congruence|exact Hmore].
Qed.

End IdiomThenRest.

(** X22 on [dt BETWEEN to_date(:start, 'YYYY-MM-DD') AND
    to_date(:end, 'DD/MM/YYYY') AND a = 1]: the two formats differ, the
    condition carries the first, and the condition of [a = 1] follows with
    the id 1. *)
Lemma to_date_idiom_then_rest_witness :
  exists more,
    extract_conditions
      (Idiom.idiom_text (str_of "dt") false (str_of ":start") (str_of " ")
         (str_of "YYYY-MM-DD") (str_of ":end") (str_of " ")
         (str_of "DD/MM/YYYY") [] ++ str_of " AND a = 1") []
    = Ok (idiom_condition (str_of "dt")
            (false || Py.contains (str_of "NOT") (Py.upper (str_of "dt")))
            (str_of ":start") (str_of "YYYY-MM-DD") (str_of ":end")
            (str_of "DD/MM/YYYY")
          :: renumber 0 more)
    /\ map get_id (renumber 0 more)
       = map (fun i => Some (PInt (Z.of_nat i))) (seq 1 (length more))
    /\ (let rest :=
          Py.replace
            (Idiom.idiom_text (str_of "dt") false (str_of ":start") (str_of " ")
               (str_of "YYYY-MM-DD") (str_of ":end") (str_of " ")
               (str_of "DD/MM/YYYY") []) []
            (str_of " AND a = 1") in
        (Py.strip rest = [] -> more = [])
        /\ (forall r, Py.strip rest = str_of "AND " ++ r ->
              extract_conditions r [] = Ok more)
        /\ (forall r, Py.strip rest = str_of "OR " ++ r ->
              extract_conditions r [] = Ok more)
        /\ (Py.strip rest <> [] ->
            Py.startswith (Py.strip rest) (str_of "AND ") = false ->
            Py.startswith (Py.strip rest) (str_of "OR ") = false ->
            extract_conditions rest [] = Ok more)).
Proof.
  apply (@to_date_idiom_then_rest (str_of "dt") false (str_of ":start")
           (str_of " ") (str_of "YYYY-MM-DD") (str_of ":end") (str_of " ")
           (str_of "DD/MM/YYYY") (str_of " AND a = 1") []).
  - split; [discriminate|reflexivity].
  - split; [discriminate|split; [reflexivity|split; reflexivity]].
  - split; [discriminate|split; [reflexivity|split; reflexivity]].
  - split; [discriminate|split; [reflexivity|split; reflexivity]].
  - split; [discriminate|split; [reflexivity|split; reflexivity]].
  - reflexivity.
  - reflexivity.
  - vm_compute. reflexivity.
  - vm_compute. reflexivity.
Defined.

(** C5 (the code departs from the claim): the idiom without NOT on a
    column named [notes] is parsed into a condition with the operator
    NOT BETWEEN, and the negated idiom on a column named [between_dt] into
    one with the operator BETWEEN.  The code looks for the letters NOT in
    the text in front of the first BETWEEN, field name included, where its
    comment says that it checks for a NOT in front of BETWEEN; the pattern
    it has just matched knows the keyword. *)
Theorem to_date_idiom_operator_slip :
  (exists condition,
     parse_sql_query format_unchanged
       (select_from_t
          (str_of " notes BETWEEN to_date(:a, 'YYYY-MM-DD') AND to_date(:b, 'YYYY-MM-DD')"))
       (str_of "SELECT * FROM t WHERE notes BETWEEN to_date(:a, 'YYYY-MM-DD') AND to_date(:b, 'YYYY-MM-DD')")
     = Ok [condition]
     /\ Dict.get condition (str_of "field") = Some (PStr (str_of "notes"))
     /\ Dict.get condition (str_of "operator") = Some (PStr (str_of "NOT BETWEEN")))
  /\ (exists condition,
        parse_sql_query format_unchanged
          (select_from_t
             (str_of " between_dt NOT BETWEEN to_date(:a, 'YYYY-MM-DD') AND to_date(:b, 'YYYY-MM-DD')"))
          (str_of "SELECT * FROM t WHERE between_dt NOT BETWEEN to_date(:a, 'YYYY-MM-DD') AND to_date(:b, 'YYYY-MM-DD')")
        = Ok [condition]
        /\ Dict.get condition (str_of "field") = Some (PStr (str_of "between_dt"))
        /\ Dict.get condition (str_of "operator") = Some (PStr (str_of "BETWEEN"))).
Proof.
  split.
  - eexists. split; [vm_compute; reflexivity|]. split; reflexivity.
  - eexists. split; [vm_compute; reflexivity|]. split; reflexivity.
Qed.
